(** * IDU XML generator: the filter / chunk / render / archive pipeline

    A shallow embedding of [idu_xml_generator_app.py]: [validate_data],
    [create_chunks], [generate_xml_from_chunk], [process_data_to_xml] and
    [create_zip_file], with the parts of pandas, ElementTree, minidom and
    zipfile these functions call written out as Rocq functions. *)

From Stdlib Require Import String Ascii List ZArith Lia Bool Arith.
From Stdlib Require DecimalString Decimal DecimalNat.
Import ListNotations.

Open Scope string_scope.
Open Scope list_scope.
Open Scope Z_scope.

(** ** Python values *)

(** A Python [str] is the list of its code points; the model keeps the code
    points below 256, one [ascii] each.  String literals are read through the
    coercion. *)
Definition str := list ascii.
Coercion list_ascii_of_string : string >-> list.

Definition strs (l : list string) : list str := map list_ascii_of_string l.

Definition str_items (l : list (string * string)) : list (str * str) :=
  map (fun p => (list_ascii_of_string (fst p), list_ascii_of_string (snd p))) l.

Fixpoint str_eqb (a b : str) : bool :=
  match a, b with
  | [], [] => true
  | x :: a', y :: b' => Ascii.eqb x y && str_eqb a' b'
  | _, _ => false
  end.

(** [str.isspace] on one code point below 256: TAB..CR, FS..US, SPACE,
    NEL and NBSP. *)
Definition isspace (c : ascii) : bool :=
  let n := nat_of_ascii c in
  ((9 <=? n) && (n <=? 13) || (28 <=? n) && (n <=? 32)
   || (n =? 133) || (n =? 160))%nat.

Fixpoint lstrip (s : str) : str :=
  match s with
  | [] => []
  | c :: r => if isspace c then lstrip r else s
  end.

Definition rstrip (s : str) : str := rev (lstrip (rev s)).

(** [s.strip()] *)
Definition strip (s : str) : str := rstrip (lstrip s).

(** [sep.join(parts)] *)
Fixpoint join (sep : str) (parts : list str) : str :=
  match parts with
  | [] => []
  | [p] => p
  | p :: rest => p ++ sep ++ join sep rest
  end.

(** [s.startswith(p)] *)
Fixpoint startswith (p s : str) : bool :=
  match p, s with
  | [], _ => true
  | x :: p', y :: s' => Ascii.eqb x y && startswith p' s'
  | _ :: _, [] => false
  end.

(** [s.split(sep)] for a one-character separator. *)
Fixpoint split_on (sep : ascii) (s : str) : list str :=
  match s with
  | [] => [[]]
  | c :: r =>
      if Ascii.eqb c sep then [] :: split_on sep r
      else match split_on sep r with
           | [] => [[c]]
           | l :: ls => (c :: l) :: ls
           end
  end.

(** [str(n)] for a Python [int]. *)
Definition str_of_nat (n : nat) : str :=
  DecimalString.NilEmpty.string_of_uint (Nat.to_uint n).

Definition str_of_Z (z : Z) : str :=
  if z <? 0 then "-" ++ str_of_nat (Z.to_nat (- z)) else str_of_nat (Z.to_nat z).

(** ** Exceptions *)

Inductive exn : Type :=
| KeyError (key : str)
| AttributeError
| ZeroDivisionError
| ExpatError.

Inductive result (A : Type) : Type :=
| Ok (a : A)
| Raise (e : exn).
Arguments Ok {A} a.
Arguments Raise {A} e.

Definition bind {A B} (m : result A) (k : A -> result B) : result B :=
  match m with
  | Ok a => k a
  | Raise e => Raise e
  end.

Notation "x <- m ;; k" := (bind m (fun x => k))
  (at level 61, m at next level, right associativity).

(** ** Tables *)

(** One cell of a pandas DataFrame: a Python [str], an integer, or the
    missing value NaN that the readers of pandas put in an empty cell. *)
Inductive value : Type :=
| VStr (s : str)
| VInt (n : Z)
| VNaN.

Definition Row := list value.

(** A DataFrame: its column labels and its rows, each row holding one cell
    per column, in column order.  Column labels are pairwise distinct (the
    readers of pandas rename repeated headers).  A column that holds a
    string or a missing value is of dtype [object]; a column of integers
    only may be of an integer dtype.  Columns of floating-point numbers are
    outside the model. *)
Record DataFrame : Type := mkDF {
  columns : list str;
  rows : list Row
}.

(** [len(df)] *)
Definition len (df : DataFrame) : Z := Z.of_nat (length (rows df)).

(** [df.empty]: some axis has length 0. *)
Definition empty (df : DataFrame) : bool :=
  match columns df, rows df with
  | [], _ => true
  | _, [] => true
  | _, _ => false
  end.

Fixpoint index_of (col : str) (cols : list str) : option nat :=
  match cols with
  | [] => None
  | c :: r => if str_eqb col c then Some 0%nat
              else option_map S (index_of col r)
  end.

(** [col in df.columns] *)
Definition has_column (df : DataFrame) (col : str) : bool :=
  match index_of col (columns df) with Some _ => true | None => false end.

(** [row[col]] for a row of [df]. *)
Definition cell (df : DataFrame) (col : str) (r : Row) : value :=
  match index_of col (columns df) with
  | Some i => nth i r VNaN
  | None => VNaN
  end.

(** [df[col]]: the column as a Series, [KeyError] when there is none. *)
Definition getitem (df : DataFrame) (col : str) : result (list value) :=
  match index_of col (columns df) with
  | Some i => Ok (map (fun r => nth i r VNaN) (rows df))
  | None => Raise (KeyError col)
  end.

Definition is_str (v : value) : bool :=
  match v with VStr _ => true | _ => false end.

Definition is_nan (v : value) : bool :=
  match v with VNaN => true | _ => false end.

(** [series.str]: pandas infers the kind of the values, missing ones
    skipped, and refuses the accessor on a Series of numbers ("Can only use
    .str accessor with string values!").  A Series with a string in it
    (kinds "string", "mixed", "mixed-integer") or with nothing but missing
    values (kind "empty") is accepted. *)
Definition str_accessor (s : list value) : result (list value) :=
  if existsb is_str s || forallb is_nan s then Ok s else Raise AttributeError.

(** What [.str.strip()] makes of one element: a string is stripped, every
    other value becomes NaN. *)
Definition stripped (v : value) : value :=
  match v with VStr x => VStr (strip x) | _ => VNaN end.

(** [series.str.strip()] *)
Definition str_strip (s : list value) : result (list value) :=
  vs <- str_accessor s ;;
  Ok (map stripped vs).

(** [v == t] and [v != t] against a string, on one element: NaN and
    numbers compare unequal to every string. *)
Definition value_eq (v : value) (t : str) : bool :=
  match v with VStr x => str_eqb x t | _ => false end.

Definition value_isin (v : value) (vals : list str) : bool :=
  match v with VStr x => existsb (str_eqb x) vals | _ => false end.

(** [series == t] *)
Definition series_eq (s : list value) (t : str) : list bool :=
  map (fun v => value_eq v t) s.

(** [series != t] *)
Definition series_ne (s : list value) (t : str) : list bool :=
  map negb (series_eq s t).

(** [series.isin(values)] for a list of strings. *)
Definition isin (s : list value) (vals : list str) : list bool :=
  map (fun v => value_isin v vals) s.

(** [a & b] on boolean Series of one length. *)
Definition series_and (a b : list bool) : list bool :=
  map (fun p => andb (fst p) (snd p)) (combine a b).

(** Selection of the rows a boolean mask marks. *)
Fixpoint select {A} (mask : list bool) (l : list A) : list A :=
  match mask, l with
  | b :: m, x :: r => if b then x :: select m r else select m r
  | _, _ => []
  end.

(** [df[mask]] *)
Definition boolean_index (df : DataFrame) (mask : list bool) : DataFrame :=
  mkDF (columns df) (select mask (rows df)).

(** A Python slice bound, clamped to [0, n]; a negative one counts from the
    end. *)
Definition slice_bound (n i : Z) : Z :=
  if i <? 0 then Z.max 0 (i + n) else Z.min i n.

(** [l[start:stop]] *)
Definition py_slice {A} (l : list A) (start stop : Z) : list A :=
  let n := Z.of_nat (length l) in
  let s := slice_bound n start in
  let e := slice_bound n stop in
  firstn (Z.to_nat (e - s)) (skipn (Z.to_nat s) l).

(** [df.iloc[start:stop]] *)
Definition iloc (df : DataFrame) (start stop : Z) : DataFrame :=
  mkDF (columns df) (py_slice (rows df) start stop).

(** [range(n)] *)
Definition range (n : Z) : list Z := map Z.of_nat (seq 0 (Z.to_nat n)).

(** [a // b] *)
Definition floordiv (a b : Z) : result Z :=
  if b =? 0 then Raise ZeroDivisionError else Ok (a / b).

(** [str(v)] of a cell. *)
Definition py_str (v : value) : str :=
  match v with
  | VStr s => s
  | VInt n => str_of_Z n
  | VNaN => "nan"
  end.

(** ** Configuration *)

Definition CHUNK_SIZE : Z := 25000.

Definition ALLOWED_VERSIONS : list str :=
  strs ["R2.0.18.2"; "R2.0.18"; "R2.0.19"; "R2.0.19.5"; "R2.0.16"; "R2.0.19.6"].

Definition DEVICE_MODELS : list str :=
  strs ["JIDU6601"; "JIDU6611"; "JIDU6401"; "JIDU6701"; "JIDU6801";
   "JIDU6101"; "JIDU6111"; "JIDU6311"; "JIDU6411"; "JIDU6811"; "JIDU6911"].

Definition MANUFACTURER_MAP : list (str * str) :=
  str_items
  [("JIDU6101", "Arcadyan");
   ("JIDU6111", "Arcadyan");
   ("JIDU6311", "Bluebank");
   ("JIDU6401", "Sercomm");
   ("JIDU6411", "Sercomm");
   ("JIDU6601", "Speedtech");
   ("JIDU6611", "Speedtech");
   ("JIDU6701", "Skyworth");
   ("JIDU6801", "Telpa");
   ("JIDU6811", "Telpa");
   ("JIDU6911", "Askey")].

(** [d.get(key, default)] on a dict kept as its items in insertion order. *)
Fixpoint dict_get {V} (d : list (str * V)) (key : str) (default : V) : V :=
  match d with
  | [] => default
  | (k, v) :: r => if str_eqb key k then v else dict_get r key default
  end.

(** ** validate_data *)

Definition required_columns : list str :=
  strs ["Device Model"; "Serial Number"; "Version"].

(** [[col for col in required_columns if col not in df.columns]] *)
Definition missing_columns (df : DataFrame) : list str :=
  filter (fun col => negb (has_column df col)) required_columns.

Definition validate_data (df : DataFrame) : bool * str :=
  match missing_columns df with
  | _ :: _ =>
      (false, "Missing required columns: " ++ join ", " (missing_columns df))
  | [] => (true, "Data validated successfully" : str)
  end.

(** ** create_chunks *)

(** The boolean mask of the filter, its four operands evaluated left to
    right. *)
Definition filter_mask (df : DataFrame) (target_model : str)
    (allowed_versions : list str) : result (list bool) :=
  dm <- getitem df "Device Model" ;;
  dm <- str_strip dm ;;
  let m1 := series_eq dm target_model in
  sn <- getitem df "Serial Number" ;;
  sn <- str_strip sn ;;
  let m2 := series_ne sn [] in
  v <- getitem df "Version" ;;
  v <- str_strip v ;;
  let m3 := series_ne v [] in
  v' <- getitem df "Version" ;;
  v' <- str_strip v' ;;
  let m4 := isin v' allowed_versions in
  Ok (series_and (series_and (series_and m1 m2) m3) m4).

(** [filtered_df]: the rows the mask keeps, in their order. *)
Definition filter_rows (df : DataFrame) (target_model : str)
    (allowed_versions : list str) : result DataFrame :=
  mask <- filter_mask df target_model allowed_versions ;;
  Ok (boolean_index df mask).

Definition create_chunks (df : DataFrame) (target_model : str)
    (allowed_versions : list str) (chunk_size : Z) : result (list DataFrame) :=
  filtered_df <- filter_rows df target_model allowed_versions ;;
  if empty filtered_df then Ok []
  else
    num_chunks <- floordiv (len filtered_df + chunk_size - 1) chunk_size ;;
    Ok (map (fun i =>
               let start_idx := i * chunk_size in
               let end_idx := Z.min ((i + 1) * chunk_size) (len filtered_df) in
               iloc filtered_df start_idx end_idx)
            (range num_chunks)).

(** ** xml.etree.ElementTree *)

Definition LF : ascii := "010"%char.
Definition CR : ascii := "013"%char.
Definition TAB : ascii := "009"%char.
Definition QUOTE : ascii := "034"%char.

(** A sub-element as [ET.SubElement] makes it and the code fills it: tag,
    attributes in the order they were set, text. *)
Record SubElement : Type := mkSubElement {
  se_tag : str;
  se_attrib : list (str * str);
  se_text : str
}.

(** The root element: its tag and its children, in the order appended. *)
Record Element : Type := mkElement {
  tag : str;
  children : list SubElement
}.

(** [str.replace] of one character by a string. *)
Definition replace_char (c : ascii) (by_ : str) (s : str) : str :=
  flat_map (fun x => if Ascii.eqb x c then by_ else [x]) s.

(** ElementTree's [_escape_cdata]. *)
Definition escape_cdata (text : str) : str :=
  replace_char ">" "&gt;" (replace_char "<" "&lt;" (replace_char "&" "&amp;" text)).

(** ElementTree's [_escape_attrib]. *)
Definition escape_attrib (text : str) : str :=
  replace_char TAB "&#09;" (replace_char LF "&#10;" (replace_char CR "&#13;"
    (replace_char QUOTE "&quot;" (escape_cdata text)))).

Definition serialize_attrib (escape : str -> str) (attrib : list (str * str)) : str :=
  flat_map (fun kv => " " ++ fst kv ++ "=" ++ [QUOTE] ++ escape (snd kv) ++ [QUOTE])
           attrib.

(** ElementTree's [_serialize_xml] on a sub-element, with short empty
    elements. *)
Definition serialize_subelement (e : SubElement) : str :=
  "<" ++ se_tag e ++ serialize_attrib escape_attrib (se_attrib e) ++
  match se_text e with
  | [] => " />"
  | _ => ">" ++ escape_cdata (se_text e) ++ "</" ++ se_tag e ++ ">"
  end.

(** [ET.tostring(root, encoding='unicode')] *)
Definition ET_tostring (root : Element) : str :=
  "<" ++ tag root ++
  match children root with
  | [] => " />"
  | _ => ">" ++ flat_map serialize_subelement (children root) ++
         "</" ++ tag root ++ ">"
  end.

(** ** xml.dom.minidom: the parser *)

(** A node under the document element: an element that holds text only, or
    a text node. *)
Inductive Node : Type :=
| ElemNode (name : str) (attrs : list (str * str)) (data : str)
| TextNode (data : str).

(** A parsed document: the document element and the nodes under it. *)
Record Document : Type := mkDocument {
  doc_tag : str;
  doc_attrs : list (str * str);
  doc_nodes : list Node
}.

(** The characters XML 1.0 admits, among the code points below 256. *)
Definition xml_char (c : ascii) : bool :=
  let n := nat_of_ascii c in
  ((32 <=? n) || (n =? 9) || (n =? 10) || (n =? 13))%nat.

(** End-of-line handling: CR LF and a lone CR are read as LF. *)
Fixpoint normalize_eol (s : str) : str :=
  match s with
  | [] => []
  | c :: r =>
      if Ascii.eqb c CR then
        LF :: match r with
              | [] => []
              | d :: r' => if Ascii.eqb d LF then normalize_eol r'
                           else normalize_eol r
              end
      else c :: normalize_eol r
  end.

Definition xml_space (c : ascii) : bool :=
  Ascii.eqb c " " || Ascii.eqb c TAB || Ascii.eqb c LF || Ascii.eqb c CR.

Definition is_digit (c : ascii) : bool :=
  let n := nat_of_ascii c in ((48 <=? n) && (n <=? 57))%nat.

Definition name_char (c : ascii) : bool :=
  let n := nat_of_ascii c in
  ((65 <=? n) && (n <=? 90) || (97 <=? n) && (n <=? 122) || is_digit c
   || (n =? 95) || (n =? 45) || (n =? 46) || (n =? 58))%nat.

Fixpoint skip_space (s : str) : str :=
  match s with
  | c :: r => if xml_space c then skip_space r else s
  | [] => []
  end.

(** The longest prefix without the character [stop], and what follows. *)
Fixpoint span_until (stop : ascii) (s : str) : str * str :=
  match s with
  | [] => ([], [])
  | c :: r => if Ascii.eqb c stop then ([], s)
              else let (a, b) := span_until stop r in (c :: a, b)
  end.

Fixpoint take_name (s : str) : str * str :=
  match s with
  | [] => ([], [])
  | c :: r => if name_char c then let (a, b) := take_name r in (c :: a, b)
              else ([], s)
  end.

(** The value of a run of decimal digits. *)
Definition digits_value (ds : str) : nat :=
  fold_left (fun acc d => (10 * acc + (nat_of_ascii d - 48))%nat) ds 0%nat.

(** The character a reference [&name;] stands for. *)
Definition entity (name : str) : option ascii :=
  if str_eqb name "amp" then Some "&"%char
  else if str_eqb name "lt" then Some "<"%char
  else if str_eqb name "gt" then Some ">"%char
  else if str_eqb name "quot" then Some QUOTE
  else if str_eqb name "apos" then Some "'"%char
  else match name with
       | h :: (_ :: _) as ds =>
           if Ascii.eqb h "#" && forallb is_digit ds
              && (digits_value ds <? 256)%nat
              && xml_char (ascii_of_nat (digits_value ds))
           then Some (ascii_of_nat (digits_value ds))
           else None
       | _ => None
       end.

(** Character data with its references replaced.  [pending] holds the name
    of the reference being read, if one is open. *)
Fixpoint unescape (pending : option str) (s : str) : option str :=
  match s with
  | [] => match pending with None => Some [] | Some _ => None end
  | c :: r =>
      match pending with
      | None =>
          if Ascii.eqb c "&" then unescape (Some []) r
          else option_map (cons c) (unescape None r)
      | Some name =>
          if Ascii.eqb c ";" then
            match entity name with
            | Some x => option_map (cons x) (unescape None r)
            | None => None
            end
          else unescape (Some (name ++ [c])) r
      end
  end.

(** Attribute-value normalisation: a literal white space character is read
    as a space. *)
Definition attr_space (c : ascii) : ascii :=
  if xml_space c then " "%char else c.

(** The attributes of a start tag, up to its [>] or [/>]. *)
Fixpoint take_attrs (fuel : nat) (s : str) : option (list (str * str) * str) :=
  match fuel with
  | O => None
  | S fuel' =>
      match skip_space s with
      | [] => Some ([], [])
      | c :: r0 =>
          if name_char c then
            let (name, r1) := take_name (c :: r0) in
            match skip_space r1 with
            | e :: r2 =>
                if Ascii.eqb e "=" then
                  match skip_space r2 with
                  | q :: r3 =>
                      if Ascii.eqb q QUOTE then
                        let (raw, r4) := span_until QUOTE r3 in
                        match r4 with
                        | _ :: r5 =>
                            if existsb (Ascii.eqb "<") raw then None
                            else
                              match unescape None (map attr_space raw) with
                              | Some v =>
                                  match take_attrs fuel' r5 with
                                  | Some (attrs, rest) =>
                                      Some ((name, v) :: attrs, rest)
                                  | None => None
                                  end
                              | None => None
                              end
                        | [] => None
                        end
                      else None
                  | [] => None
                  end
                else None
            | [] => None
            end
          else Some ([], c :: r0)
      end
  end.

(** A start tag, read after its [<]: name, attributes, whether it is an
    empty-element tag, and what follows. *)
Definition parse_start_tag (s : str)
  : option (str * list (str * str) * bool * str) :=
  let (name, r) := take_name s in
  match name with
  | [] => None
  | _ =>
      match take_attrs (S (length r)) r with
      | Some (attrs, a :: r1) =>
          if Ascii.eqb a ">" then Some (name, attrs, false, r1)
          else if Ascii.eqb a "/" then
            match r1 with
            | b :: r2 => if Ascii.eqb b ">" then Some (name, attrs, true, r2)
                         else None
            | [] => None
            end
          else None
      | _ => None
      end
  end.

(** An end tag for [name], read after its [</]. *)
Definition parse_end_tag (name : str) (s : str) : option str :=
  let (n, r) := take_name s in
  if str_eqb n name then
    match skip_space r with
    | c :: r' => if Ascii.eqb c ">" then Some r' else None
    | [] => None
    end
  else None.

(** The nodes under the document element, up to and including the [</] of
    its end tag. *)
Fixpoint parse_content (fuel : nat) (s : str) : option (list Node * str) :=
  match fuel with
  | O => None
  | S fuel' =>
      match s with
      | [] => None
      | c :: r =>
          if Ascii.eqb c "<" then
            match r with
            | [] => None
            | d :: r' =>
                if Ascii.eqb d "/" then Some ([], r')
                else
                  match parse_start_tag r with
                  | Some (name, attrs, true, r1) =>
                      match parse_content fuel' r1 with
                      | Some (nodes, rest) =>
                          Some (ElemNode name attrs [] :: nodes, rest)
                      | None => None
                      end
                  | Some (name, attrs, false, r1) =>
                      let (raw, r2) := span_until "<" r1 in
                      match r2 with
                      | _ :: s1 :: r3 =>
                          if Ascii.eqb s1 "/" then
                            match unescape None raw, parse_end_tag name r3 with
                            | Some data, Some r4 =>
                                match parse_content fuel' r4 with
                                | Some (nodes, rest) =>
                                    Some (ElemNode name attrs data :: nodes, rest)
                                | None => None
                                end
                            | _, _ => None
                            end
                          else None
                      | _ => None
                      end
                  | None => None
                  end
            end
          else
            let (raw, r1) := span_until "<" s in
            match unescape None raw, parse_content fuel' r1 with
            | Some data, Some (nodes, rest) => Some (TextNode data :: nodes, rest)
            | _, _ => None
            end
      end
  end.

(** The XML declaration, when the text starts with one, is passed over. *)
Fixpoint drop_declaration_end (s : str) : option str :=
  match s with
  | [] => None
  | c :: r =>
      match r with
      | d :: r' => if Ascii.eqb c "?" && Ascii.eqb d ">" then Some r'
                   else drop_declaration_end r
      | [] => None
      end
  end.

Definition skip_declaration (s : str) : option str :=
  if startswith "<?xml" s then drop_declaration_end s else Some s.

(** A document: an optional declaration, then one element that holds text
    nodes and text-only elements, with white space allowed around it. *)
Definition parse_document (s : str) : option Document :=
  if forallb xml_char s then
    match skip_declaration (normalize_eol s) with
    | None => None
    | Some s1 =>
        match skip_space s1 with
        | c :: r =>
            if Ascii.eqb c "<" then
              match parse_start_tag r with
              | Some (name, attrs, true, r1) =>
                  match skip_space r1 with
                  | [] => Some (mkDocument name attrs [])
                  | _ => None
                  end
              | Some (name, attrs, false, r1) =>
                  match parse_content (S (length r1)) r1 with
                  | Some (nodes, r2) =>
                      match parse_end_tag name r2 with
                      | Some r3 =>
                          match skip_space r3 with
                          | [] => Some (mkDocument name attrs nodes)
                          | _ => None
                          end
                      | None => None
                      end
                  | None => None
                  end
              | None => None
              end
            else None
        | [] => None
        end
    end
  else None.

(** [minidom.parseString(text)]: the expat parser raises on text that is
    not well formed. *)
Definition minidom_parseString (text : str) : result Document :=
  match parse_document text with
  | Some d => Ok d
  | None => Raise ExpatError
  end.

(** ** xml.dom.minidom: the writer *)

(** minidom's [_write_data], one escaping for text and for attribute
    values. *)
Definition write_data (data : str) : str :=
  replace_char ">" "&gt;" (replace_char QUOTE "&quot;"
    (replace_char "<" "&lt;" (replace_char "&" "&amp;" data))).

(** [node.writexml(writer, indent, addindent, newl)] for a node under the
    document element. *)
Definition writexml_node (indent addindent newl : str) (n : Node) : str :=
  match n with
  | TextNode data => write_data (indent ++ data ++ newl)
  | ElemNode name attrs data =>
      indent ++ "<" ++ name ++ serialize_attrib write_data attrs ++
      match data with
      | [] => "/>" ++ newl
      | _ => ">" ++ write_data data ++ "</" ++ name ++ ">" ++ newl
      end
  end.

(** [Element.writexml] for the document element: an element whose only
    child is a text node stays on one line. *)
Definition writexml (indent addindent newl : str) (d : Document) : str :=
  indent ++ "<" ++ doc_tag d ++ serialize_attrib write_data (doc_attrs d) ++
  match doc_nodes d with
  | [] => "/>" ++ newl
  | [TextNode data] =>
      ">" ++ write_data data ++ "</" ++ doc_tag d ++ ">" ++ newl
  | nodes =>
      ">" ++ newl ++
      flat_map (writexml_node (indent ++ addindent) addindent newl) nodes ++
      indent ++ "</" ++ doc_tag d ++ ">" ++ newl
  end.

(** The declaration minidom writes when no encoding is given. *)
Definition minidom_declaration : str :=
  "<?xml version=" ++ [QUOTE] ++ "1.0" ++ [QUOTE] ++ " ?>".

(** [dom.toprettyxml(indent=indent)] *)
Definition toprettyxml (indent : str) (d : Document) : str :=
  minidom_declaration ++ [LF] ++ writexml [] indent [LF] d.

(** ** generate_xml_from_chunk *)

(** [row[col]] inside [iterrows]: [KeyError] when the frame has no such
    column. *)
Definition row_getitem (df : DataFrame) (r : Row) (col : str) : result value :=
  match index_of col (columns df) with
  | Some i => Ok (nth i r VNaN)
  | None => Raise (KeyError col)
  end.

(** [d[key] = v] on a dict kept as its items in insertion order. *)
Fixpoint dict_set {V} (d : list (str * V)) (key : str) (v : V) : list (str * V) :=
  match d with
  | [] => [(key, v)]
  | (k, x) :: r => if str_eqb key k then (k, v) :: r
                   else (k, x) :: dict_set r key v
  end.

(** The loop that adds one [serial] element per row with a serial number. *)
Fixpoint add_serials (chunk_df : DataFrame) (device_model manufacturer : str)
    (todo : list Row) (root : Element) : result Element :=
  match todo with
  | [] => Ok root
  | row :: rest =>
      v <- row_getitem chunk_df row "Serial Number" ;;
      let serial_number := strip (py_str v) in
      let root' :=
        match serial_number with
        | [] => root
        | _ =>
            let attrib := dict_set [] "Model" device_model in
            let attrib := dict_set attrib "Manufacturer" manufacturer in
            mkElement (tag root)
              (children root ++ [mkSubElement "serial" attrib serial_number])
        end in
      add_serials chunk_df device_model manufacturer rest root'
  end.

(** The test of the line filter: the line is not blank and is not an XML
    declaration. *)
Definition keep_line (line : str) : bool :=
  match strip line with
  | [] => false
  | _ => negb (startswith "<?xml" (strip line))
  end.

Definition xml_declaration : str :=
  "<?xml version=" ++ [QUOTE] ++ "1.0" ++ [QUOTE] ++
  " encoding=" ++ [QUOTE] ++ "UTF-8" ++ [QUOTE] ++ "?>".

Definition generate_xml_from_chunk (chunk_df : DataFrame) (device_model : str)
    (chunk_number : Z) : result str :=
  let manufacturer := dict_get MANUFACTURER_MAP device_model "Unknown" in
  root <- add_serials chunk_df device_model manufacturer (rows chunk_df)
            (mkElement "serials" []) ;;
  let xml_str := ET_tostring root in
  dom <- minidom_parseString xml_str ;;
  let pretty_xml := toprettyxml "  " dom in
  let lines := split_on LF pretty_xml in
  let lines := filter keep_line lines in
  let pretty_xml := join [LF] lines in
  let final_xml := xml_declaration ++ [LF] ++ pretty_xml in
  Ok final_xml.

(** ** process_data_to_xml *)

(** [f"{device_model}_Chunk{chunk_num}.xml"] *)
Definition filename_of (device_model : str) (chunk_num : Z) : str :=
  device_model ++ "_Chunk" ++ str_of_Z chunk_num ++ ".xml".

(** [enumerate(l, start)] *)
Fixpoint enumerate {A} (start : Z) (l : list A) : list (Z * A) :=
  match l with
  | [] => []
  | x :: r => (start, x) :: enumerate (start + 1) r
  end.

(** The inner loop: one [(filename, xml_content)] pair appended per
    chunk. *)
Fixpoint render_chunks (device_model : str) (todo : list (Z * DataFrame))
    (xml_files : list (str * str)) : result (list (str * str)) :=
  match todo with
  | [] => Ok xml_files
  | (chunk_num, chunk_df) :: rest =>
      xml_content <- generate_xml_from_chunk chunk_df device_model chunk_num ;;
      let filename := filename_of device_model chunk_num in
      render_chunks device_model rest (xml_files ++ [(filename, xml_content)])
  end.

(** The outer loop over the device models; [all_xml_files] is the dict
    being filled, kept as its items in insertion order. *)
Fixpoint process_models (df : DataFrame) (models : list str)
    (all_xml_files : list (str * list (str * str)))
  : result (list (str * list (str * str))) :=
  match models with
  | [] => Ok all_xml_files
  | device_model :: rest =>
      chunks <- create_chunks df device_model ALLOWED_VERSIONS CHUNK_SIZE ;;
      match chunks with
      | [] => process_models df rest all_xml_files
      | _ =>
          xml_files <- render_chunks device_model (enumerate 1 chunks) [] ;;
          process_models df rest (dict_set all_xml_files device_model xml_files)
      end
  end.

Definition process_data_to_xml (df : DataFrame)
  : result (list (str * list (str * str))) :=
  process_models df DEVICE_MODELS [].

(** ** create_zip_file *)

(** A ZIP archive on disk: its entries, name and data, in the order
    written, and whether its end record has been written, which closing
    the [ZipFile] does and without which the file is not a ZIP archive. *)
Record Archive : Type := mkArchive {
  entries : list (str * str);
  end_record : bool
}.

(** The part of the operating system the function touches: how many
    temporary directories have been made, and the archives by path. *)
Record OS : Type := mkOS {
  made : nat;
  files : list (str * Archive)
}.

(** [tempfile.mkdtemp()]: a directory that did not exist. *)
Definition mkdtemp (os : OS) : str * OS :=
  ("/tmp/tmp" ++ str_of_nat (made os), mkOS (S (made os)) (files os)).

(** [os.path.join(a, b)] for a relative [b]. *)
Definition path_join (a b : str) : str := a ++ "/" ++ b.

(** [zipfile.ZipFile(path, 'w', ...)]: a new, empty archive at [path]. *)
Definition zip_open (path : str) (os : OS) : OS :=
  mkOS (made os) (dict_set (files os) path (mkArchive [] false)).

Definition NUL : ascii := "000"%char.

(** The name [ZipInfo] gives an entry: the file name up to its first null
    character. *)
Definition arcname (filename : str) : str := fst (span_until NUL filename).

(** [zipf.writestr(filename, data)]: one more entry, also when the name is
    already taken. *)
Definition writestr (path filename data : str) (os : OS) : OS :=
  let a := dict_get (files os) path (mkArchive [] false) in
  mkOS (made os)
       (dict_set (files os) path
          (mkArchive (entries a ++ [(arcname filename, data)]) (end_record a))).

(** Leaving the [with] block closes the archive and writes its end
    record. *)
Definition zip_close (path : str) (os : OS) : OS :=
  let a := dict_get (files os) path (mkArchive [] false) in
  mkOS (made os) (dict_set (files os) path (mkArchive (entries a) true)).

Definition create_zip_file (xml_files_dict : list (str * list (str * str)))
    (os : OS) : str * OS :=
  let (temp_dir, os) := mkdtemp os in
  let zip_path := path_join temp_dir "xml_files.zip" in
  let os := zip_open zip_path os in
  let os :=
    fold_left (fun os item =>
                 fold_left (fun os file =>
                              writestr zip_path (fst file) (snd file) os)
                           (snd item) os)
              xml_files_dict os in
  let os := zip_close zip_path os in
  (zip_path, os).

(** ** create_chunks on the object store *)

(** Python passes DataFrames by reference.  The store holds every DataFrame
    object alive, a reference is a position in it, and a new object goes to
    the end. *)
Definition ref := nat.
Definition store := list DataFrame.

Definition deref (h : store) (p : ref) : DataFrame := nth p h (mkDF [] []).

(** A computation that reads and extends the store and may raise. *)
Definition St (A : Type) : Type := store -> result A * store.

Definition ret {A} (a : A) : St A := fun h => (Ok a, h).

Definition bindS {A B} (m : St A) (k : A -> St B) : St B :=
  fun h => match m h with
           | (Ok a, h') => k a h'
           | (Raise e, h') => (Raise e, h')
           end.

Notation "x <~ m ;; k" := (bindS m (fun x => k))
  (at level 61, m at next level, right associativity).

Definition lift {A} (r : result A) : St A := fun h => (r, h).

(** Reading the object behind a reference. *)
Definition get (p : ref) : St DataFrame := fun h => (Ok (deref h p), h).

(** A new DataFrame object. *)
Definition new (df : DataFrame) : St ref := fun h => (Ok (length h), h ++ [df]).

(** [obj.copy()] *)
Definition copy (p : ref) : St ref := d <~ get p ;; new d.

Fixpoint forM {A B} (xs : list A) (body : A -> St B) : St (list B) :=
  match xs with
  | [] => ret []
  | x :: r => y <~ body x ;; ys <~ forM r body ;; ret (y :: ys)
  end.

(** [create_chunks] as the interpreter runs it: [df] is a reference, the
    boolean indexing, each [.iloc] slice and each [.copy()] make a new
    object, and nothing is ever assigned into an object. *)
Definition create_chunks_st (df : ref) (target_model : str)
    (allowed_versions : list str) (chunk_size : Z) : St (list ref) :=
  d <~ get df ;;
  mask <~ lift (filter_mask d target_model allowed_versions) ;;
  selected <~ new (boolean_index d mask) ;;
  filtered_df <~ copy selected ;;
  fd <~ get filtered_df ;;
  if empty fd then ret []
  else
    n <~ (fd <~ get filtered_df ;; ret (len fd)) ;;
    num_chunks <~ lift (floordiv (n + chunk_size - 1) chunk_size) ;;
    forM (range num_chunks) (fun i =>
      let start_idx := i * chunk_size in
      fd <~ get filtered_df ;;
      let end_idx := Z.min ((i + 1) * chunk_size) (len fd) in
      window <~ new (iloc fd start_idx end_idx) ;;
      chunk_df <~ copy window ;;
      ret chunk_df).

(** The result of a run with every returned reference read in the final
    store. *)
Definition contents (run : result (list ref) * store) : result (list DataFrame) :=
  match fst run with
  | Ok refs => Ok (map (deref (snd run)) refs)
  | Raise e => Raise e
  end.

(** ** Vocabulary of the properties *)

(** The whitespace-trimmed value of the field [col] of a row. *)
Definition trimmed (df : DataFrame) (col : str) (r : Row) : str :=
  strip (py_str (cell df col r)).

(** A table of records: the three required columns are there and every row
    holds a string in each of them. *)
Definition string_table (df : DataFrame) : bool :=
  forallb (has_column df) required_columns &&
  forallb (fun r => forallb (fun col => is_str (cell df col r)) required_columns)
          (rows df).

(** The ceiling of [n / s]. *)
Definition ceil_div (n s : nat) : nat :=
  if (n mod s =? 0)%nat then (n / s)%nat else S (n / s).

(** A string without control characters: every code point is 32 or more. *)
Definition plain_char (c : ascii) : bool := (32 <=? nat_of_ascii c)%nat.

Definition plain (s : str) : bool := forallb plain_char s.

Definition nonempty (s : str) : bool :=
  match s with [] => false | _ => true end.



(** The serial numbers of a chunk as the renderer reads them: the trimmed
    string forms, the empty ones left out. *)
Definition serial_numbers (chunk : DataFrame) : list str :=
  filter nonempty (map (trimmed chunk "Serial Number") (rows chunk)).

(** Reading a rendered document back: the [(Model, Manufacturer, text)]
    triple of every [serial] element under the document element. *)
Definition triples (d : Document) : list (str * str * str) :=
  flat_map (fun n =>
              match n with
              | ElemNode name attrs data =>
                  if str_eqb name "serial"
                  then [(dict_get attrs "Model" [],
                         dict_get attrs "Manufacturer" [], data)]
                  else []
              | TextNode _ => []
              end) (doc_nodes d).

Definition parse_triples (doc : str) : option (list (str * str * str)) :=
  option_map triples (parse_document doc).


(** The line of one [serial] element, indented by two spaces. *)
Definition serial_line (device_model manufacturer serial : str) : str :=
  "  <serial Model=" ++ [QUOTE] ++ write_data device_model ++ [QUOTE] ++
  " Manufacturer=" ++ [QUOTE] ++ write_data manufacturer ++ [QUOTE] ++
  ">" ++ write_data serial ++ "</serial>".

(** The lines of the pretty-printed tree, one element per line. *)
Definition layout (device_model : str) (serials : list str) : list str :=
  match serials with
  | [] => ["<serials/>" : str]
  | _ =>
      ("<serials>" : str) ::
      map (serial_line device_model
             (dict_get MANUFACTURER_MAP device_model "Unknown")) serials ++
      ["</serials>" : str]
  end.

(** A blank line, and a line that starts, white space apart, as an XML
    declaration does. *)
Definition blank_line (l : str) : bool :=
  match strip l with [] => true | _ => false end.

Definition declaration_line (l : str) : bool := startswith "<?xml" (strip l).

(** [s.endswith(p)] *)
Definition endswith (p s : str) : bool := startswith (rev p) (rev s).

(** A line that holds one element of the tree: the start or end tag of the
    document element alone, or one whole [serial] element indented by two
    spaces. *)
Definition element_line (l : str) : bool :=
  str_eqb l "<serials>" || str_eqb l "</serials>" || str_eqb l "<serials/>"
  || startswith "  <serial " l && endswith "</serial>" l.

(** The chunk list of a model is computed and is not empty. *)
Definition has_chunks (df : DataFrame) (device_model : str) : bool :=
  match create_chunks df device_model ALLOWED_VERSIONS CHUNK_SIZE with
  | Ok (_ :: _) => true
  | _ => false
  end.

(** Documents numbered from [start], each under its file name. *)
Definition numbered_files (device_model : str) (start : Z) (docs : list str)
  : list (str * str) :=
  map (fun p => (filename_of device_model (fst p), snd p)) (enumerate start docs).

(** The documents of the chunks of a model: chunk [i], counted from
    [start], rendered with its number. *)
Definition rendered (device_model : str) (start : Z) (chunks : list DataFrame)
    (docs : list str) : Prop :=
  Forall2 (fun p doc => generate_xml_from_chunk (snd p) device_model (fst p) = Ok doc)
          (enumerate start chunks) docs.

(** The files of a mapping, model after model. *)
Definition all_files (d : list (str * list (str * str))) : list (str * str) :=
  flat_map snd d.

(** The archive [create_zip_file] leaves at the path it returns. *)
Definition archive_of (run : str * OS) : Archive :=
  dict_get (files (snd run)) (fst run) (mkArchive [] false).

(** A name that stays in the root of an archive and is stored as it is: no
    control character, so no null character, and no [/]. *)
Definition flat_char (c : ascii) : bool :=
  plain_char c && negb (Ascii.eqb c "/").

Definition flat_name (s : str) : bool := forallb flat_char s.

(** ** Notions used in the proofs *)

(** The filter of [create_chunks] read on one row. *)
Definition row_passes (df : DataFrame) (target_model : str)
    (allowed_versions : list str) (r : Row) : bool :=
  value_eq (stripped (cell df "Device Model" r)) target_model &&
  negb (value_eq (stripped (cell df "Serial Number" r)) []) &&
  negb (value_eq (stripped (cell df "Version" r)) []) &&
  value_isin (stripped (cell df "Version" r)) allowed_versions.

(** A string that holds no line feed. *)
Definition no_LF (s : str) : Prop := ~ In LF s.

(** What ElementTree's escaping makes of one character of text, and what
    minidom's makes of one character, which is also what ElementTree's
    makes of one character of an attribute value when it is no control
    character. *)
Definition esc_text_char (c : ascii) : str :=
  if Ascii.eqb c "&" then "&amp;"
  else if Ascii.eqb c "<" then "&lt;"
  else if Ascii.eqb c ">" then "&gt;"
  else [c].

Definition esc_attr_char (c : ascii) : str :=
  if Ascii.eqb c QUOTE then "&quot;" else esc_text_char c.

(** A character of a rendered document: no control character but the
    line feed. *)
Definition doc_char (c : ascii) : bool := plain_char c || Ascii.eqb c LF.

(** The text of an element that holds character data, as both writers
    produce it when no attribute value holds a control character; [et] is
    the escaping of the character data, [escape_cdata] for ElementTree and
    [write_data] for minidom. *)
Definition element_text (et : str -> str) (name : str)
    (attrs : list (str * str)) (data : str) : str :=
  "<" ++ name ++ serialize_attrib escape_attrib attrs ++
  ">" ++ et data ++ "</" ++ name ++ ">".

(** An escaping of character data that the parser undoes. *)
Definition text_escape (et : str -> str) : Prop :=
  forall t, ~ In "<"%char (et t) /\ unescape None (et t) = Some t.

Definition name_ok (n : str) : bool := nonempty n && forallb name_char n.

Definition attrs_ok (attrs : list (str * str)) : bool :=
  forallb (fun kv => name_ok (fst kv) && plain (snd kv)) attrs.

(** The attributes the renderer sets on a [serial] element. *)
Definition serial_attrib (device_model : str) : list (str * str) :=
  [("Model" : str, device_model);
   ("Manufacturer" : str, dict_get MANUFACTURER_MAP device_model "Unknown")].

(** ** Example tables *)

Definition example_row (serial : str) : Row :=
  [VStr "JIDU6601"; VStr serial; VStr "R2.0.19"].

Definition example_table (serials : list str) : DataFrame :=
  mkDF required_columns (map example_row serials).

(** A record kept, a record without serial number, a record of a version
    that is not allowed. *)
Definition table_scenario : DataFrame :=
  mkDF required_columns
    [example_row "SN1"; example_row [];
     [VStr "JIDU6701"; VStr "SN2"; VStr "R9.9.9"]].

Definition table_three : DataFrame := example_table (strs ["SN1"; "SN2"; "SN3"]).

Definition table_two_models : DataFrame :=
  mkDF required_columns
    [example_row "SN1"; [VStr "JIDU6101"; VStr "SN7"; VStr "R2.0.16"]].



Definition table_line_feed : DataFrame :=
  example_table ["A" ++ [LF] ++ "B"].

(** A [Serial Number] column of numbers, as [read_csv] makes it from
    digits. *)
Definition table_numeric_serial : DataFrame :=
  mkDF required_columns [[VStr "JIDU6601"; VInt 12345; VStr "R2.0.19"]].

(** A column that mixes a string and a number. *)
Definition table_mixed_version : DataFrame :=
  mkDF required_columns
    [[VStr "JIDU6601"; VStr "SN1"; VStr "5"];
     [VStr "JIDU6601"; VStr "SN2"; VInt 5]].

(** A table without two of the required columns. *)
Definition table_no_serial : DataFrame :=
  mkDF (strs ["Version"; "Comment"]) [[VStr "R2.0.19"; VStr "x"]].

(** A table whose second record has no serial number, as [read_csv] makes
    it from an empty field. *)
Definition table_missing_serial : DataFrame :=
  mkDF required_columns
    [example_row "SN1"; [VStr "JIDU6601"; VNaN; VStr "R2.0.19"]].

(** ** The page: what it computes from the result *)

(** [sum(xs)] *)
Definition py_sum (xs : list Z) : Z := fold_left Z.add xs 0.

(** [total_files]: [sum(len(files) for files in xml_files_dict.values())] *)
Definition total_files (xml_files_dict : list (str * list (str * str))) : Z :=
  py_sum (map (fun item => Z.of_nat (length (snd item))) xml_files_dict).

(** A list comprehension whose element may raise: the first error ends
    it. *)
Fixpoint comprehension {A B} (f : A -> result B) (l : list A) : result (list B) :=
  match l with
  | [] => Ok []
  | x :: r =>
      y <- f x ;;
      ys <- comprehension f r ;;
      Ok (y :: ys)
  end.

(** [total_chunks]: the chunk lists of all the models computed once more
    and their lengths added up. *)
Definition total_chunks (df : DataFrame) : result Z :=
  all <- comprehension
           (fun model => create_chunks df model ALLOWED_VERSIONS CHUNK_SIZE)
           DEVICE_MODELS ;;
  Ok (py_sum (map (fun chunks : list DataFrame => Z.of_nat (length chunks)) all)).

(** The occurrences of [sub] in [s] that do not overlap, read from the
    left; [skip] is the number of characters of the last occurrence still
    to pass. *)
Fixpoint count_from (sub : str) (skip : nat) (s : str) : nat :=
  match s with
  | [] => 0%nat
  | _ :: r =>
      match skip with
      | S k => count_from sub k r
      | O => if startswith sub s then S (count_from sub (length sub - 1) r)
             else count_from sub 0 r
      end
  end.

(** [s.count(sub)] *)
Definition count (s sub : str) : Z :=
  match sub with
  | [] => Z.of_nat (length s) + 1
  | _ => Z.of_nat (count_from sub 0 s)
  end.

(** [serial_count]: [xml_content.count('<serial')] *)
Definition serial_count (xml_content : str) : Z := count xml_content "<serial".

(** [total_serial_numbers] *)
Definition total_serial_numbers (xml_files_dict : list (str * list (str * str)))
  : Z :=
  py_sum (map (fun item => py_sum (map (fun file => serial_count (snd file))
                                       (snd item)))
              xml_files_dict).

(** [a < b] on strings: by code points, a proper prefix being the
    smaller. *)
Fixpoint str_ltb (a b : str) : bool :=
  match a, b with
  | _, [] => false
  | [], _ :: _ => true
  | x :: a', y :: b' =>
      (nat_of_ascii x <? nat_of_ascii y)%nat || Ascii.eqb x y && str_ltb a' b'
  end.

(** [sorted(d.items())]: the items by ascending key, an item put before
    the first one that is not smaller.  The keys of a dict are pairwise
    distinct, so two items are never compared by their values. *)
Fixpoint insert_item {V} (item : str * V) (l : list (str * V)) : list (str * V) :=
  match l with
  | [] => [item]
  | y :: r => if str_ltb (fst y) (fst item) then y :: insert_item item r
              else item :: l
  end.

Definition sorted_items {V} (d : list (str * V)) : list (str * V) :=
  fold_right insert_item [] d.

(** [f"download_{device_model}_{filename}"] *)
Definition download_key (device_model filename : str) : str :=
  "download_" ++ device_model ++ "_" ++ filename.

(** The keys of the download buttons, in the order the page makes them. *)
Definition download_keys (xml_files_dict : list (str * list (str * str)))
  : list str :=
  flat_map (fun item => map (fun file => download_key (fst item) (fst file))
                            (snd item))
           (sorted_items xml_files_dict).

(** ** More vocabulary *)


(** The errors the column look-ups of the filter end in: the [.str]
    accessor refused, or a required column that the table does not have. *)
Definition column_error (df : DataFrame) (e : exn) : Prop :=
  e = AttributeError \/
  exists col, e = KeyError col /\ In col required_columns /\
              has_column df col = false.


(** A table with a serial number that is missing and one that is a
    number, in a column that also holds strings. *)
Definition table_mixed_serial : DataFrame :=
  mkDF required_columns
    [example_row "SN1"; [VStr "JIDU6601"; VNaN; VStr "R2.0.19"];
     [VStr "JIDU6601"; VInt 7; VStr "R2.0.19"];
     [VStr "JIDU6601"; VStr "  "; VStr "R2.0.19"]].

(** A chunk that has no [Serial Number] column. *)
Definition chunk_no_serial : DataFrame :=
  mkDF (strs ["Device Model"; "Version"]) [[VStr "JIDU6601"; VStr "R2.0.19"]].


(** A record that renders and a record of another model whose serial
    number holds a character XML does not admit. *)
Definition table_one_bad : DataFrame :=
  mkDF required_columns
    [example_row "SN1";
     [VStr "JIDU6911"; VStr ("A" ++ ["001"%char] ++ "B"); VStr "R2.0.19"]].

(** * Properties *)

(** ** Strings and lists *)

Lemma str_eqb_eq (a b : str) : str_eqb a b = true <-> a = b.
Proof.
  revert b; induction a as [|x a IH]; intros [|y b]; simpl;
    try (split; [discriminate | congruence]); [tauto|].
  rewrite andb_true_iff, Ascii.eqb_eq, IH.
  split; [intros [-> ->]; reflexivity | intros H; injection H; auto].
Qed.

Lemma str_eqb_refl (a : str) : str_eqb a a = true.
Proof. apply str_eqb_eq; reflexivity. Qed.

Lemma str_eqb_neq (a b : str) : str_eqb a b = false <-> a <> b.
Proof.
  rewrite <- not_true_iff_false, str_eqb_eq; tauto.
Qed.

Lemma existsb_str_eqb (x : str) (l : list str) :
  existsb (str_eqb x) l = true <-> In x l.
Proof.
  rewrite existsb_exists; split.
  - intros (y & Hy & E); apply str_eqb_eq in E; subst; assumption.
  - intros H; exists x; split; [assumption | apply str_eqb_refl].
Qed.

Lemma index_of_Some (col : str) (cols : list str) :
  (exists i, index_of col cols = Some i) <-> In col cols.
Proof.
  induction cols as [|c r IH]; simpl.
  - split; [intros [i H]; discriminate | tauto].
  - destruct (str_eqb col c) eqn:E.
    + apply str_eqb_eq in E; subst; split; eauto.
    + apply str_eqb_neq in E; rewrite <- IH; split.
      * intros [i H]; destruct (index_of col r); [eauto | discriminate].
      * intros [H | [i H]]; [congruence | rewrite H; simpl; eauto].
Qed.

Lemma has_column_In (df : DataFrame) (col : str) :
  has_column df col = true <-> In col (columns df).
Proof.
  unfold has_column; rewrite <- index_of_Some.
  destruct (index_of col (columns df)); split; eauto; try discriminate.
  intros [i H]; discriminate.
Qed.

Lemma select_map {A} (f : A -> bool) (l : list A) :
  select (map f l) l = filter f l.
Proof.
  induction l as [|x l IH]; simpl; [reflexivity|].
  rewrite IH; reflexivity.
Qed.

Lemma combine_map_same {A B C} (f : A -> B) (g : A -> C) (l : list A) :
  combine (map f l) (map g l) = map (fun x => (f x, g x)) l.
Proof. induction l; simpl; congruence. Qed.

Lemma series_and_map {A} (f g : A -> bool) (l : list A) :
  series_and (map f l) (map g l) = map (fun x => f x && g x) l.
Proof.
  unfold series_and; rewrite combine_map_same, map_map; reflexivity.
Qed.

(** ** validate_data *)

Lemma missing_columns_spec (df : DataFrame) (col : str) :
  In col (missing_columns df) <->
  In col required_columns /\ ~ In col (columns df).
Proof.
  unfold missing_columns; rewrite filter_In, negb_true_iff.
  rewrite <- has_column_In, not_true_iff_false; tauto.
Qed.

(** C6.  [validate_data] answers [False] exactly when one of the three
    required columns is not among the table's columns; its message is then
    the fixed prefix followed by the missing names, which are exactly the
    required columns the table lacks, separated by ", "; otherwise it
    answers [True]. *)
Theorem C6_validate_data_missing_columns (df : DataFrame) :
  (fst (validate_data df) = false <->
   exists col, In col required_columns /\ ~ In col (columns df)) /\
  (fst (validate_data df) = false ->
   exists missing,
     snd (validate_data df) = "Missing required columns: " ++ join ", " missing /\
     NoDup missing /\
     forall col, In col missing <->
                 In col required_columns /\ ~ In col (columns df)) /\
  (fst (validate_data df) = true <->
   forall col, In col required_columns -> In col (columns df)).
Proof.
  assert (Hnd : NoDup (missing_columns df)).
  { apply NoDup_filter.
    repeat constructor; simpl; intuition discriminate. }
  pose proof (missing_columns_spec df) as Hm.
  unfold validate_data.
  destruct (missing_columns df) as [|m ms] eqn:E; simpl.
  - split; [|split].
    + split; [discriminate|].
      intros (col & H); apply Hm in H; destruct H.
    + discriminate.
    + split; [|reflexivity].
      intros _ col Hc.
      destruct (has_column df col) eqn:Hh; [apply has_column_In, Hh|].
      exfalso; apply (proj2 (Hm col)); split; [assumption|].
      rewrite <- has_column_In, Hh; discriminate.
  - split; [|split].
    + split; [|reflexivity].
      intros _; exists m; apply Hm; left; reflexivity.
    + intros _; exists (m :: ms); auto.
    + split; [discriminate|].
      intros H; exfalso.
      destruct (proj1 (Hm m) (or_introl eq_refl)) as [Hr Hn]; auto.
Qed.

Lemma C6_validate_data_missing_columns_witness :
  fst (validate_data table_no_serial) = false /\
  exists missing,
    snd (validate_data table_no_serial)
    = "Missing required columns: " ++ join ", " missing /\
    forall col, In col missing <->
                In col required_columns /\ ~ In col (columns table_no_serial).
Proof.
  split; [reflexivity|].
  destruct (C6_validate_data_missing_columns table_no_serial) as (_ & H & _).
  destruct (H eq_refl) as (missing & Hmsg & _ & Hin).
  exists missing; split; [exact Hmsg | exact Hin].
Defined.

(** ** The filter of create_chunks *)

Lemma getitem_cells (df : DataFrame) (col : str) (s : list value) :
  getitem df col = Ok s -> s = map (cell df col) (rows df).
Proof.
  unfold getitem, cell.
  destruct (index_of col (columns df)); [|discriminate].
  intros H; injection H as <-; reflexivity.
Qed.

Lemma getitem_columns (df : DataFrame) (col : str) (s : list value) :
  getitem df col = Ok s -> columns df <> [].
Proof.
  unfold getitem; destruct (columns df); [discriminate | discriminate].
Qed.

Lemma str_strip_cells (s t : list value) :
  str_strip s = Ok t -> t = map stripped s.
Proof.
  unfold str_strip, str_accessor.
  destruct (existsb is_str s || forallb is_nan s); simpl; [|discriminate].
  intros H; injection H as <-; reflexivity.
Qed.

Ltac bind_ok H x Hx :=
  match type of H with
  | bind ?m _ = Ok _ =>
      destruct m as [x|] eqn:Hx; [cbn [bind] in H | discriminate H]
  end.

(** The mask, when it is computed, is the row-wise filter. *)
Lemma filter_mask_rows (df : DataFrame) (M : str) (allowed : list str)
    (mask : list bool) :
  filter_mask df M allowed = Ok mask ->
  mask = map (row_passes df M allowed) (rows df) /\ columns df <> [].
Proof.
  unfold filter_mask; intros H.
  bind_ok H c1 H1. bind_ok H s1 G1.
  bind_ok H c2 H2. bind_ok H s2 G2.
  bind_ok H c3 H3. bind_ok H s3 G3.
  split; [|eapply getitem_columns; eassumption].
  apply getitem_cells in H1, H2, H3.
  apply str_strip_cells in G1, G2, G3; subst.
  injection H as <-.
  unfold series_ne, series_eq, isin.
  rewrite !map_map, !series_and_map.
  apply map_ext; intros r; reflexivity.
Qed.

Lemma filter_rows_spec (df f : DataFrame) (M : str) (allowed : list str) :
  filter_rows df M allowed = Ok f ->
  rows f = filter (row_passes df M allowed) (rows df) /\
  columns f = columns df /\ columns df <> [].
Proof.
  unfold filter_rows; intros H.
  bind_ok H mask Hm.
  apply filter_mask_rows in Hm; destruct Hm as [-> Hc].
  injection H as <-; simpl.
  rewrite select_map; auto.
Qed.

Lemma string_table_columns (df : DataFrame) :
  string_table df = true ->
  forall col, In col required_columns -> exists i, index_of col (columns df) = Some i.
Proof.
  unfold string_table; rewrite andb_true_iff, forallb_forall.
  intros [H _] col Hc; apply index_of_Some, has_column_In, H, Hc.
Qed.

Lemma string_table_cells (df : DataFrame) :
  string_table df = true ->
  forall r col, In r (rows df) -> In col required_columns ->
                exists s, cell df col r = VStr s.
Proof.
  unfold string_table; rewrite andb_true_iff.
  intros [_ H] r col Hr Hc.
  rewrite forallb_forall in H.
  specialize (H r Hr); rewrite forallb_forall in H; specialize (H col Hc).
  destruct (cell df col r); try discriminate; eauto.
Qed.

Lemma string_table_str_strip (df : DataFrame) (col : str) :
  string_table df = true -> In col required_columns ->
  exists s, getitem df col = Ok s /\ str_strip s = Ok (map stripped s).
Proof.
  intros Ht Hc.
  destruct (string_table_columns df Ht col Hc) as [i Hi].
  assert (Hg : getitem df col = Ok (map (cell df col) (rows df))).
  { unfold getitem, cell; rewrite Hi; reflexivity. }
  exists (map (cell df col) (rows df)); split; [assumption|].
  unfold str_strip, str_accessor.
  destruct (rows df) as [|r rs] eqn:Er; [reflexivity|].
  destruct (string_table_cells df Ht r col) as [s Hs];
    [rewrite Er; left; reflexivity | assumption |].
  simpl; rewrite Hs; reflexivity.
Qed.

(** On a table of records the filter raises nothing. *)
Lemma string_table_filter_rows (df : DataFrame) (M : str) (allowed : list str) :
  string_table df = true -> exists f, filter_rows df M allowed = Ok f.
Proof.
  intros Ht.
  destruct (string_table_str_strip df "Device Model" Ht) as (s1 & G1 & S1);
    [simpl; tauto|].
  destruct (string_table_str_strip df "Serial Number" Ht) as (s2 & G2 & S2);
    [simpl; tauto|].
  destruct (string_table_str_strip df "Version" Ht) as (s3 & G3 & S3);
    [simpl; tauto|].
  unfold filter_rows, filter_mask.
  rewrite G1; cbn [bind]; rewrite S1; cbn [bind].
  rewrite G2; cbn [bind]; rewrite S2; cbn [bind].
  rewrite G3; cbn [bind]; rewrite S3; cbn [bind].
  eauto.
Qed.

(** ** Slices and chunks *)

Lemma firstn_plus {A} (a b : nat) (l : list A) :
  firstn (a + b) l = firstn a l ++ firstn b (skipn a l).
Proof.
  revert l; induction a as [|a IH]; intros l; [reflexivity|].
  destruct l as [|x l]; simpl; [rewrite firstn_nil; reflexivity|].
  rewrite IH; reflexivity.
Qed.

(** Consecutive windows of width [s] starting at window [j] paste back
    into the part of the list they cover. *)
Lemma windows_concat {A} (s : nat) (l : list A) (k j : nat) :
  concat (map (fun i => firstn s (skipn (i * s) l)) (seq j k)) =
  firstn (k * s) (skipn (j * s) l).
Proof.
  revert j; induction k as [|k IH]; intros j; simpl; [reflexivity|].
  rewrite IH, firstn_plus, skipn_skipn.
  replace (s + j * s)%nat with (S j * s)%nat by (simpl; lia).
  reflexivity.
Qed.

Lemma py_slice_nonneg {A} (l : list A) (a b : Z) :
  0 <= a <= b ->
  py_slice l a b = firstn (Z.to_nat (b - a)) (skipn (Z.to_nat a) l).
Proof.
  intros [Ha Hb]; unfold py_slice, slice_bound.
  destruct (Z.ltb_spec a 0); [lia|]; destruct (Z.ltb_spec b 0); [lia|].
  set (n := length l).
  destruct (Z.le_gt_cases a (Z.of_nat n)) as [Han | Han].
  - rewrite (Z.min_l a) by assumption.
    destruct (Z.le_gt_cases b (Z.of_nat n)) as [Hbn | Hbn].
    + rewrite (Z.min_l b) by assumption; reflexivity.
    + rewrite (Z.min_r b) by lia.
      rewrite !firstn_all2; [reflexivity | |]; rewrite length_skipn; fold n; lia.
  - rewrite (Z.min_r a), (Z.min_r b) by lia.
    rewrite !skipn_all2 by (fold n; lia).
    rewrite !firstn_nil; reflexivity.
Qed.

Lemma ceil_div_bounds (n s : nat) :
  (0 < s)%nat ->
  (n <= ceil_div n s * s /\ (0 < n -> (ceil_div n s - 1) * s < n))%nat.
Proof.
  intros Hs; unfold ceil_div.
  pose proof (Nat.div_mod_eq n s) as E.
  pose proof (Nat.mod_upper_bound n s ltac:(lia)) as B.
  destruct (Nat.eqb_spec (n mod s) 0) as [Z0 | NZ].
  - rewrite Z0 in E; split; [nia|].
    intros Hn; destruct (n / s)%nat eqn:Q; [lia|simpl; nia].
  - split; simpl; nia.
Qed.

Lemma ceil_div_zero (s : nat) : (0 < s)%nat -> ceil_div 0 s = 0%nat.
Proof.
  intros Hs; unfold ceil_div.
  rewrite Nat.Div0.mod_0_l, Nat.Div0.div_0_l; reflexivity.
Qed.

(** The ceiling division of the source, [(n + s - 1) // s]. *)
Lemma num_chunks_ceil (n : nat) (cs : Z) :
  0 < cs ->
  (Z.of_nat n + cs - 1) / cs = Z.of_nat (ceil_div n (Z.to_nat cs)).
Proof.
  intros Hcs.
  set (s := Z.to_nat cs); assert (Es : cs = Z.of_nat s) by (subst s; lia).
  assert (Hs : (0 < s)%nat) by lia.
  unfold ceil_div.
  pose proof (Nat.div_mod_eq n s) as E.
  pose proof (Nat.mod_upper_bound n s ltac:(lia)) as B.
  set (q := (n / s)%nat) in *; set (r := (n mod s)%nat) in *.
  destruct (Nat.eqb_spec r 0) as [Z0 | NZ].
  - symmetry; apply Z.div_unique with (r := cs - 1); [lia | nia].
  - symmetry; apply Z.div_unique with (r := Z.of_nat r - 1); [lia | nia].
Qed.

(** Chunk [i] of the source loop is the window of width [chunk_size] at
    offset [i * chunk_size]. *)
Lemma chunk_window {A} (l : list A) (cs : Z) (i : nat) :
  0 < cs -> (i * Z.to_nat cs <= length l)%nat ->
  py_slice l (Z.of_nat i * cs) (Z.min ((Z.of_nat i + 1) * cs) (Z.of_nat (length l))) =
  firstn (Z.to_nat cs) (skipn (i * Z.to_nat cs) l).
Proof.
  intros Hcs Hi.
  rewrite py_slice_nonneg by nia.
  replace (Z.to_nat (Z.of_nat i * cs)) with (i * Z.to_nat cs)%nat by nia.
  set (t := skipn (i * Z.to_nat cs) l).
  assert (Ht : length t = (length l - i * Z.to_nat cs)%nat)
    by apply length_skipn.
  destruct (Z.le_gt_cases ((Z.of_nat i + 1) * cs) (Z.of_nat (length l))).
  - rewrite Z.min_l by assumption; f_equal; nia.
  - rewrite Z.min_r by lia.
    rewrite !firstn_all2; [reflexivity | nia | nia].
Qed.

(** [create_chunks] with a positive chunk size, once the filter has run:
    the windows of the filtered rows, [ceil_div] of them. *)
Lemma create_chunks_windows (df f : DataFrame) (M : str) (allowed : list str)
    (cs : Z) :
  0 < cs -> filter_rows df M allowed = Ok f ->
  create_chunks df M allowed cs =
  Ok (map (fun i => mkDF (columns f)
                         (firstn (Z.to_nat cs) (skipn (i * Z.to_nat cs) (rows f))))
          (seq 0 (ceil_div (length (rows f)) (Z.to_nat cs)))).
Proof.
  intros Hcs Hf; unfold create_chunks; rewrite Hf; cbn [bind].
  destruct (filter_rows_spec _ _ _ _ Hf) as (_ & Hc & Hne).
  unfold empty; rewrite Hc.
  destruct (columns df) as [|c0 cols]; [congruence|].
  destruct (rows f) as [|r0 rs] eqn:Er.
  - rewrite ceil_div_zero by lia; reflexivity.
  - rewrite <- Er; unfold floordiv.
    destruct (Z.eqb_spec cs 0); [lia|]; cbn [bind].
    unfold len, range; rewrite num_chunks_ceil, Nat2Z.id by assumption.
    rewrite map_map; f_equal.
    apply map_ext_in; intros i Hi; apply in_seq in Hi.
    unfold iloc; rewrite Hc; f_equal.
    apply chunk_window; [assumption|].
    pose proof (ceil_div_bounds (length (rows f)) (Z.to_nat cs) ltac:(lia)) as [_ B].
    assert (0 < length (rows f))%nat by (rewrite Er; simpl; lia).
    specialize (B H).
    assert (i * Z.to_nat cs <= (ceil_div (length (rows f)) (Z.to_nat cs) - 1) * Z.to_nat cs)%nat
      by (apply Nat.mul_le_mono_r; lia).
    lia.
Qed.

Lemma create_chunks_concat (df f : DataFrame) (M : str) (allowed : list str)
    (cs : Z) (chunks : list DataFrame) :
  0 < cs -> filter_rows df M allowed = Ok f ->
  create_chunks df M allowed cs = Ok chunks ->
  concat (map rows chunks) = rows f.
Proof.
  intros Hcs Hf Hc.
  rewrite (create_chunks_windows _ _ _ _ _ Hcs Hf) in Hc; injection Hc as <-.
  rewrite map_map; simpl.
  rewrite (windows_concat (Z.to_nat cs) (rows f)); simpl.
  apply firstn_all2.
  apply (ceil_div_bounds (length (rows f)) (Z.to_nat cs)); lia.
Qed.

(** ** create_chunks *)


Lemma create_chunks_filtered (df : DataFrame) (M : str) (allowed : list str)
    (cs : Z) (chunks : list DataFrame) :
  create_chunks df M allowed cs = Ok chunks ->
  exists f, filter_rows df M allowed = Ok f.
Proof.
  unfold create_chunks.
  destruct (filter_rows df M allowed) as [f|]; [eauto | discriminate].
Qed.


(** C2.  When the filter keeps [n > 0] rows and the chunk size [s] is
    positive, [create_chunks] returns [ceil (n / s)] chunks; every chunk but
    the last has [s] rows; the last has [n mod s] rows, or [s] when that
    remainder is 0; the chunks pasted together in order are the filtered
    rows, which are the rows of the table the filter keeps, in table order;
    the row counts add up to [n]. *)
Theorem C2_chunk_count_and_sizes (df f : DataFrame) (M : str)
    (allowed : list str) (cs : Z) :
  0 < cs -> filter_rows df M allowed = Ok f -> rows f <> [] ->
  let n := length (rows f) in
  let s := Z.to_nat cs in
  exists chunks,
    create_chunks df M allowed cs = Ok chunks /\
    length chunks = ceil_div n s /\
    (forall i c, nth_error chunks i = Some c -> (S i < length chunks)%nat ->
                 length (rows c) = s) /\
    (exists c, nth_error chunks (length chunks - 1) = Some c /\
               length (rows c) = if (n mod s =? 0)%nat then s else (n mod s)%nat) /\
    concat (map rows chunks) = rows f /\
    rows f = filter (row_passes df M allowed) (rows df) /\
    list_sum (map (fun c => length (rows c)) chunks) = n.
Proof.
  intros Hcs Hf Hne n s.
  pose proof (create_chunks_windows _ _ _ _ _ Hcs Hf) as Hc.
  fold s n in Hc.
  assert (Hs : (0 < s)%nat) by (subst s; lia).
  assert (Hn : (0 < n)%nat)
    by (subst n; destruct (rows f); [congruence | simpl; lia]).
  destruct (ceil_div_bounds n s Hs) as [Bu Bl]; specialize (Bl Hn).
  set (k := ceil_div n s) in *.
  assert (Hk : (0 < k)%nat) by (destruct k; [simpl in Bu; lia | lia]).
  set (chunks := map _ (seq 0 k)) in *.
  pose proof (create_chunks_concat _ _ _ _ _ chunks Hcs Hf Hc) as Hcat.
  assert (Hlen : length chunks = k)
    by (subst chunks; rewrite length_map, length_seq; reflexivity).
  assert (Hnth : forall i c, nth_error chunks i = Some c ->
             (i < k)%nat /\ rows c = firstn s (skipn (i * s) (rows f))).
  { intros i c; subst chunks; rewrite nth_error_map, nth_error_seq.
    destruct (Nat.ltb_spec i k); simpl; [|discriminate].
    intros E; injection E as <-; auto. }
  exists chunks; split; [exact Hc|]; split; [exact Hlen|].
  split; [|split; [|split; [exact Hcat|split]]].
  - intros i c Hi Hlt; rewrite Hlen in Hlt.
    destruct (Hnth i c Hi) as [_ ->].
    rewrite length_firstn, length_skipn; fold n.
    assert (S i * s <= (k - 1) * s)%nat by (apply Nat.mul_le_mono_r; lia).
    simpl in H; lia.
  - rewrite Hlen.
    destruct (nth_error chunks (k - 1)) as [c|] eqn:E.
    + exists c; split; [reflexivity|].
      destruct (Hnth _ c E) as [_ ->].
      rewrite length_firstn, length_skipn; fold n.
      pose proof (Nat.div_mod_eq n s) as Ed.
      pose proof (Nat.mod_upper_bound n s ltac:(lia)) as B.
      subst k; unfold ceil_div in *.
      destruct (Nat.eqb_spec (n mod s) 0) as [Z0 | NZ].
      * rewrite Z0 in Ed.
        replace ((n / s - 1) * s)%nat with (n - s)%nat by nia. nia.
      * replace ((S (n / s) - 1) * s)%nat with (s * (n / s))%nat by nia. lia.
    + apply nth_error_None in E; lia.
  - apply (filter_rows_spec _ _ _ _ Hf).
  - rewrite <- (map_map rows (@length Row)), <- length_concat, Hcat.
    reflexivity.
Qed.

Lemma C2_chunk_count_and_sizes_witness :
  0 < 2 /\
  filter_rows table_three "JIDU6601" ALLOWED_VERSIONS = Ok table_three /\
  rows table_three <> [] /\
  exists chunks,
    create_chunks table_three "JIDU6601" ALLOWED_VERSIONS 2 = Ok chunks /\
    length chunks = 2%nat /\
    concat (map rows chunks) = rows table_three.
Proof.
  split; [reflexivity|]; split; [reflexivity|]; split; [discriminate|].
  destruct (C2_chunk_count_and_sizes table_three table_three "JIDU6601"
              ALLOWED_VERSIONS 2)
    as (chunks & Hc & Hl & _ & _ & Hcat & _);
    [reflexivity | reflexivity | discriminate |].
  exists chunks; split; [exact Hc|]; split; [exact Hl | exact Hcat].
Defined.


(** ** create_chunks on the object store *)

Lemma deref_app_old (h e : store) (p : ref) :
  (p < length h)%nat -> deref (h ++ e) p = deref h p.
Proof. intros H; unfold deref; apply app_nth1; assumption. Qed.

Lemma deref_app_new (h e : store) (k : nat) :
  deref (h ++ e) (length h + k)%nat = deref e k.
Proof.
  unfold deref; rewrite app_nth2 by lia.
  f_equal; lia.
Qed.

(** The loop of [create_chunks_st]: each turn adds two objects, the window
    and its copy, and returns the copy. *)
Lemma forM_windows (g : Z -> DataFrame -> DataFrame) (xs : list Z)
    (h : store) (fref : ref) :
  (fref < length h)%nat ->
  exists refs ext,
    forM xs (fun i => fd <~ get fref ;; window <~ new (g i fd) ;;
                      chunk_df <~ copy window ;; ret chunk_df) h
    = (Ok refs, h ++ ext) /\
    map (deref (h ++ ext)) refs = map (fun i => g i (deref h fref)) xs /\
    Forall (fun r => length h <= r)%nat refs.
Proof.
  revert h; induction xs as [|x xs IH]; intros h Hf.
  - exists [], []; simpl; unfold ret; rewrite app_nil_r; auto.
  - set (c := g x (deref h fref)).
    destruct (IH (h ++ [c; c])) as (refs & ext & Hrun & Hmap & Hfresh).
    { rewrite length_app; simpl; lia. }
    exists ((length h + 1)%nat :: refs), ([c; c] ++ ext).
    rewrite app_assoc.
    split; [|split].
    + cbn [forM]; unfold bindS at 1.
      assert (Hbody :
        (fd <~ get fref ;; window <~ new (g x fd) ;;
         chunk_df <~ copy window ;; ret chunk_df) h
        = (Ok (length h + 1)%nat, h ++ [c; c])).
      { unfold bindS, get, new, copy, ret; simpl.
        replace (deref (h ++ [g x (deref h fref)]) (length h))
          with (g x (deref h fref)).
        - rewrite length_app, <- app_assoc; reflexivity.
        - rewrite <- (Nat.add_0_r (length h)) at 1.
          rewrite deref_app_new; reflexivity. }
      rewrite Hbody; unfold bindS at 1; rewrite Hrun; reflexivity.
    + simpl; f_equal.
      * rewrite <- app_assoc, deref_app_new; reflexivity.
      * rewrite Hmap; apply map_ext; intros i.
        rewrite deref_app_old by assumption; reflexivity.
    + constructor; [lia|].
      eapply Forall_impl; [|exact Hfresh].
      intros r; rewrite length_app; simpl; lia.
Qed.

Lemma bindS_get {B} (p : ref) (k : DataFrame -> St B) (h : store) :
  (x <~ get p ;; k x) h = k (deref h p) h.
Proof. reflexivity. Qed.

Lemma bindS_new {B} (d : DataFrame) (k : ref -> St B) (h : store) :
  (x <~ new d ;; k x) h = k (length h) (h ++ [d]).
Proof. reflexivity. Qed.

Lemma bindS_copy {B} (p : ref) (k : ref -> St B) (h : store) :
  (x <~ copy p ;; k x) h = k (length h) (h ++ [deref h p]).
Proof. reflexivity. Qed.

Lemma bindS_lift_Ok {A B} (a : A) (k : A -> St B) (h : store) :
  (x <~ lift (Ok a) ;; k x) h = k a h.
Proof. reflexivity. Qed.

Lemma bindS_lift_Raise {A B} (e : exn) (k : A -> St B) (h : store) :
  (x <~ lift (Raise e) ;; k x) h = (Raise e, h).
Proof. reflexivity. Qed.

Lemma deref_last (h : store) (d : DataFrame) : deref (h ++ [d]) (length h) = d.
Proof.
  rewrite <- (Nat.add_0_r (length h)), deref_app_new; reflexivity.
Qed.

(** One run of [create_chunks_st] from a store that holds the table: the
    store only grows, the references returned are new, and what they hold
    is what [create_chunks] computes from the table. *)
Lemma create_chunks_st_run (h : store) (p : ref) (M : str)
    (allowed : list str) (cs : Z) :
  (p < length h)%nat ->
  exists res ext,
    create_chunks_st p M allowed cs h = (res, h ++ ext) /\
    contents (res, h ++ ext) = create_chunks (deref h p) M allowed cs /\
    forall refs, res = Ok refs -> Forall (fun r => length h <= r)%nat refs.
Proof.
  intros Hp.
  unfold create_chunks_st, create_chunks, filter_rows, contents.
  rewrite bindS_get.
  destruct (filter_mask (deref h p) M allowed) as [mask|e]; cbn [bind].
  2:{ rewrite bindS_lift_Raise.
      exists (Raise e), []; rewrite app_nil_r; simpl.
      split; [reflexivity|]; split; [reflexivity | discriminate]. }
  rewrite bindS_lift_Ok.
  set (f := boolean_index (deref h p) mask).
  rewrite bindS_new, bindS_copy, deref_last, bindS_get, deref_last.
  set (h2 := (h ++ [f]) ++ [f]).
  assert (L2 : length h2 = (length h + 2)%nat)
    by (subst h2; rewrite !length_app; simpl; lia).
  assert (A2 : forall ext, h ++ [f; f] ++ ext = h2 ++ ext)
    by (intros ext; subst h2; rewrite <- !app_assoc; reflexivity).
  assert (A2' : h ++ [f; f] = h2)
    by (subst h2; rewrite <- !app_assoc; reflexivity).
  assert (E2 : deref h2 (length (h ++ [f])) = f) by apply deref_last.
  destruct (empty f) eqn:Ee.
  { exists (Ok []), [f; f]; rewrite A2'; unfold ret; simpl.
    split; [reflexivity|]; split; [reflexivity|].
    intros refs H; injection H as <-; constructor. }
  unfold bindS at 1; rewrite bindS_get, E2; unfold ret at 1; cbn iota.
  unfold floordiv.
  destruct (cs =? 0); cbn [bind].
  { rewrite bindS_lift_Raise.
    exists (Raise ZeroDivisionError), [f; f]; rewrite A2'; simpl.
    split; [reflexivity|]; split; [reflexivity | discriminate]. }
  rewrite bindS_lift_Ok.
  destruct (forM_windows
              (fun i fd => iloc fd (i * cs) (Z.min ((i + 1) * cs) (len fd)))
              (range ((len f + cs - 1) / cs)) h2 (length (h ++ [f])))
    as (refs & ext & Hrun & Hmap & Hfresh).
  { rewrite L2, length_app; simpl; lia. }
  cbv beta in Hrun.
  exists (Ok refs), ([f; f] ++ ext); rewrite A2.
  split; [exact Hrun|]; simpl; rewrite Hmap, E2.
  split; [reflexivity|].
  intros refs' H; injection H as <-.
  eapply Forall_impl; [|exact Hfresh].
  intros r; cbv beta; rewrite L2; lia.
Qed.

Lemma create_chunks_no_rows (df f : DataFrame) (M : str) (allowed : list str)
    (cs : Z) :
  filter_rows df M allowed = Ok f -> rows f = [] ->
  create_chunks df M allowed cs = Ok [].
Proof.
  intros Hf Hr; unfold create_chunks; rewrite Hf; cbn [bind].
  unfold empty; rewrite Hr.
  destruct (columns f); reflexivity.
Qed.

(** C9.  [create_chunks], run on a reference to the table, leaves every
    object of the store as it was, the table among them: the store only
    gains new objects, the chunks returned are among the new ones, and they
    hold what the function computes from the table.  When the filter keeps
    no row the call returns the empty list, whatever the chunk size. *)
Theorem C9_create_chunks_leaves_table (h : store) (p : ref) (M : str)
    (allowed : list str) (cs : Z) :
  (p < length h)%nat ->
  let run := create_chunks_st p M allowed cs h in
  (forall q, (q < length h)%nat -> deref (snd run) q = deref h q) /\
  deref (snd run) p = deref h p /\
  (forall refs, fst run = Ok refs -> Forall (fun r => length h <= r)%nat refs) /\
  contents run = create_chunks (deref h p) M allowed cs /\
  (forall f, filter_rows (deref h p) M allowed = Ok f -> rows f = [] ->
             fst run = Ok [] /\ create_chunks (deref h p) M allowed cs = Ok []).
Proof.
  intros Hp run.
  destruct (create_chunks_st_run h p M allowed cs Hp)
    as (res & ext & Hrun & Hcont & Hfresh).
  subst run; rewrite Hrun; simpl.
  split; [intros q Hq; apply deref_app_old, Hq|].
  split; [apply deref_app_old, Hp|].
  split; [exact Hfresh|].
  split; [exact Hcont|].
  intros f Hf Hr.
  pose proof (create_chunks_no_rows _ _ M allowed cs Hf Hr) as Hnil.
  split; [|exact Hnil].
  rewrite Hnil in Hcont; unfold contents in Hcont; simpl in Hcont.
  destruct res as [refs|e]; [|discriminate].
  injection Hcont as Hm; destruct refs; [reflexivity | discriminate].
Qed.

Lemma C9_create_chunks_leaves_table_witness :
  (0 < length [table_scenario])%nat /\
  deref (snd (create_chunks_st 0%nat "JIDU6601" ALLOWED_VERSIONS CHUNK_SIZE
                [table_scenario])) 0%nat
  = deref [table_scenario] 0%nat.
Proof.
  split; [simpl; lia|].
  apply (C9_create_chunks_leaves_table [table_scenario] 0%nat "JIDU6601"
           ALLOWED_VERSIONS CHUNK_SIZE); simpl; lia.
Defined.

(** ** Stripping, splitting and joining *)

Lemma lstrip_snoc (l : str) (x : ascii) :
  isspace x = false -> lstrip (l ++ [x]) = lstrip l ++ [x].
Proof.
  intros Hx; induction l as [|c l IH]; simpl; [rewrite Hx; reflexivity|].
  destruct (isspace c); [exact IH | reflexivity].
Qed.

Lemma rstrip_cons (x : ascii) (s : str) :
  isspace x = false -> rstrip (x :: s) = x :: rstrip s.
Proof.
  intros Hx; unfold rstrip; simpl.
  rewrite lstrip_snoc by assumption.
  rewrite rev_app_distr; reflexivity.
Qed.

Lemma split_on_cons_other (sep c : ascii) (s : str) :
  Ascii.eqb c sep = false ->
  split_on sep (c :: s) =
  (c :: hd [] (split_on sep s)) :: tl (split_on sep s).
Proof.
  intros H; simpl; rewrite H.
  destruct (split_on sep s); reflexivity.
Qed.

Lemma split_on_line (a b : str) :
  no_LF a -> split_on LF (a ++ LF :: b) = a :: split_on LF b.
Proof.
  unfold no_LF; induction a as [|c a IH]; intros Ha; simpl.
  - reflexivity.
  - destruct (Ascii.eqb_spec c LF) as [->|Hc]; [exfalso; apply Ha; left; reflexivity|].
    rewrite IH by (intros H; apply Ha; right; exact H); reflexivity.
Qed.

Lemma split_on_last (a : str) : no_LF a -> split_on LF a = [a].
Proof.
  unfold no_LF; induction a as [|c a IH]; intros Ha; simpl; [reflexivity|].
  destruct (Ascii.eqb_spec c LF) as [->|Hc]; [exfalso; apply Ha; left; reflexivity|].
  rewrite IH by (intros H; apply Ha; right; exact H); reflexivity.
Qed.

Lemma split_on_no_LF (s : str) : Forall no_LF (split_on LF s).
Proof.
  induction s as [|c s IH]; simpl.
  - constructor; [intros []|constructor].
  - destruct (Ascii.eqb_spec c LF) as [->|Hc].
    + constructor; [intros []|exact IH].
    + destruct (split_on LF s) as [|l ls]; [repeat constructor; intros [H|[]]; congruence|].
      inversion IH as [|? ? Hl Hls]; subst.
      constructor; [|exact Hls].
      intros [H|H]; [congruence | exact (Hl H)].
Qed.

(** Splitting the join of lines that hold no line feed gives the lines
    back. *)
Lemma split_on_join (lines : list str) :
  lines <> [] -> Forall no_LF lines ->
  split_on LF (join [LF] lines) = lines.
Proof.
  induction lines as [|l ls IH]; intros Hne Hall; [congruence|].
  inversion Hall as [|? ? Hl Hls]; subst.
  destruct ls as [|l' ls'].
  - simpl; apply split_on_last; assumption.
  - change (join [LF] (l :: l' :: ls')) with (l ++ LF :: join [LF] (l' :: ls')).
    rewrite split_on_line by assumption.
    rewrite IH by (assumption || discriminate); reflexivity.
Qed.

Lemma join_cons (sep l : str) (ls : list str) :
  ls <> [] -> join sep (l :: ls) = l ++ sep ++ join sep ls.
Proof. destruct ls; [congruence | reflexivity]. Qed.

(** Lines each ended by a line feed split into the lines and a last empty
    one. *)
Lemma split_on_terminated (lines : list str) :
  Forall no_LF lines ->
  split_on LF (flat_map (fun l => l ++ [LF]) lines) = lines ++ [[]].
Proof.
  induction 1 as [|l ls Hl Hls IH]; simpl; [reflexivity|].
  rewrite <- app_assoc; simpl.
  rewrite split_on_line by assumption.
  rewrite IH; reflexivity.
Qed.

(** ** Escaping *)

Ltac each_char x := destruct x as [[] [] [] [] [] [] [] []].

Lemma replace_char_app (c : ascii) (by_ a b : str) :
  replace_char c by_ (a ++ b) = replace_char c by_ a ++ replace_char c by_ b.
Proof. apply flat_map_app. Qed.

Lemma escape_cdata_cons (x : ascii) (t : str) :
  escape_cdata (x :: t) = esc_text_char x ++ escape_cdata t.
Proof.
  unfold escape_cdata.
  change (x :: t) with ([x] ++ t).
  rewrite !replace_char_app; f_equal.
  each_char x; reflexivity.
Qed.

Lemma escape_cdata_flat (t : str) : escape_cdata t = flat_map esc_text_char t.
Proof.
  induction t as [|x t IH]; [reflexivity|].
  rewrite escape_cdata_cons, IH; reflexivity.
Qed.

Lemma escape_attrib_cons (x : ascii) (t : str) :
  plain_char x = true ->
  escape_attrib (x :: t) = esc_attr_char x ++ escape_attrib t.
Proof.
  intros Hx; unfold escape_attrib.
  rewrite escape_cdata_cons, !replace_char_app; f_equal.
  revert Hx; each_char x; intros Hx; try reflexivity; discriminate Hx.
Qed.

Lemma escape_attrib_flat (t : str) :
  plain t = true -> escape_attrib t = flat_map esc_attr_char t.
Proof.
  induction t as [|x t IH]; [reflexivity|]; simpl.
  rewrite andb_true_iff; intros [Hx Ht].
  rewrite escape_attrib_cons, IH by assumption; reflexivity.
Qed.

Lemma write_data_cons (x : ascii) (t : str) :
  write_data (x :: t) = esc_attr_char x ++ write_data t.
Proof.
  unfold write_data.
  change (x :: t) with ([x] ++ t).
  rewrite !replace_char_app; f_equal.
  each_char x; reflexivity.
Qed.

Lemma write_data_flat (t : str) : write_data t = flat_map esc_attr_char t.
Proof.
  induction t as [|x t IH]; [reflexivity|].
  rewrite write_data_cons, IH; reflexivity.
Qed.

(** On a value without control characters the two writers escape
    alike. *)
Lemma write_data_attr (t : str) :
  plain t = true -> write_data t = escape_attrib t.
Proof.
  intros Ht; rewrite escape_attrib_flat by assumption; apply write_data_flat.
Qed.

Lemma unescape_text_char (x : ascii) (rest : str) :
  unescape None (esc_text_char x ++ rest) =
  option_map (cons x) (unescape None rest).
Proof. each_char x; reflexivity. Qed.

Lemma unescape_attr_char (x : ascii) (rest : str) :
  plain_char x = true ->
  unescape None (map attr_space (esc_attr_char x) ++ rest) =
  option_map (cons x) (unescape None rest).
Proof. each_char x; intros Hx; try reflexivity; discriminate Hx. Qed.



Lemma unescape_escape_cdata (t : str) :
  unescape None (escape_cdata t) = Some t.
Proof.
  rewrite escape_cdata_flat.
  induction t as [|x t IH]; [reflexivity|]; simpl.
  rewrite unescape_text_char, IH; reflexivity.
Qed.

Lemma unescape_escape_attrib (t : str) :
  plain t = true ->
  unescape None (map attr_space (escape_attrib t)) = Some t.
Proof.
  intros Ht; rewrite escape_attrib_flat by assumption.
  induction t as [|x t IH]; [reflexivity|]; simpl.
  simpl in Ht; apply andb_true_iff in Ht; destruct Ht as [Hx Ht].
  rewrite map_app, unescape_attr_char, IH by assumption; reflexivity.
Qed.

Lemma esc_text_char_free (x : ascii) :
  forallb (fun c => negb (Ascii.eqb c "<")) (esc_text_char x) = true.
Proof. each_char x; reflexivity. Qed.

Lemma esc_attr_char_free (x : ascii) :
  forallb (fun c => negb (Ascii.eqb c "<") && negb (Ascii.eqb c QUOTE))
          (esc_attr_char x) = true.
Proof. each_char x; reflexivity. Qed.

Lemma esc_text_char_plain (x : ascii) :
  plain_char x = true -> forallb plain_char (esc_text_char x) = true.
Proof. each_char x; intros Hx; try reflexivity; discriminate Hx. Qed.

Lemma esc_attr_char_plain (x : ascii) :
  plain_char x = true -> forallb plain_char (esc_attr_char x) = true.
Proof. each_char x; intros Hx; try reflexivity; discriminate Hx. Qed.

Lemma forallb_flat_map {A B} (p : B -> bool) (f : A -> list B) (l : list A) :
  (forall x, In x l -> forallb p (f x) = true) ->
  forallb p (flat_map f l) = true.
Proof.
  induction l as [|x l IH]; intros H; simpl; [reflexivity|].
  rewrite forallb_app, H, IH; auto using in_eq, in_cons.
Qed.

Lemma escape_cdata_free (t : str) :
  forallb (fun c => negb (Ascii.eqb c "<")) (escape_cdata t) = true.
Proof.
  rewrite escape_cdata_flat; apply forallb_flat_map.
  intros x _; apply esc_text_char_free.
Qed.

Lemma escape_attrib_free (t : str) :
  plain t = true ->
  forallb (fun c => negb (Ascii.eqb c "<") && negb (Ascii.eqb c QUOTE))
          (escape_attrib t) = true.
Proof.
  intros Ht; rewrite escape_attrib_flat by assumption.
  apply forallb_flat_map; intros x _; apply esc_attr_char_free.
Qed.

Lemma escape_cdata_plain (t : str) :
  plain t = true -> plain (escape_cdata t) = true.
Proof.
  intros Ht; rewrite escape_cdata_flat; apply forallb_flat_map.
  intros x Hx; apply esc_text_char_plain.
  unfold plain in Ht; rewrite forallb_forall in Ht; auto.
Qed.

Lemma escape_attrib_plain (t : str) :
  plain t = true -> plain (escape_attrib t) = true.
Proof.
  intros Ht; rewrite escape_attrib_flat by assumption; apply forallb_flat_map.
  intros x Hx; apply esc_attr_char_plain.
  unfold plain in Ht; rewrite forallb_forall in Ht; auto.
Qed.

(** ** The parser on what the writers produce *)

Lemma not_In_forallb (a : ascii) (s : str) :
  forallb (fun c => negb (Ascii.eqb c a)) s = true <-> ~ In a s.
Proof.
  rewrite forallb_forall; split.
  - intros H Hin; specialize (H a Hin).
    rewrite Ascii.eqb_refl in H; discriminate.
  - intros H x Hx; destruct (Ascii.eqb_spec x a); [subst; tauto | reflexivity].
Qed.

Lemma existsb_eqb_false (a : ascii) (s : str) :
  ~ In a s -> existsb (Ascii.eqb a) s = false.
Proof.
  intros H; apply not_true_iff_false; rewrite existsb_exists.
  intros (x & Hx & E); apply Ascii.eqb_eq in E; subst; tauto.
Qed.

Lemma take_name_app (n r : str) (c : ascii) :
  forallb name_char n = true -> name_char c = false ->
  take_name (n ++ c :: r) = (n, c :: r).
Proof.
  intros Hn Hc; induction n as [|x n IH]; simpl.
  - rewrite Hc; reflexivity.
  - simpl in Hn; apply andb_true_iff in Hn; destruct Hn as [Hx Hn].
    rewrite Hx, IH by assumption; reflexivity.
Qed.

Lemma span_until_app (stop : ascii) (a r : str) :
  ~ In stop a -> span_until stop (a ++ stop :: r) = (a, stop :: r).
Proof.
  induction a as [|x a IH]; intros H; simpl.
  - rewrite Ascii.eqb_refl; reflexivity.
  - destruct (Ascii.eqb_spec x stop) as [->|Hx]; [exfalso; apply H; left; reflexivity|].
    rewrite IH by (intros Hin; apply H; right; exact Hin); reflexivity.
Qed.

Lemma name_char_not_space (c : ascii) :
  name_char c = true -> xml_space c = false.
Proof. each_char c; intros H; try reflexivity; discriminate H. Qed.

Lemma name_char_facts (c : ascii) :
  name_char c = true ->
  Ascii.eqb c "/" = false /\ Ascii.eqb c "<" = false /\
  Ascii.eqb c "?" = false /\ isspace c = false.
Proof. each_char c; intros H; try (repeat split; reflexivity); discriminate H. Qed.

Lemma escape_attrib_no_lt (v : str) : plain v = true -> ~ In "<"%char (escape_attrib v).
Proof.
  intros Hv; apply not_In_forallb.
  pose proof (escape_attrib_free v Hv) as H.
  rewrite forallb_forall in *; intros x Hx; specialize (H x Hx).
  apply andb_true_iff in H; tauto.
Qed.

Lemma escape_attrib_no_quote (v : str) : plain v = true -> ~ In QUOTE (escape_attrib v).
Proof.
  intros Hv; apply not_In_forallb.
  pose proof (escape_attrib_free v Hv) as H.
  rewrite forallb_forall in *; intros x Hx; specialize (H x Hx).
  apply andb_true_iff in H; tauto.
Qed.

Lemma escape_cdata_no_lt (t : str) : ~ In "<"%char (escape_cdata t).
Proof. apply not_In_forallb, escape_cdata_free. Qed.

Lemma write_data_no_lt (t : str) : ~ In "<"%char (write_data t).
Proof.
  rewrite write_data_flat; apply not_In_forallb, forallb_flat_map.
  intros x _; pose proof (esc_attr_char_free x) as H.
  rewrite forallb_forall in *; intros c Hc; specialize (H c Hc).
  apply andb_true_iff in H; tauto.
Qed.

Lemma write_data_plain (t : str) : plain t = true -> plain (write_data t) = true.
Proof.
  intros Ht; rewrite write_data_flat; apply forallb_flat_map.
  intros x Hx; apply esc_attr_char_plain.
  unfold plain in Ht; rewrite forallb_forall in Ht; auto.
Qed.

Lemma text_escape_cdata : text_escape escape_cdata.
Proof.
  intros t; split; [apply escape_cdata_no_lt | apply unescape_escape_cdata].
Qed.


(** The attributes a writer printed are read back, up to the [>] or [/]
    that follows them. *)
Lemma take_attrs_serialized (attrs : list (str * str)) (c : ascii) (rest : str)
    (fuel : nat) :
  attrs_ok attrs = true -> xml_space c = false -> name_char c = false ->
  (length attrs < fuel)%nat ->
  take_attrs fuel (serialize_attrib escape_attrib attrs ++ c :: rest)
  = Some (attrs, c :: rest).
Proof.
  intros Ha Hsp Hnc; revert fuel.
  induction attrs as [|[k v] attrs IH]; intros fuel Hf.
  - destruct fuel as [|fuel]; [simpl in Hf; lia|].
    simpl; rewrite Hsp, Hnc; reflexivity.
  - destruct fuel as [|fuel]; [simpl in Hf; lia|].
    simpl in Ha; apply andb_true_iff in Ha; destruct Ha as [Hkv Ha].
    apply andb_true_iff in Hkv; destruct Hkv as [Hk Hv].
    unfold name_ok in Hk; apply andb_true_iff in Hk; destruct Hk as [Hk1 Hk2].
    destruct k as [|kh kt]; [discriminate|].
    assert (Hkh : name_char kh = true)
      by (simpl in Hk2; apply andb_true_iff in Hk2; tauto).
    cbn [serialize_attrib flat_map fst snd].
    rewrite <- !app_assoc.
    change (list_ascii_of_string " " ++ (kh :: kt) ++ ?x)
      with (" "%char :: kh :: (kt ++ x)).
    cbn [take_attrs skip_space].
    replace (xml_space " ") with true by reflexivity.
    rewrite (name_char_not_space kh Hkh), Hkh.
    change (kh :: kt ++ ?x) with ((kh :: kt) ++ x).
    change (list_ascii_of_string "=" ++ ?x) with ("="%char :: x).
    rewrite (take_name_app (kh :: kt)) by (assumption || reflexivity).
    cbn [skip_space]; replace (xml_space "=") with false by reflexivity.
    rewrite Ascii.eqb_refl.
    cbn [app skip_space]; replace (xml_space QUOTE) with false by reflexivity.
    rewrite Ascii.eqb_refl.
    rewrite span_until_app by (apply escape_attrib_no_quote; assumption).
    rewrite existsb_eqb_false by (apply escape_attrib_no_lt; assumption).
    rewrite unescape_escape_attrib by assumption.
    rewrite IH by (assumption || (simpl in Hf; lia)).
    reflexivity.
Qed.

Lemma serialize_attrib_length (esc : str -> str) (attrs : list (str * str)) :
  (length attrs <= length (serialize_attrib esc attrs))%nat.
Proof.
  induction attrs as [|kv attrs IH]; simpl; [lia|].
  rewrite length_app; simpl; lia.
Qed.

Lemma serialize_attrib_head (esc : str -> str) (attrs : list (str * str))
    (c : ascii) (rest : str) :
  name_char c = false ->
  exists d r, serialize_attrib esc attrs ++ c :: rest = d :: r /\
              name_char d = false.
Proof.
  intros Hc; destruct attrs as [|kv attrs]; simpl.
  - exists c, rest; auto.
  - eexists _, _; split; [reflexivity | reflexivity].
Qed.

(** A start tag with its attributes, followed by [>]. *)
Lemma parse_start_tag_serialized (name : str) (attrs : list (str * str))
    (rest : str) :
  name_ok name = true -> attrs_ok attrs = true ->
  parse_start_tag (name ++ serialize_attrib escape_attrib attrs ++ ">"%char :: rest)
  = Some (name, attrs, false, rest).
Proof.
  intros Hn Ha; unfold name_ok in Hn; apply andb_true_iff in Hn.
  destruct Hn as [Hne Hn]; unfold parse_start_tag.
  destruct (serialize_attrib_head escape_attrib attrs ">" rest eq_refl)
    as (d & r & E & Hd).
  rewrite E, take_name_app, <- E by assumption.
  destruct name as [|nh nt]; [discriminate|].
  rewrite take_attrs_serialized; try reflexivity; try assumption.
  rewrite length_app; pose proof (serialize_attrib_length escape_attrib attrs); lia.
Qed.

Lemma parse_end_tag_name (name rest : str) :
  forallb name_char name = true ->
  parse_end_tag name (name ++ ">"%char :: rest) = Some rest.
Proof.
  intros Hn; unfold parse_end_tag.
  rewrite take_name_app by (assumption || reflexivity).
  rewrite str_eqb_refl; reflexivity.
Qed.

(** One element in front of the content. *)
Lemma parse_content_element (et : str -> str) (fuel : nat) (name : str)
    (attrs : list (str * str)) (data rest : str) :
  text_escape et -> name_ok name = true -> attrs_ok attrs = true ->
  parse_content (S fuel) (element_text et name attrs data ++ rest) =
  match parse_content fuel rest with
  | Some (nodes, rest') => Some (ElemNode name attrs data :: nodes, rest')
  | None => None
  end.
Proof.
  intros Het Hn Ha; destruct (Het data) as [Hlt Hun].
  pose proof Hn as Hn'; unfold name_ok in Hn'; apply andb_true_iff in Hn'.
  destruct Hn' as [Hne Hnc].
  destruct name as [|nh nt]; [discriminate|].
  assert (Hnh : name_char nh = true)
    by (simpl in Hnc; apply andb_true_iff in Hnc; tauto).
  destruct (name_char_facts nh Hnh) as (Hslash & _).
  unfold element_text; rewrite <- !app_assoc.
  change (list_ascii_of_string "<" ++ (nh :: nt) ++ ?x)
    with ("<"%char :: nh :: (nt ++ x)).
  cbn [parse_content]; rewrite Ascii.eqb_refl, Hslash.
  change (nh :: nt ++ ?x) with ((nh :: nt) ++ x).
  change (list_ascii_of_string ">" ++ ?x) with (">"%char :: x).
  rewrite parse_start_tag_serialized by assumption.
  change (list_ascii_of_string "</" ++ ?x) with ("<"%char :: "/"%char :: x).
  rewrite span_until_app by exact Hlt.
  rewrite Ascii.eqb_refl, Hun.
  change (list_ascii_of_string ">" ++ rest) with (">"%char :: rest).
  rewrite parse_end_tag_name by assumption.
  reflexivity.
Qed.

(** A text node in front of an element or of the end tag. *)
Lemma parse_content_text (fuel : nat) (c : ascii) (t rest : str) :
  Ascii.eqb c "<" = false -> ~ In "<"%char (c :: t) ->
  unescape None (c :: t) = Some (c :: t) ->
  parse_content (S fuel) ((c :: t) ++ "<"%char :: rest) =
  match parse_content fuel ("<"%char :: rest) with
  | Some (nodes, rest') => Some (TextNode (c :: t) :: nodes, rest')
  | None => None
  end.
Proof.
  intros Hc Hlt Hun.
  cbn [parse_content app]; rewrite Hc.
  change (c :: t ++ ?x) with ((c :: t) ++ x).
  rewrite span_until_app, Hun by assumption.
  reflexivity.
Qed.

Lemma element_text_app (et : str -> str) (name : str)
    (attrs : list (str * str)) (s X : str) :
  "<"%char :: name ++ serialize_attrib escape_attrib attrs ++ ">" ++
  et s ++ "</" ++ name ++ ">" ++ X
  = element_text et name attrs s ++ X.
Proof. unfold element_text; rewrite <- !app_assoc; reflexivity. Qed.

(** Elements, each after the text [pre], then the text [post] and the end
    tag: the content as the compact writer ([pre] and [post] empty) and as
    the pretty writer produce it. *)
Lemma parse_content_elements (et : str -> str) (name : str)
    (attrs : list (str * str))
    (pre post : str) (T : list str) (rest : str) (fuel : nat) :
  text_escape et -> name_ok name = true -> attrs_ok attrs = true ->
  ~ In "<"%char pre -> unescape None pre = Some pre ->
  ~ In "<"%char post -> unescape None post = Some post ->
  (2 * length T + 2 < fuel)%nat ->
  parse_content fuel
    (flat_map (fun s => pre ++ element_text et name attrs s) T ++
     post ++ "<"%char :: "/"%char :: rest)
  = Some (flat_map (fun s => (if nonempty pre then [TextNode pre] else []) ++
                             [ElemNode name attrs s]) T ++
          (if nonempty post then [TextNode post] else []), rest).
Proof.
  intros Het Hn Ha Hpre Upre Hpost Upost; revert fuel.
  induction T as [|s T IH]; intros fuel Hf.
  - destruct fuel as [|[|fuel]]; try (simpl in Hf; lia).
    cbn [flat_map app length].
    destruct post as [|c t].
    + reflexivity.
    + assert (Hc : Ascii.eqb c "<" = false).
      { destruct (Ascii.eqb_spec c "<"); [subst; exfalso; apply Hpost; left|];
          reflexivity. }
      rewrite parse_content_text by assumption; reflexivity.
  - destruct fuel as [|[|fuel]]; try (simpl in Hf; lia).
    cbn [flat_map]; rewrite <- !app_assoc.
    assert (Hf' : (2 * length T + 2 < fuel)%nat) by (simpl in Hf; lia).
    assert (Hf'' : (2 * length T + 2 < S fuel)%nat) by lia.
    destruct pre as [|c t].
    + cbn [app nonempty] in IH |- *.
      rewrite parse_content_element, (IH (S fuel)) by assumption.
      reflexivity.
    + assert (Hc : Ascii.eqb c "<" = false).
      { destruct (Ascii.eqb_spec c "<"); [subst; exfalso; apply Hpre; left|];
          reflexivity. }
      unfold element_text at 1; rewrite <- !app_assoc.
      change (list_ascii_of_string "<" ++ ?x) with ("<"%char :: x).
      rewrite parse_content_text by assumption.
      rewrite element_text_app.
      rewrite parse_content_element by assumption.
      rewrite (IH fuel) by assumption.
      reflexivity.
Qed.

(** ** generate_xml_from_chunk: the tree and its compact text *)

Lemma add_serials_tree (chunk : DataFrame) (m : str) (i : nat)
    (todo : list Row) (root : Element) :
  index_of "Serial Number" (columns chunk) = Some i ->
  add_serials chunk m (dict_get MANUFACTURER_MAP m "Unknown") todo root
  = Ok (mkElement (tag root)
          (children root ++
           map (mkSubElement "serial" (serial_attrib m))
               (filter nonempty (map (trimmed chunk "Serial Number") todo)))).
Proof.
  intros Hi; revert root; induction todo as [|r todo IH]; intros root.
  - simpl; rewrite app_nil_r; destruct root; reflexivity.
  - cbn [add_serials]; unfold row_getitem; rewrite Hi; cbn [bind].
    rewrite IH.
    assert (E : trimmed chunk "Serial Number" r = strip (py_str (nth i r VNaN)))
      by (unfold trimmed, cell; rewrite Hi; reflexivity).
    cbn [map filter]; rewrite E.
    destruct (strip (py_str (nth i r VNaN))) as [|c t]; [reflexivity|].
    cbn [nonempty tag children map]; rewrite <- app_assoc; reflexivity.
Qed.

Lemma serialize_subelement_text (name : str) (attrs : list (str * str)) (s : str) :
  nonempty s = true ->
  serialize_subelement (mkSubElement name attrs s)
  = element_text escape_cdata name attrs s.
Proof.
  intros Hs; unfold serialize_subelement, element_text; simpl.
  destruct s; [discriminate | reflexivity].
Qed.

Lemma flat_map_ext_in {A B} (f g : A -> list B) (l : list A) :
  (forall x, In x l -> f x = g x) -> flat_map f l = flat_map g l.
Proof.
  induction l as [|x l IH]; intros H; simpl; [reflexivity|].
  rewrite H, IH; auto using in_eq, in_cons.
Qed.

Lemma filter_nonempty_In (l : list str) (s : str) :
  In s (filter nonempty l) -> nonempty s = true.
Proof. intros H; apply filter_In in H; tauto. Qed.

(** The compact text of the tree of a chunk. *)
Lemma ET_tostring_serials (m : str) (T : list str) :
  Forall (fun s => nonempty s = true) T ->
  ET_tostring (mkElement "serials" (map (mkSubElement "serial" (serial_attrib m)) T))
  = match T with
    | [] => "<serials />" : str
    | _ => "<serials>" ++
           flat_map (element_text escape_cdata "serial" (serial_attrib m)) T ++
           "</serials>"
    end.
Proof.
  intros HT; unfold ET_tostring; cbn [tag children].
  destruct T as [|s T]; [reflexivity|].
  cbn [map]; rewrite <- (map_cons (mkSubElement "serial" (serial_attrib m))).
  rewrite flat_map_concat_map, map_map, <- flat_map_concat_map.
  rewrite (flat_map_ext_in _ (element_text escape_cdata "serial" (serial_attrib m))).
  - reflexivity.
  - intros x Hx; apply serialize_subelement_text.
    rewrite Forall_forall in HT; auto.
Qed.

Lemma plain_app (a b : str) : plain (a ++ b) = plain a && plain b.
Proof. apply forallb_app. Qed.

Lemma manufacturer_plain (m : str) :
  plain (dict_get MANUFACTURER_MAP m "Unknown") = true.
Proof.
  unfold MANUFACTURER_MAP, str_items; cbn [map fst snd dict_get].
  repeat match goal with
         | |- context [str_eqb m ?k] => destruct (str_eqb m k); [reflexivity|]
         end.
  reflexivity.
Qed.

Lemma serial_attrib_ok (m : str) :
  plain m = true -> attrs_ok (serial_attrib m) = true.
Proof.
  intros Hm; unfold attrs_ok, serial_attrib; cbn [forallb fst snd].
  rewrite Hm, manufacturer_plain; reflexivity.
Qed.

Lemma serialize_attrib_cons (esc : str -> str) (k v : str)
    (attrs : list (str * str)) :
  serialize_attrib esc ((k, v) :: attrs)
  = (" " ++ k ++ "=" ++ [QUOTE] ++ esc v ++ [QUOTE]) ++ serialize_attrib esc attrs.
Proof. reflexivity. Qed.

Lemma serialize_attrib_plain (attrs : list (str * str)) :
  forallb (fun kv => plain (fst kv) && plain (snd kv)) attrs = true ->
  plain (serialize_attrib escape_attrib attrs) = true.
Proof.
  induction attrs as [|[k v] attrs IH]; [reflexivity|].
  cbn [forallb fst snd]; rewrite serialize_attrib_cons.
  rewrite !andb_true_iff; intros [[Hk Hv] Ha].
  rewrite !plain_app, Hk, escape_attrib_plain, IH by assumption; reflexivity.
Qed.

Lemma element_text_serial_plain (et : str -> str) (m s : str) :
  plain m = true -> plain (et s) = true ->
  plain (element_text et "serial" (serial_attrib m) s) = true.
Proof.
  intros Hm Hs; unfold element_text.
  rewrite !plain_app, Hs, serialize_attrib_plain; [reflexivity|].
  unfold serial_attrib; cbn [forallb fst snd].
  rewrite Hm, manufacturer_plain; reflexivity.
Qed.

Lemma doc_char_facts (s : str) :
  forallb doc_char s = true ->
  forallb xml_char s = true /\ normalize_eol s = s.
Proof.
  induction s as [|c s IH]; [auto|]; cbn [forallb].
  rewrite andb_true_iff; intros [Hc Hs]; destruct (IH Hs) as [IH1 IH2].
  split.
  - rewrite IH1, andb_true_r.
    revert Hc; each_char c; intros Hc; try reflexivity; discriminate Hc.
  - cbn [normalize_eol]; rewrite IH2.
    replace (Ascii.eqb c CR) with false; [reflexivity|].
    revert Hc; each_char c; intros Hc; try reflexivity; discriminate Hc.
Qed.

Lemma plain_doc_char (s : str) : plain s = true -> forallb doc_char s = true.
Proof.
  unfold plain; rewrite !forallb_forall; intros H x Hx.
  unfold doc_char; rewrite (H x Hx); reflexivity.
Qed.

Lemma plain_flat_map {A} (f : A -> str) (l : list A) :
  (forall x, In x l -> plain (f x) = true) -> plain (flat_map f l) = true.
Proof. apply forallb_flat_map. Qed.

Lemma flat_map_length_ge {A B} (f : A -> list B) (l : list A) (k : nat) :
  (forall x, In x l -> k <= length (f x))%nat ->
  (k * length l <= length (flat_map f l))%nat.
Proof.
  induction l as [|x l IH]; intros H; simpl; [lia|].
  rewrite length_app.
  pose proof (H x (in_eq _ _)); pose proof (IH (fun y Hy => H y (in_cons _ _ _ Hy))).
  lia.
Qed.

Lemma element_text_length (et : str -> str) (name : str)
    (attrs : list (str * str)) (s : str) :
  (2 <= length (element_text et name attrs s))%nat.
Proof.
  unfold element_text; rewrite !length_app; simpl; lia.
Qed.

Lemma flat_map_single {A B} (f : A -> B) (l : list A) :
  flat_map (fun x => [f x]) l = map f l.
Proof. induction l; simpl; congruence. Qed.

(** The parser reads the compact text of the tree back as the tree. *)
Lemma parse_document_compact (m : str) (T : list str) :
  plain m = true -> Forall (fun s => plain s = true) T ->
  parse_document
    match T with
    | [] => "<serials />" : str
    | _ => "<serials>" ++
           flat_map (element_text escape_cdata "serial" (serial_attrib m)) T ++
           "</serials>"
    end
  = Some (mkDocument "serials" [] (map (ElemNode "serial" (serial_attrib m)) T)).
Proof.
  intros Hm HT.
  destruct T as [|s0 T0] eqn:ET; [reflexivity|]; rewrite <- ET in *.
  assert (HTl : (0 < length T)%nat) by (rewrite ET; simpl; lia).
  clear ET s0 T0.
  set (body := flat_map (element_text escape_cdata "serial" (serial_attrib m)) T).
  assert (Hbody : plain body = true).
  { apply plain_flat_map; intros x Hx; apply element_text_serial_plain.
    - assumption.
    - apply escape_cdata_plain; rewrite Forall_forall in HT; auto. }
  assert (Hplain : plain ("<serials>" ++ body ++ "</serials>") = true)
    by (rewrite !plain_app, Hbody; reflexivity).
  destruct (doc_char_facts _ (plain_doc_char _ Hplain)) as [Hx Hn].
  unfold parse_document; rewrite Hx, Hn.
  change (list_ascii_of_string "<serials>" ++ body ++ list_ascii_of_string "</serials>")
    with ("<"%char :: list_ascii_of_string "serials" ++
          serialize_attrib escape_attrib [] ++
          ">"%char :: (body ++ list_ascii_of_string "</serials>")).
  unfold skip_declaration; cbn [startswith list_ascii_of_string app Ascii.eqb Bool.eqb andb].
  cbn [skip_space]; replace (xml_space "<") with false by reflexivity.
  rewrite Ascii.eqb_refl.
  change ("s"%char :: "e"%char :: "r"%char :: "i"%char :: "a"%char :: "l"%char
          :: "s"%char :: ?x)
    with (list_ascii_of_string "serials" ++ x).
  rewrite parse_start_tag_serialized by reflexivity.
  assert (P : parse_content
                (S (length (body ++ list_ascii_of_string "</serials>")))
                (body ++ "<"%char :: "/"%char :: list_ascii_of_string "serials>")
              = Some (flat_map (fun s => [ElemNode "serial" (serial_attrib m) s]) T
                      ++ [], list_ascii_of_string "serials>")).
  { apply (parse_content_elements escape_cdata "serial" (serial_attrib m)
             [] [] T);
      [apply text_escape_cdata | reflexivity
      | apply serial_attrib_ok; assumption
      | intros [] | reflexivity | intros [] | reflexivity |].
    rewrite length_app; simpl.
      pose proof (flat_map_length_ge
                    (element_text escape_cdata "serial" (serial_attrib m)) T 2
                    (fun x _ => element_text_length _ _ _ x)).
    fold body in H; lia. }
  match goal with
  | |- context [parse_content ?f ?x] =>
      change (parse_content f x)
        with (parse_content
                (S (length (body ++ list_ascii_of_string "</serials>")))
                (body ++ "<"%char :: "/"%char :: list_ascii_of_string "serials>"))
  end.
  rewrite P; clear P.
  replace (parse_end_tag (list_ascii_of_string "serials")
             (list_ascii_of_string "serials>")) with (Some (@nil ascii))
    by reflexivity.
  cbn [skip_space].
  do 2 f_equal.
  rewrite app_nil_r; apply flat_map_single.
Qed.

(** ** generate_xml_from_chunk: the pretty text and its lines *)

Lemma serial_line_element (m s : str) :
  plain m = true ->
  serial_line m (dict_get MANUFACTURER_MAP m "Unknown") s
  = "  " ++ element_text write_data "serial" (serial_attrib m) s.
Proof.
  intros Hm; unfold serial_line, element_text, serial_attrib.
  rewrite !serialize_attrib_cons; cbn [serialize_attrib flat_map].
  rewrite !write_data_attr by (assumption || apply manufacturer_plain).
  rewrite <- !app_assoc; reflexivity.
Qed.

Lemma writexml_node_serial (m s : str) :
  nonempty s = true ->
  writexml_node ([] ++ "  ") "  " [LF] (ElemNode "serial" (serial_attrib m) s)
  = serial_line m (dict_get MANUFACTURER_MAP m "Unknown") s ++ [LF].
Proof.
  intros Hs; unfold writexml_node, serial_line, serial_attrib.
  destruct s as [|c t]; [discriminate|].
  rewrite !serialize_attrib_cons; cbn [serialize_attrib flat_map].
  rewrite <- !app_assoc; reflexivity.
Qed.

Lemma writexml_nodes_serials (m : str) (T : list str) :
  Forall (fun s => nonempty s = true) T ->
  flat_map (writexml_node ([] ++ "  ") "  " [LF])
           (map (ElemNode "serial" (serial_attrib m)) T)
  = flat_map (fun l => l ++ [LF])
      (map (serial_line m (dict_get MANUFACTURER_MAP m "Unknown")) T).
Proof.
  intros HT; induction HT as [|s T Hs HT IH]; [reflexivity|].
  cbn [map flat_map]; rewrite IH, writexml_node_serial by assumption.
  reflexivity.
Qed.

(** The pretty text of a tree with at least one [serial]: one line for the
    declaration, one per tag of the document element, one per [serial]. *)
Lemma toprettyxml_serials (m : str) (T : list str) :
  Forall (fun s => nonempty s = true) T -> T <> [] ->
  toprettyxml "  " (mkDocument "serials" [] (map (ElemNode "serial" (serial_attrib m)) T))
  = flat_map (fun l => l ++ [LF]) (minidom_declaration :: layout m T).
Proof.
  intros HT Hne; unfold toprettyxml, writexml, layout.
  cbn [doc_tag doc_attrs doc_nodes serialize_attrib].
  pose proof (writexml_nodes_serials m T HT) as E.
  destruct T as [|s T]; [congruence|].
  cbn [map] in E |- *; rewrite E.
  cbn [flat_map]; rewrite flat_map_app; cbn [flat_map].
  rewrite <- !app_assoc; reflexivity.
Qed.

Lemma plain_no_LF (s : str) : plain s = true -> no_LF s.
Proof.
  unfold plain, no_LF; rewrite forallb_forall; intros H Hin.
  specialize (H LF Hin); discriminate H.
Qed.

Lemma serial_line_plain (m s : str) :
  plain m = true -> plain s = true ->
  plain (serial_line m (dict_get MANUFACTURER_MAP m "Unknown") s) = true.
Proof.
  intros Hm Hs; rewrite serial_line_element, plain_app by assumption.
  rewrite element_text_serial_plain; [reflexivity | assumption |].
  apply write_data_plain; assumption.
Qed.

Lemma layout_plain (m : str) (T : list str) :
  plain m = true -> Forall (fun s => plain s = true) T ->
  Forall (fun l => plain l = true) (layout m T).
Proof.
  intros Hm HT; unfold layout.
  destruct T as [|s T]; [repeat constructor|].
  constructor; [reflexivity|].
  apply Forall_app; split; [|repeat constructor].
  apply Forall_map; eapply Forall_impl; [|exact HT].
  intros x Hx; apply serial_line_plain; assumption.
Qed.

Lemma lstrip_spaces (sp r : str) (x : ascii) :
  forallb isspace sp = true -> isspace x = false ->
  lstrip (sp ++ x :: r) = x :: r.
Proof.
  intros Hsp Hx; induction sp as [|c sp IH]; simpl.
  - rewrite Hx; reflexivity.
  - simpl in Hsp; apply andb_true_iff in Hsp; destruct Hsp as [Hc Hsp].
    rewrite Hc; auto.
Qed.

(** A line whose first characters, after white space, are [<] and a
    character that is neither white space nor [?] passes the line filter. *)
Lemma keep_line_tag (sp r : str) (c : ascii) :
  forallb isspace sp = true -> isspace c = false -> Ascii.eqb c "?" = false ->
  keep_line (sp ++ "<"%char :: c :: r) = true.
Proof.
  intros Hsp Hc Hq; unfold keep_line, strip.
  rewrite lstrip_spaces by (assumption || reflexivity).
  rewrite !rstrip_cons by (assumption || reflexivity).
  cbn [startswith list_ascii_of_string].
  rewrite Ascii.eqb_refl; cbn [andb].
  rewrite Ascii.eqb_sym, Hq; reflexivity.
Qed.

Lemma keep_line_serial (m f s : str) : keep_line (serial_line m f s) = true.
Proof.
  unfold serial_line.
  change (list_ascii_of_string "  <serial Model=" ++ ?x)
    with (list_ascii_of_string "  " ++ "<"%char :: "s"%char ::
          (list_ascii_of_string "erial Model=" ++ x)).
  apply keep_line_tag; reflexivity.
Qed.

Lemma filter_all {A} (p : A -> bool) (l : list A) :
  (forall x, In x l -> p x = true) -> filter p l = l.
Proof.
  induction l as [|x l IH]; intros H; simpl; [reflexivity|].
  rewrite H, IH; auto using in_eq, in_cons.
Qed.

Lemma keep_line_layout (m : str) (T : list str) :
  Forall (fun l => keep_line l = true) (layout m T).
Proof.
  unfold layout; destruct T as [|s T]; [repeat constructor|].
  constructor; [reflexivity|].
  apply Forall_app; split; [|repeat constructor].
  apply Forall_map, Forall_forall; intros x _; apply keep_line_serial.
Qed.

Lemma layout_not_nil (m : str) (T : list str) : layout m T <> [].
Proof. unfold layout; destruct T; discriminate. Qed.

(** The lines the filter keeps from the pretty text. *)
Lemma kept_lines_serials (m : str) (T : list str) :
  plain m = true -> Forall (fun s => plain s = true) T ->
  Forall (fun s => nonempty s = true) T ->
  filter keep_line
    (split_on LF
       (toprettyxml "  "
          (mkDocument "serials" [] (map (ElemNode "serial" (serial_attrib m)) T))))
  = layout m T.
Proof.
  intros Hm HT Hne.
  destruct T as [|s0 T0] eqn:ET; [reflexivity|]; rewrite <- ET in *.
  assert (HT0 : T <> []) by (rewrite ET; discriminate).
  clear ET s0 T0.
  rewrite toprettyxml_serials by assumption.
  rewrite split_on_terminated.
  - rewrite filter_app; cbn [filter].
    replace (keep_line minidom_declaration) with false by reflexivity.
    replace (keep_line []) with false by reflexivity.
    rewrite app_nil_r; apply filter_all.
    apply Forall_forall, keep_line_layout.
  - constructor; [apply plain_no_LF; reflexivity|].
    eapply Forall_impl; [|apply layout_plain; eassumption].
    intros l; apply plain_no_LF.
Qed.

(** ** generate_xml_from_chunk: the document and reading it back *)








(** On a chunk that has the column, with a model and serial numbers
    without control characters, the renderer returns the declaration and
    the lines of the layout. *)
Lemma generate_xml_plain (chunk : DataFrame) (m : str) (n : Z) :
  has_column chunk "Serial Number" = true -> plain m = true ->
  Forall (fun s => plain s = true) (serial_numbers chunk) ->
  generate_xml_from_chunk chunk m n
  = Ok (xml_declaration ++ [LF] ++ join [LF] (layout m (serial_numbers chunk))).
Proof.
  intros Hcol Hm HT.
  unfold has_column in Hcol.
  destruct (index_of "Serial Number" (columns chunk)) as [i|] eqn:Hi;
    [|discriminate].
  unfold generate_xml_from_chunk.
  rewrite (add_serials_tree chunk m i _ _ Hi); cbn [bind tag children app].
  fold (serial_numbers chunk).
  assert (Hne : Forall (fun s => nonempty s = true) (serial_numbers chunk)).
  { apply Forall_forall; intros s Hs; eapply filter_nonempty_In; exact Hs. }
  rewrite ET_tostring_serials by assumption.
  unfold minidom_parseString.
  rewrite parse_document_compact by assumption; cbn [bind].
  rewrite kept_lines_serials by assumption.
  reflexivity.
Qed.

Lemma take_name_chars (s n r : str) :
  take_name s = (n, r) -> forallb name_char n = true.
Proof.
  revert n r; induction s as [|c s IH]; intros n r; simpl.
  - intros H; injection H as <- <-; reflexivity.
  - destruct (name_char c) eqn:Hc.
    + destruct (take_name s) as [a b]; intros H; injection H as <- <-.
      simpl; rewrite Hc; eapply IH; reflexivity.
    + intros H; injection H as <- <-; reflexivity.
Qed.

Lemma parse_start_tag_name (s name r : str) (attrs : list (str * str))
    (b : bool) :
  parse_start_tag s = Some (name, attrs, b, r) -> name_ok name = true.
Proof.
  unfold parse_start_tag.
  destruct (take_name s) as [n r0] eqn:E.
  apply take_name_chars in E.
  destruct n as [|nh nt]; [discriminate|].
  intros H.
  assert (name = nh :: nt).
  { destruct (take_attrs _ r0) as [[a [|x r1]]|]; try discriminate.
    destruct (Ascii.eqb x ">"); [injection H as <-; reflexivity|].
    destruct (Ascii.eqb x "/"); [|discriminate].
    destruct r1 as [|y r2]; [discriminate|].
    destruct (Ascii.eqb y ">"); [injection H as <-; reflexivity | discriminate]. }
  subst name; unfold name_ok; rewrite E; reflexivity.
Qed.

Lemma parse_document_tag (s : str) (d : Document) :
  parse_document s = Some d -> name_ok (doc_tag d) = true.
Proof.
  unfold parse_document.
  destruct (forallb xml_char s); [|discriminate].
  destruct (skip_declaration (normalize_eol s)) as [s1|]; [|discriminate].
  destruct (skip_space s1) as [|c r]; [discriminate|].
  destruct (Ascii.eqb c "<"); [|discriminate].
  destruct (parse_start_tag r) as [[[[name attrs] b] r1]|] eqn:E; [|discriminate].
  apply parse_start_tag_name in E.
  destruct b.
  - destruct (skip_space r1); [|discriminate].
    intros H; injection H as <-; exact E.
  - destruct (parse_content _ r1) as [[nodes r2]|]; [|discriminate].
    destruct (parse_end_tag name r2) as [r3|]; [|discriminate].
    destruct (skip_space r3); [|discriminate].
    intros H; injection H as <-; exact E.
Qed.

Lemma name_char_not_LF (c : ascii) :
  name_char c = true -> Ascii.eqb c LF = false.
Proof. each_char c; intros H; try reflexivity; discriminate H. Qed.

(** Whatever the document, the line filter keeps the line of the start tag
    of the document element and drops minidom's declaration. *)
Lemma kept_lines_not_nil (d : Document) :
  name_ok (doc_tag d) = true ->
  filter keep_line (split_on LF (toprettyxml "  " d)) <> [].
Proof.
  unfold name_ok; rewrite andb_true_iff; intros [Hne Hn].
  destruct (doc_tag d) as [|th tt] eqn:Et; [discriminate|].
  assert (Hth : name_char th = true)
    by (simpl in Hn; apply andb_true_iff in Hn; tauto).
  destruct (name_char_facts th Hth) as (_ & _ & Hq & Hsp).
  unfold toprettyxml, writexml; rewrite Et.
  cbn [app].
  change (list_ascii_of_string "<" ++ ?x) with ("<"%char :: x).
  rewrite split_on_line by (apply plain_no_LF; reflexivity).
  rewrite (split_on_cons_other LF "<") by reflexivity.
  rewrite (split_on_cons_other LF th) by (apply name_char_not_LF; assumption).
  cbn [hd tl filter].
  replace (keep_line minidom_declaration) with false by reflexivity.
  match goal with
  | |- context [keep_line ("<"%char :: th :: ?r)] =>
      pose proof (keep_line_tag [] r th Logic.eq_refl Hsp Hq) as K;
      cbn [app] in K; rewrite K
  end.
  discriminate.
Qed.

Lemma Forall_filter_keep {A} (P : A -> Prop) (p : A -> bool) (l : list A) :
  Forall P l -> Forall P (filter p l).
Proof.
  intros H; apply Forall_forall; intros x Hx; apply filter_In in Hx.
  rewrite Forall_forall in H; apply H; tauto.
Qed.

(** The shape of every document the renderer returns: the declaration,
    then the kept lines, of which there is at least one. *)
Lemma generate_xml_lines (chunk : DataFrame) (m : str) (n : Z) (doc : str) :
  generate_xml_from_chunk chunk m n = Ok doc ->
  exists lines,
    split_on LF doc = xml_declaration :: lines /\ lines <> [] /\
    Forall (fun l => keep_line l = true) lines.
Proof.
  unfold generate_xml_from_chunk; intros H.
  bind_ok H root Hr.
  unfold minidom_parseString in H.
  destruct (parse_document (ET_tostring root)) as [d|] eqn:Hd; [|discriminate].
  cbn [bind] in H; cbv zeta in H.
  set (lines := filter keep_line (split_on LF (toprettyxml "  " d))) in *.
  replace doc with (xml_declaration ++ [LF] ++ join [LF] lines) by congruence.
  clear H.
  assert (Hne : lines <> [])
    by (apply kept_lines_not_nil, (parse_document_tag _ _ Hd)).
  exists lines; split; [|split; [exact Hne|]].
  - rewrite <- (join_cons [LF] xml_declaration lines Hne).
    apply split_on_join; [discriminate|].
    constructor; [apply plain_no_LF; reflexivity|].
    apply Forall_filter_keep, split_on_no_LF.
  - apply Forall_forall; intros l Hl; apply filter_In in Hl; tauto.
Qed.

(** ** The rendered document *)





Lemma startswith_app (p s : str) : startswith p (p ++ s) = true.
Proof.
  induction p as [|c p IH]; simpl; [reflexivity|].
  rewrite Ascii.eqb_refl; exact IH.
Qed.

Lemma element_line_serial (m f s : str) : element_line (serial_line m f s) = true.
Proof.
  unfold element_line.
  replace (startswith "  <serial " (serial_line m f s)) with true by reflexivity.
  replace (endswith "</serial>" (serial_line m f s)) with true.
  - rewrite !orb_true_r; reflexivity.
  - unfold endswith, serial_line.
    rewrite !app_assoc, rev_app_distr, startswith_app; reflexivity.
Qed.

Lemma element_line_layout (m : str) (T : list str) :
  Forall (fun l => element_line l = true) (layout m T).
Proof.
  unfold layout; destruct T as [|s T]; [repeat constructor|].
  constructor; [reflexivity|].
  apply Forall_app; split; [|repeat constructor].
  apply Forall_map, Forall_forall; intros x _; apply element_line_serial.
Qed.

Lemma keep_line_spec (l : str) :
  keep_line l = true -> blank_line l = false /\ declaration_line l = false.
Proof.
  unfold keep_line, blank_line, declaration_line.
  destruct (strip l); [discriminate|].
  rewrite negb_true_iff; auto.
Qed.

Lemma C5_document_lines_counterexample :
  create_chunks table_line_feed "JIDU6601" ALLOWED_VERSIONS CHUNK_SIZE
  = Ok [table_line_feed] /\
  exists doc,
    generate_xml_from_chunk table_line_feed "JIDU6601" 1 = Ok doc /\
    length (split_on LF doc) = 5%nat /\
    nth 3 (split_on LF doc) [] = "B</serial>" /\
    element_line (nth 3 (split_on LF doc) []) = false /\
    ~ Forall (fun l => element_line l = true) (tl (split_on LF doc)).
Proof.
  split; [reflexivity|].
  eexists; split; [reflexivity|].
  split; [reflexivity|]; split; [reflexivity|]; split; [reflexivity|].
  intros H; rewrite Forall_forall in H.
  specialize (H "B</serial>"); vm_compute in H.
  assert (E : false = true) by (apply H; right; right; left; reflexivity).
  discriminate E.
Qed.

(** C5 (amended).  Every document the renderer returns starts with the
    declaration line, followed by at least one line, and none of the lines
    that follow is blank or a declaration line.  When the chunk has the
    [Serial Number] column and the device model and the trimmed serial
    numbers hold no control character, the renderer returns a document
    whose lines after the declaration are the layout: the start tag of the
    document element, one [serial] element per line indented by two spaces,
    and the end tag (or the empty-element tag alone when there is no serial
    number). *)
Theorem C5_document_lines (chunk : DataFrame) (m : str) (n : Z) :
  (forall doc, generate_xml_from_chunk chunk m n = Ok doc ->
     exists lines,
       split_on LF doc = xml_declaration :: lines /\ lines <> [] /\
       Forall (fun l => blank_line l = false /\ declaration_line l = false)
              lines) /\
  (has_column chunk "Serial Number" = true -> plain m = true ->
   Forall (fun s => plain s = true) (serial_numbers chunk) ->
   exists doc,
     generate_xml_from_chunk chunk m n = Ok doc /\
     split_on LF doc = xml_declaration :: layout m (serial_numbers chunk) /\
     Forall (fun l => element_line l = true) (layout m (serial_numbers chunk))).
Proof.
  split.
  { intros doc Hdoc.
    destruct (generate_xml_lines chunk m n doc Hdoc) as (lines & Hs & Hne & Hk).
    exists lines; split; [exact Hs|]; split; [exact Hne|].
    eapply Forall_impl; [|exact Hk].
    intros l; apply keep_line_spec. }
  intros Hcol Hm HT.
  exists (xml_declaration ++ [LF] ++ join [LF] (layout m (serial_numbers chunk))).
  split; [apply generate_xml_plain; assumption|].
  split; [|apply element_line_layout].
  rewrite <- (join_cons [LF] xml_declaration _ (layout_not_nil m _)).
  apply split_on_join; [discriminate|].
  constructor; [apply plain_no_LF; reflexivity|].
  eapply Forall_impl; [|apply layout_plain; eassumption].
  intros l; apply plain_no_LF.
Qed.

Lemma C5_document_lines_witness :
  has_column table_three "Serial Number" = true /\
  plain "JIDU6601" = true /\
  Forall (fun s => plain s = true) (serial_numbers table_three) /\
  exists doc,
    generate_xml_from_chunk table_three "JIDU6601" 1 = Ok doc /\
    split_on LF doc
    = xml_declaration :: layout "JIDU6601" (strs ["SN1"; "SN2"; "SN3"]).
Proof.
  split; [reflexivity|]; split; [reflexivity|].
  split; [repeat constructor|].
  destruct (C5_document_lines table_three "JIDU6601" 1) as [_ H].
  destruct H as (doc & Hdoc & Hl & _);
    [reflexivity | reflexivity | repeat constructor |].
  exists doc; split; [exact Hdoc | exact Hl].
Defined.

(** ** process_data_to_xml *)

Lemma enumerate_length {A} (k : Z) (l : list A) :
  length (enumerate k l) = length l.
Proof. revert k; induction l; intros k; simpl; auto. Qed.

Lemma numbered_files_cons (m : str) (k : Z) (doc : str) (docs : list str) :
  numbered_files m k (doc :: docs)
  = (filename_of m k, doc) :: numbered_files m (k + 1) docs.
Proof. reflexivity. Qed.

(** The inner loop returns exactly when every chunk renders, and then
    appends the documents under their numbered names. *)
Lemma render_chunks_spec (m : str) (chunks : list DataFrame) (k : Z)
    (acc files : list (str * str)) :
  render_chunks m (enumerate k chunks) acc = Ok files <->
  exists docs, rendered m k chunks docs /\ files = acc ++ numbered_files m k docs.
Proof.
  revert k acc; induction chunks as [|c chunks IH]; intros k acc.
  - simpl; split.
    + intros H; injection H as <-; exists []; split; [constructor|].
      rewrite app_nil_r; reflexivity.
    + intros (docs & Hr & ->); inversion Hr; subst.
      rewrite app_nil_r; reflexivity.
  - cbn [enumerate render_chunks]; split.
    + intros H; bind_ok H doc Hd.
      apply IH in H; destruct H as (docs & Hr & ->).
      exists (doc :: docs); split; [constructor; assumption|].
      rewrite numbered_files_cons, <- app_assoc; reflexivity.
    + intros (docs & Hr & ->); inversion Hr as [|? doc ? docs' Hd Hr']; subst.
      cbn [fst snd] in Hd; rewrite Hd; cbn [bind].
      apply IH; exists docs'; split; [assumption|].
      rewrite numbered_files_cons, <- app_assoc; reflexivity.
Qed.

Lemma rendered_length (m : str) (k : Z) (chunks : list DataFrame)
    (docs : list str) :
  rendered m k chunks docs -> length docs = length chunks.
Proof.
  intros H; apply Forall2_length in H.
  rewrite enumerate_length in H; auto.
Qed.

Lemma dict_set_fresh {V} (d : list (str * V)) (key : str) (v : V) :
  ~ In key (map fst d) -> dict_set d key v = d ++ [(key, v)].
Proof.
  induction d as [|[k x] d IH]; intros H; simpl; [reflexivity|].
  destruct (str_eqb key k) eqn:E.
  - apply str_eqb_eq in E; subst; exfalso; apply H; left; reflexivity.
  - rewrite IH; [reflexivity|]; intros Hin; apply H; right; exact Hin.
Qed.

(** What the outer loop adds to the dict: one entry per model that has
    chunks, in the order of the models, holding the rendered chunks under
    their numbered names. *)
Lemma process_models_spec (df : DataFrame) (models : list str)
    (acc d : list (str * list (str * str))) :
  NoDup models -> (forall m, In m models -> ~ In m (map fst acc)) ->
  process_models df models acc = Ok d ->
  exists segs,
    d = acc ++ segs /\
    map fst segs = filter (has_chunks df) models /\
    forall m files, In (m, files) segs ->
      exists chunks docs,
        create_chunks df m ALLOWED_VERSIONS CHUNK_SIZE = Ok chunks /\
        chunks <> [] /\ rendered m 1 chunks docs /\
        files = numbered_files m 1 docs.
Proof.
  revert acc; induction models as [|m models IH]; intros acc Hnd Hfresh H.
  - simpl in H; injection H as <-; exists []; rewrite app_nil_r.
    split; [reflexivity|]; split; [reflexivity|]; intros ? ? [].
  - inversion Hnd as [|? ? Hm Hnd']; subst.
    cbn [process_models] in H.
    bind_ok H chunks Hc.
    cbn [filter]; unfold has_chunks at 1; rewrite Hc.
    destruct chunks as [|c cs].
    + apply IH in H; [exact H | assumption |].
      intros m' Hm'; apply Hfresh; right; assumption.
    + bind_ok H fs Hf.
      rewrite dict_set_fresh in H by (apply Hfresh; left; reflexivity).
      apply IH in H; [|assumption|].
      * destruct H as (segs & -> & Hk & Hs).
        exists ((m, fs) :: segs); rewrite <- app_assoc.
        split; [reflexivity|]; split; [simpl; rewrite Hk; reflexivity|].
        intros m' files' [E|Hin]; [|apply Hs; assumption].
        injection E as <- <-.
        apply render_chunks_spec in Hf; destruct Hf as (docs & Hr & ->).
        exists (c :: cs), docs; repeat split; [assumption | discriminate | assumption].
      * intros m' Hm'; rewrite map_app, in_app_iff; simpl.
        intros [Hin|[E|[]]]; [eapply Hfresh; [right; exact Hm' | exact Hin]|].
        subst; tauto.
Qed.

Lemma DEVICE_MODELS_NoDup : NoDup DEVICE_MODELS.
Proof.
  unfold DEVICE_MODELS, strs; cbn [map].
  repeat (constructor; [simpl; intuition discriminate|]); constructor.
Qed.

Lemma process_data_to_xml_spec (df : DataFrame)
    (d : list (str * list (str * str))) :
  process_data_to_xml df = Ok d ->
  map fst d = filter (has_chunks df) DEVICE_MODELS /\
  forall m files, In (m, files) d ->
    exists chunks docs,
      create_chunks df m ALLOWED_VERSIONS CHUNK_SIZE = Ok chunks /\
      chunks <> [] /\ rendered m 1 chunks docs /\
      files = numbered_files m 1 docs.
Proof.
  intros H; apply process_models_spec in H;
    [|apply DEVICE_MODELS_NoDup | intros ? _ []].
  destruct H as (segs & -> & Hk & Hs); auto.
Qed.



Lemma In_window {A} (x : A) (s i : nat) (l : list A) :
  In x (firstn s (skipn i l)) -> In x l.
Proof.
  intros H; apply In_nth_error in H; destruct H as [j Hj].
  rewrite nth_error_firstn in Hj; destruct (Nat.ltb j s); [|discriminate].
  rewrite nth_error_skipn in Hj; eapply nth_error_In; exact Hj.
Qed.







(** ** File names *)

Lemma string_of_uint_digits (d : Decimal.uint) :
  forallb is_digit (list_ascii_of_string (DecimalString.NilEmpty.string_of_uint d))
  = true.
Proof. induction d; simpl; auto. Qed.

Lemma str_of_nat_inj (a b : nat) : str_of_nat a = str_of_nat b -> a = b.
Proof.
  unfold str_of_nat; intros H.
  apply (f_equal string_of_list_ascii) in H.
  rewrite !string_of_list_ascii_of_string in H.
  apply (f_equal DecimalString.NilEmpty.uint_of_string) in H.
  rewrite !DecimalString.NilEmpty.usu in H; injection H as E.
  apply DecimalNat.Unsigned.to_uint_inj; exact E.
Qed.

Lemma str_of_Z_inj (a b : Z) :
  0 <= a -> 0 <= b -> str_of_Z a = str_of_Z b -> a = b.
Proof.
  unfold str_of_Z; intros Ha Hb.
  destruct (Z.ltb_spec a 0); [lia|]; destruct (Z.ltb_spec b 0); [lia|].
  intros E; apply str_of_nat_inj in E; lia.
Qed.

Lemma is_digit_flat (c : ascii) : is_digit c = true -> flat_char c = true.
Proof. each_char c; intros H; try reflexivity; discriminate H. Qed.

Lemma str_of_Z_flat (k : Z) : 0 <= k -> flat_name (str_of_Z k) = true.
Proof.
  intros Hk; unfold str_of_Z, str_of_nat, flat_name.
  destruct (Z.ltb_spec k 0); [lia|].
  rewrite forallb_forall; intros c Hc; apply is_digit_flat.
  pose proof (string_of_uint_digits (Nat.to_uint (Z.to_nat k))) as D.
  rewrite forallb_forall in D; auto.
Qed.

Lemma filename_of_flat (m : str) (k : Z) :
  flat_name m = true -> 0 <= k -> flat_name (filename_of m k) = true.
Proof.
  intros Hm Hk; unfold filename_of, flat_name.
  rewrite !forallb_app; fold (flat_name m); fold (flat_name (str_of_Z k)).
  rewrite Hm, str_of_Z_flat by assumption; reflexivity.
Qed.

Lemma app_inj_length {A} (a a' b b' : list A) :
  length a = length a' -> a ++ b = a' ++ b' -> a = a' /\ b = b'.
Proof.
  revert a'; induction a as [|x a IH]; intros [|x' a'] Hl H;
    try discriminate Hl; [auto|].
  simpl in H; injection H as -> H; injection Hl as Hl.
  destruct (IH a' Hl H) as [-> ->]; auto.
Qed.

(** File names of models of one length differ as soon as the model or the
    chunk number differs. *)
Lemma filename_of_inj (m m' : str) (a b : Z) :
  length m = length m' -> 0 <= a -> 0 <= b ->
  filename_of m a = filename_of m' b -> m = m' /\ a = b.
Proof.
  unfold filename_of; intros Hl Ha Hb H.
  apply app_inj_length in H; [|exact Hl]; destruct H as [-> H].
  apply app_inv_head in H.
  apply app_inv_tail in H.
  split; [reflexivity | apply str_of_Z_inj; assumption].
Qed.

Lemma enumerate_keys {A} (k : Z) (l : list A) :
  NoDup (map fst (enumerate k l)) /\
  forall j, In j (map fst (enumerate k l)) -> k <= j.
Proof.
  revert k; induction l as [|x l IH]; intros k; simpl.
  - split; [constructor | intros ? []].
  - destruct (IH (k + 1)) as [Hnd Hge]; split.
    + constructor; [|exact Hnd].
      intros Hin; apply Hge in Hin; lia.
    + intros j [<-|Hin]; [lia | apply Hge in Hin; lia].
Qed.

Lemma numbered_files_names (m : str) (k : Z) (docs : list str) :
  map fst (numbered_files m k docs)
  = map (filename_of m) (map fst (enumerate k docs)).
Proof. unfold numbered_files; rewrite !map_map; reflexivity. Qed.

Lemma numbered_files_In (m : str) (k : Z) (docs : list str) (name : str) :
  In name (map fst (numbered_files m k docs)) ->
  exists j, k <= j /\ name = filename_of m j.
Proof.
  rewrite numbered_files_names, in_map_iff; intros (j & <- & Hj).
  exists j; split; [apply (enumerate_keys k docs), Hj | reflexivity].
Qed.

Lemma numbered_files_NoDup (m : str) (k : Z) (docs : list str) :
  0 <= k -> NoDup (map fst (numbered_files m k docs)).
Proof.
  intros Hk; rewrite numbered_files_names.
  destruct (enumerate_keys k docs) as [Hnd Hge].
  revert Hnd Hge; generalize (map fst (enumerate k docs)).
  induction l as [|j l IH]; intros Hnd Hge; simpl; [constructor|].
  inversion Hnd as [|? ? Hj Hnd']; subst.
  constructor; [|apply IH; [assumption | intros; apply Hge; right; assumption]].
  rewrite in_map_iff; intros (j' & E & Hj').
  apply filename_of_inj in E; [| reflexivity | |].
  - destruct E as [_ ->]; tauto.
  - pose proof (Hge j' (or_intror Hj')); lia.
  - pose proof (Hge j (or_introl eq_refl)); lia.
Qed.

Lemma NoDup_append {A} (l l' : list A) :
  NoDup l -> NoDup l' -> (forall x, In x l -> ~ In x l') -> NoDup (l ++ l').
Proof.
  induction l as [|x l IH]; intros H H' Hd; simpl; [assumption|].
  inversion H as [|? ? Hx Hl]; subst; constructor.
  - rewrite in_app_iff; intros [Hin|Hin]; [tauto|].
    apply (Hd x (in_eq _ _) Hin).
  - apply IH; [assumption | assumption |].
    intros y Hy; apply Hd; right; assumption.
Qed.

(** Numbered files of distinct models of one length never share a name. *)
Lemma all_files_NoDup (L : nat) (d : list (str * list (str * str))) :
  NoDup (map fst d) ->
  (forall m fs, In (m, fs) d ->
     length m = L /\ exists docs, fs = numbered_files m 1 docs) ->
  NoDup (map fst (all_files d)).
Proof.
  induction d as [|[m fs] d IH]; intros Hnd Hd; [constructor|].
  inversion Hnd as [|? ? Hm Hnd']; subst.
  unfold all_files; cbn [flat_map snd]; rewrite map_app.
  destruct (Hd m fs (in_eq _ _)) as (Hl & docs & ->).
  apply NoDup_append.
  - apply numbered_files_NoDup; lia.
  - apply IH; [assumption | intros; apply Hd; right; assumption].
  - intros name Hin Hin'.
    apply numbered_files_In in Hin; destruct Hin as (j & Hj & ->).
    fold (all_files d) in Hin'.
    unfold all_files in Hin'; rewrite in_map_iff in Hin'.
    destruct Hin' as ([name' doc] & E & Hf); cbn [fst] in E; subst name'.
    apply in_flat_map in Hf; destruct Hf as ([m' fs'] & Hmf & Hf).
    cbn [snd] in Hf.
    destruct (Hd m' fs' (in_cons _ _ _ Hmf)) as (Hl' & docs' & ->).
    assert (Hn : In (filename_of m j) (map fst (numbered_files m' 1 docs')))
      by (apply in_map_iff; exists (filename_of m j, doc); auto).
    apply numbered_files_In in Hn; destruct Hn as (j' & Hj' & E).
    apply filename_of_inj in E; [|congruence|lia|lia].
    destruct E as [-> _]; apply Hm.
    apply in_map_iff; exists (m', numbered_files m' 1 docs'); auto.
Qed.

Lemma DEVICE_MODELS_length (m : str) : In m DEVICE_MODELS -> length m = 8%nat.
Proof.
  intros H.
  assert (A : forallb (fun x => (length x =? 8)%nat) DEVICE_MODELS = true)
    by reflexivity.
  rewrite forallb_forall in A; apply Nat.eqb_eq; auto.
Qed.

Lemma DEVICE_MODELS_flat (m : str) : In m DEVICE_MODELS -> flat_name m = true.
Proof.
  intros H.
  assert (A : forallb flat_name DEVICE_MODELS = true) by reflexivity.
  rewrite forallb_forall in A; auto.
Qed.

(** The files of a mapping [process_data_to_xml] returns: their names are
    pairwise distinct and flat. *)
Lemma process_data_to_xml_names (df : DataFrame)
    (d : list (str * list (str * str))) :
  process_data_to_xml df = Ok d ->
  NoDup (map fst (all_files d)) /\
  Forall (fun f => flat_name (fst f) = true) (all_files d).
Proof.
  intros Hd; destruct (process_data_to_xml_spec df d Hd) as [Hk Hs].
  assert (Hin : forall m fs, In (m, fs) d -> In m DEVICE_MODELS).
  { intros m fs H.
    assert (Hm : In m (map fst d)) by (apply in_map_iff; exists (m, fs); auto).
    rewrite Hk in Hm; apply filter_In in Hm; tauto. }
  split.
  - apply (all_files_NoDup 8).
    + rewrite Hk; apply NoDup_filter, DEVICE_MODELS_NoDup.
    + intros m fs H; split; [apply DEVICE_MODELS_length; eauto|].
      destruct (Hs m fs H) as (chunks & docs & _ & _ & _ & ->); eauto.
  - apply Forall_forall; intros [name doc] Hf.
    unfold all_files in Hf; apply in_flat_map in Hf.
    destruct Hf as ([m fs] & Hmf & Hf); cbn [snd] in Hf.
    destruct (Hs m fs Hmf) as (chunks & docs & _ & _ & _ & ->).
    assert (Hn : In name (map fst (numbered_files m 1 docs)))
      by (apply in_map_iff; exists (name, doc); auto).
    apply numbered_files_In in Hn; destruct Hn as (j & Hj & ->).
    apply filename_of_flat; [apply DEVICE_MODELS_flat; eauto | lia].
Qed.

(** ** create_zip_file *)

Lemma dict_get_set {V} (d : list (str * V)) (key : str) (v default : V) :
  dict_get (dict_set d key v) key default = v.
Proof.
  induction d as [|[k x] d IH]; simpl.
  - rewrite str_eqb_refl; reflexivity.
  - destruct (str_eqb key k) eqn:E; simpl; rewrite E; [reflexivity | exact IH].
Qed.

Lemma writestr_archive (path name data : str) (os : OS) :
  dict_get (files (writestr path name data os)) path (mkArchive [] false)
  = mkArchive
      (entries (dict_get (files os) path (mkArchive [] false))
       ++ [(arcname name, data)])
      (end_record (dict_get (files os) path (mkArchive [] false))).
Proof. unfold writestr; cbn [files]; apply dict_get_set. Qed.

Lemma write_files_archive (path : str) (fs : list (str * str)) (os : OS) :
  let a := dict_get (files os) path (mkArchive [] false) in
  dict_get (files (fold_left (fun os file =>
                                writestr path (fst file) (snd file) os) fs os))
           path (mkArchive [] false)
  = mkArchive (entries a ++ map (fun f => (arcname (fst f), snd f)) fs)
              (end_record a).
Proof.
  revert os; induction fs as [|f fs IH]; intros os a; simpl.
  - rewrite app_nil_r; subst a; destruct (dict_get _ _ _); reflexivity.
  - rewrite IH, writestr_archive; cbn [entries end_record].
    rewrite <- app_assoc; reflexivity.
Qed.

Lemma write_models_archive (path : str) (d : list (str * list (str * str)))
    (os : OS) :
  let a := dict_get (files os) path (mkArchive [] false) in
  dict_get (files (fold_left
                     (fun os item =>
                        fold_left (fun os file =>
                                     writestr path (fst file) (snd file) os)
                                  (snd item) os) d os))
           path (mkArchive [] false)
  = mkArchive (entries a ++ map (fun f => (arcname (fst f), snd f)) (all_files d))
              (end_record a).
Proof.
  revert os; induction d as [|item d IH]; intros os a; simpl.
  - rewrite app_nil_r; subst a; destruct (dict_get _ _ _); reflexivity.
  - rewrite IH, write_files_archive; cbn [entries end_record].
    unfold all_files; cbn [flat_map]; rewrite map_app, <- app_assoc.
    reflexivity.
Qed.

(** The archive [create_zip_file] leaves: closed, one entry per file of the
    mapping, in the order of the mapping. *)
Lemma create_zip_file_archive (d : list (str * list (str * str))) (os : OS) :
  archive_of (create_zip_file d os)
  = mkArchive (map (fun f => (arcname (fst f), snd f)) (all_files d)) true.
Proof.
  unfold archive_of, create_zip_file, mkdtemp; cbn [fst snd].
  unfold zip_close at 1; cbn [files]; rewrite dict_get_set.
  rewrite write_models_archive.
  unfold zip_open; cbn [files entries]; rewrite dict_get_set; reflexivity.
Qed.

Lemma span_until_absent (stop : ascii) (s : str) :
  ~ In stop s -> span_until stop s = (s, []).
Proof.
  induction s as [|c s IH]; intros H; simpl; [reflexivity|].
  destruct (Ascii.eqb_spec c stop) as [->|Hc]; [exfalso; apply H; left; reflexivity|].
  rewrite IH by (intros Hin; apply H; right; exact Hin); reflexivity.
Qed.

Lemma arcname_exact (name : str) : ~ In NUL name -> arcname name = name.
Proof. intros H; unfold arcname; rewrite span_until_absent by assumption; reflexivity. Qed.

Lemma flat_name_facts (name : str) :
  flat_name name = true -> ~ In NUL name /\ ~ In "/"%char name.
Proof.
  unfold flat_name; rewrite forallb_forall; intros H.
  split; intros Hin; specialize (H _ Hin); discriminate H.
Qed.

Lemma map_arcname_exact (fs : list (str * str)) :
  Forall (fun f => ~ In NUL (fst f)) fs ->
  map (fun f => (arcname (fst f), snd f)) fs = fs.
Proof.
  induction 1 as [|[name data] fs H Hfs IH]; [reflexivity|]; simpl.
  cbn [fst] in H; rewrite arcname_exact, IH by assumption; reflexivity.
Qed.



(** C10.  The file names in a mapping [process_data_to_xml] returns are
    pairwise distinct: the 11 model identifiers are distinct and all of
    length 8, and the chunks of a model are numbered from 1 upwards.  So the
    entries [create_zip_file] writes for it have pairwise distinct names. *)
Theorem C10_file_names_distinct (df : DataFrame)
    (d : list (str * list (str * str))) (os : OS) :
  process_data_to_xml df = Ok d ->
  NoDup DEVICE_MODELS /\
  Forall (fun m => length m = 8%nat) DEVICE_MODELS /\
  NoDup (map fst (all_files d)) /\
  NoDup (map fst (entries (archive_of (create_zip_file d os)))).
Proof.
  intros Hd; destruct (process_data_to_xml_names df d Hd) as [Hnd Hflat].
  split; [apply DEVICE_MODELS_NoDup|].
  split; [apply Forall_forall, DEVICE_MODELS_length|].
  split; [exact Hnd|].
  rewrite create_zip_file_archive; cbn [entries].
  rewrite map_arcname_exact; [exact Hnd|].
  eapply Forall_impl; [|exact Hflat].
  intros f Hf; apply flat_name_facts, Hf.
Qed.

Lemma C10_file_names_distinct_witness :
  exists d,
    process_data_to_xml table_two_models = Ok d /\
    NoDup (map fst (all_files d)).
Proof.
  eexists; split; [vm_compute; reflexivity|].
  apply (C10_file_names_distinct table_two_models _ (mkOS 0 []));
    vm_compute; reflexivity.
Defined.

(** ** Values that are not strings *)

(** C7, at a table whose [Serial Number] column holds a number.  The
    validation accepts the table, [create_chunks] raises on the [.str]
    accessor of the numeric column, and so does the whole run, while
    [generate_xml_from_chunk], which turns the cell into its string form
    with [str], renders the same rows.  In a column that mixes strings and
    numbers the accessor does not raise but turns the number into NaN: the
    row whose version is the number 5 is dropped although its string form
    is an allowed version. *)
Lemma C7_numeric_serial_rejected :
  fst (validate_data table_numeric_serial) = true /\
  create_chunks table_numeric_serial "JIDU6601" ALLOWED_VERSIONS CHUNK_SIZE
  = Raise AttributeError /\
  process_data_to_xml table_numeric_serial = Raise AttributeError /\
  (exists doc,
     generate_xml_from_chunk table_numeric_serial "JIDU6601" 1 = Ok doc /\
     parse_triples doc
     = Some [("JIDU6601" : str, "Speedtech" : str, "12345" : str)]) /\
  fst (validate_data table_mixed_version) = true /\
  create_chunks table_mixed_version "JIDU6601" (strs ["5"]) CHUNK_SIZE
  = Ok [mkDF required_columns [[VStr "JIDU6601"; VStr "SN1"; VStr "5"]]] /\
  map (trimmed table_mixed_version "Version") (rows table_mixed_version)
  = strs ["5"; "5"].
Proof.
  split; [reflexivity|]; split; [reflexivity|].
  split; [reflexivity|].
  split; [eexists; split; reflexivity|].
  split; [reflexivity|]; split; reflexivity.
Qed.

(** A missing serial number is not the empty string: the filter keeps the
    row ([NaN != ''] holds), and the renderer writes the string form of the
    missing value. *)
Lemma missing_serial_kept :
  create_chunks table_missing_serial "JIDU6601" ALLOWED_VERSIONS CHUNK_SIZE
  = Ok [table_missing_serial] /\
  exists doc,
    generate_xml_from_chunk table_missing_serial "JIDU6601" 1 = Ok doc /\
    parse_triples doc
    = Some [("JIDU6601" : str, "Speedtech" : str, "SN1" : str);
            ("JIDU6601" : str, "Speedtech" : str, "nan" : str)].
Proof.
  split; [reflexivity|].
  eexists; split; reflexivity.
Qed.

(** * More properties of the pipeline *)

(** ** create_chunks: cells of any type *)

(** The filter on one row, read on the cells as they are. *)
Lemma row_passes_cells (df : DataFrame) (M : str) (allowed : list str)
    (r : Row) :
  row_passes df M allowed r = true <->
  (exists x, cell df "Device Model" r = VStr x /\ strip x = M) /\
  (forall x, cell df "Serial Number" r = VStr x -> strip x <> []) /\
  (exists v, cell df "Version" r = VStr v /\ strip v <> [] /\
             In (strip v) allowed).
Proof.
  unfold row_passes.
  rewrite !andb_true_iff, !negb_true_iff.
  destruct (cell df "Device Model" r) as [x| |];
    destruct (cell df "Serial Number" r) as [y| |];
    destruct (cell df "Version" r) as [v| |]; cbn [stripped value_eq value_isin];
    rewrite ?str_eqb_eq, ?str_eqb_neq, ?existsb_str_eqb;
    (split;
     [ intros [[[H1 H2] H3] H4]; try discriminate;
       (split; [eauto|]); (split; [intros ? [= <-]; assumption || discriminate
                                  | eauto])
     | intros ((x' & Hx & H1) & H2 & (v' & Hv & H3 & H4));
       try discriminate;
       try (injection Hx as <-); try (injection Hv as <-);
       repeat split; eauto ]).
Qed.

Lemma In_py_slice {A} (l : list A) (a b : Z) (x : A) :
  In x (py_slice l a b) -> In x l.
Proof.
  unfold py_slice; apply In_window.
Qed.

(** Every chunk holds rows the filter keeps, under the columns of the
    table, whatever the chunk size. *)
Lemma create_chunks_rows (df : DataFrame) (M : str) (allowed : list str)
    (cs : Z) (chunks : list DataFrame) :
  create_chunks df M allowed cs = Ok chunks ->
  forall c, In c chunks ->
    columns c = columns df /\
    forall r, In r (rows c) ->
              In r (rows df) /\ row_passes df M allowed r = true.
Proof.
  unfold create_chunks; intros H.
  destruct (filter_rows df M allowed) as [f|] eqn:Hf; [|discriminate].
  cbn [bind] in H.
  destruct (filter_rows_spec _ _ _ _ Hf) as (Hrows & Hcols & _).
  destruct (empty f).
  - injection H as <-; intros c [].
  - destruct (floordiv (len f + cs - 1) cs) as [k|]; [|discriminate].
    cbn [bind] in H; injection H as <-.
    intros c Hc; apply in_map_iff in Hc; destruct Hc as (i & <- & _).
    cbn [iloc columns rows]; split; [exact Hcols|].
    intros r Hr; apply In_py_slice in Hr.
    rewrite Hrows in Hr; apply filter_In in Hr; exact Hr.
Qed.

(** X1.  For a positive chunk size, whenever [create_chunks] returns, a row
    of the table, whatever the types of its cells, is in some chunk exactly
    when its [Device Model] cell is a string that trims to the target
    model, its [Version] cell is a string that trims to a non-empty allowed
    version, and its [Serial Number] cell is not a string that trims to the
    empty string: a serial number that is missing or is a number passes. *)
Theorem create_chunks_cells_of_any_type (df : DataFrame) (M : str)
    (allowed : list str) (cs : Z) (chunks : list DataFrame) :
  0 < cs -> create_chunks df M allowed cs = Ok chunks ->
  forall r, In r (rows df) ->
    ((exists c, In c chunks /\ In r (rows c)) <->
     (exists x, cell df "Device Model" r = VStr x /\ strip x = M) /\
     (forall x, cell df "Serial Number" r = VStr x -> strip x <> []) /\
     (exists v, cell df "Version" r = VStr v /\ strip v <> [] /\
                In (strip v) allowed)).
Proof.
  intros Hcs Hc r Hr.
  rewrite <- row_passes_cells; split.
  - intros (c & Hin & Hrc).
    apply (create_chunks_rows _ _ _ _ _ Hc c Hin); exact Hrc.
  - intros Hp.
    destruct (create_chunks_filtered _ _ _ _ _ Hc) as [f Hf].
    pose proof (create_chunks_concat _ _ _ _ _ _ Hcs Hf Hc) as Hcat.
    destruct (filter_rows_spec _ _ _ _ Hf) as (Hrows & _ & _).
    assert (Hin : In r (concat (map rows chunks))).
    { rewrite Hcat, Hrows; apply filter_In; split; assumption. }
    apply in_concat in Hin; destruct Hin as (x & Hx & Hrx).
    apply in_map_iff in Hx; destruct Hx as (c & <- & Hx); eauto.
Qed.

Lemma create_chunks_cells_of_any_type_witness :
  0 < CHUNK_SIZE /\
  exists chunks,
    create_chunks table_mixed_serial "JIDU6601" ALLOWED_VERSIONS CHUNK_SIZE
    = Ok chunks /\
    ((exists c, In c chunks /\
                In [VStr "JIDU6601"; VNaN; VStr "R2.0.19"] (rows c)) <->
     (exists x, VStr "JIDU6601" = VStr x /\ strip x = "JIDU6601") /\
     (forall x, VNaN = VStr x -> strip x <> []) /\
     (exists v, VStr "R2.0.19" = VStr v /\ strip v <> [] /\
                In (strip v) ALLOWED_VERSIONS)).
Proof.
  split; [reflexivity|].
  eexists; split; [vm_compute; reflexivity|].
  apply (create_chunks_cells_of_any_type table_mixed_serial "JIDU6601"
           ALLOWED_VERSIONS CHUNK_SIZE _ eq_refl eq_refl
           [VStr "JIDU6601"; VNaN; VStr "R2.0.19"]).
  right; left; reflexivity.
Defined.

(** ** Errors of create_chunks *)

Lemma getitem_error (df : DataFrame) (col : str) (e : exn) :
  getitem df col = Raise e -> e = KeyError col /\ has_column df col = false.
Proof.
  unfold getitem, has_column.
  destruct (index_of col (columns df)); [discriminate|].
  intros [= <-]; auto.
Qed.

Lemma getitem_has_column (df : DataFrame) (col : str) (s : list value) :
  getitem df col = Ok s -> has_column df col = true.
Proof.
  unfold getitem, has_column.
  destruct (index_of col (columns df)); [reflexivity | discriminate].
Qed.

Lemma has_column_getitem (df : DataFrame) (col : str) :
  has_column df col = true -> exists s, getitem df col = Ok s.
Proof.
  unfold getitem, has_column.
  destruct (index_of col (columns df)); [eauto | discriminate].
Qed.

Lemma str_strip_error (s : list value) (e : exn) :
  str_strip s = Raise e -> e = AttributeError.
Proof.
  unfold str_strip, str_accessor.
  destruct (existsb is_str s || forallb is_nan s); cbn [bind];
    [discriminate | intros [= <-]; reflexivity].
Qed.

Ltac bind_raise H :=
  match type of H with
  | bind ?m _ = Raise _ =>
      let E := fresh "E" in
      destruct m eqn:E; cbn [bind] in H
  end.

Lemma filter_mask_error (df : DataFrame) (M : str) (allowed : list str)
    (e : exn) :
  filter_mask df M allowed = Raise e -> column_error df e.
Proof.
  assert (G : forall col e', In col required_columns ->
                getitem df col = Raise e' -> column_error df e').
  { intros col e' Hcol H; apply getitem_error in H; destruct H as [-> H].
    right; exists col; auto. }
  assert (S : forall s e', str_strip s = Raise e' -> column_error df e').
  { intros s e' H; apply str_strip_error in H; left; exact H. }
  unfold filter_mask; intros H.
  bind_raise H; [|injection H as <-; eapply G; [|eassumption]; simpl; auto].
  bind_raise H; [|injection H as <-; eapply S; eassumption].
  bind_raise H; [|injection H as <-; eapply G; [|eassumption]; simpl; auto].
  bind_raise H; [|injection H as <-; eapply S; eassumption].
  bind_raise H; [|injection H as <-; eapply G; [|eassumption]; simpl; auto].
  bind_raise H; [|injection H as <-; eapply S; eassumption].
  discriminate H.
Qed.

Lemma filter_mask_columns (df : DataFrame) (M : str) (allowed : list str)
    (mask : list bool) :
  filter_mask df M allowed = Ok mask ->
  forall col, In col required_columns -> has_column df col = true.
Proof.
  unfold filter_mask; intros H.
  bind_ok H c1 H1. bind_ok H s1 G1.
  bind_ok H c2 H2. bind_ok H s2 G2.
  bind_ok H c3 H3. bind_ok H s3 G3.
  apply getitem_has_column in H1, H2, H3.
  intros col [<-|[<-|[<-|[]]]]; assumption.
Qed.

Lemma filter_rows_error (df : DataFrame) (M : str) (allowed : list str)
    (e : exn) :
  filter_rows df M allowed = Raise e -> column_error df e.
Proof.
  unfold filter_rows; intros H.
  bind_raise H; [discriminate|].
  injection H as <-; eapply filter_mask_error; eassumption.
Qed.

Lemma filter_rows_columns (df f : DataFrame) (M : str) (allowed : list str) :
  filter_rows df M allowed = Ok f ->
  forall col, In col required_columns -> has_column df col = true.
Proof.
  unfold filter_rows; intros H.
  bind_ok H mask Hm.
  eapply filter_mask_columns; eassumption.
Qed.


Lemma validate_data_false (df : DataFrame) :
  fst (validate_data df) = false <->
  exists col, In col required_columns /\ has_column df col = false.
Proof.
  unfold validate_data.
  destruct (missing_columns df) as [|c l] eqn:E; cbn [fst]; split.
  - discriminate.
  - intros (col & Hcol & Hno).
    assert (Hin : In col (missing_columns df)).
    { unfold missing_columns; apply filter_In; rewrite Hno; auto. }
    rewrite E in Hin; destruct Hin.
  - intros _; exists c.
    assert (Hin : In c (missing_columns df)) by (rewrite E; left; reflexivity).
    unfold missing_columns in Hin; apply filter_In in Hin.
    destruct Hin as [Hin Hn]; apply negb_true_iff in Hn; auto.
  - reflexivity.
Qed.

Lemma validate_data_true (df : DataFrame) :
  fst (validate_data df) = true <->
  forall col, In col required_columns -> has_column df col = true.
Proof.
  split.
  - intros Hv col Hcol.
    destruct (has_column df col) eqn:E; [reflexivity|].
    assert (Hf : fst (validate_data df) = false)
      by (apply validate_data_false; eauto).
    congruence.
  - intros Hall.
    destruct (fst (validate_data df)) eqn:E; [reflexivity|].
    apply validate_data_false in E; destruct E as (col & Hcol & Hno).
    rewrite (Hall col Hcol) in Hno; discriminate.
Qed.

Lemma process_models_cons_raise (df : DataFrame) (m : str) (rest : list str)
    (acc : list (str * list (str * str))) (e : exn) :
  create_chunks df m ALLOWED_VERSIONS CHUNK_SIZE = Raise e ->
  process_models df (m :: rest) acc = Raise e.
Proof. intros H; cbn [process_models]; rewrite H; reflexivity. Qed.

(** X2.  On a table that [validate_data] rejects, [create_chunks] never
    returns: for every model, list of versions and chunk size it raises,
    either the [KeyError] of a required column that the table does not
    have or the [AttributeError] of a [.str] accessor met before it; and so
    does [process_data_to_xml]. *)
Theorem rejected_table_raises (df : DataFrame) :
  fst (validate_data df) = false ->
  (forall M allowed cs,
     exists e, create_chunks df M allowed cs = Raise e /\ column_error df e) /\
  exists e, process_data_to_xml df = Raise e /\ column_error df e.
Proof.
  intros Hv; apply validate_data_false in Hv.
  destruct Hv as (col & Hcol & Hno).
  assert (Hc : forall M allowed cs,
             exists e, create_chunks df M allowed cs = Raise e /\
                       column_error df e).
  { intros M allowed cs.
    destruct (filter_rows df M allowed) as [f|e] eqn:Hf.
    - rewrite (filter_rows_columns _ _ _ _ Hf col Hcol) in Hno; discriminate.
    - exists e; split; [unfold create_chunks; rewrite Hf; reflexivity|].
      eapply filter_rows_error; eassumption. }
  split; [exact Hc|].
  destruct (Hc "JIDU6601" ALLOWED_VERSIONS CHUNK_SIZE) as (e & He & Hce).
  exists e; split; [|exact Hce].
  apply (process_models_cons_raise df "JIDU6601" _ [] e He).
Qed.

Lemma rejected_table_raises_witness :
  fst (validate_data table_no_serial) = false /\
  create_chunks table_no_serial "JIDU6601" ALLOWED_VERSIONS CHUNK_SIZE
  = Raise (KeyError "Device Model") /\
  exists e, process_data_to_xml table_no_serial = Raise e /\
            column_error table_no_serial e.
Proof.
  split; [reflexivity|]; split; [reflexivity|].
  apply (rejected_table_raises table_no_serial); reflexivity.
Defined.

(** ** Chunk sizes that are not positive *)

Lemma empty_false (f : DataFrame) :
  columns f <> [] -> rows f <> [] -> empty f = false.
Proof.
  unfold empty; destruct (columns f); [congruence|].
  destruct (rows f); [congruence | reflexivity].
Qed.

Lemma range_not_positive (q : Z) : q <= 0 -> range q = [].
Proof.
  intros Hq; unfold range.
  replace (Z.to_nat q) with 0%nat by lia; reflexivity.
Qed.

(** X3.  A chunk size that is not positive loses every row the filter
    keeps.  With chunk size 0 the ceiling division raises
    [ZeroDivisionError]; with a negative chunk size [create_chunks] returns
    one chunk without rows when the filter keeps one row, and no chunk at
    all when it keeps more. *)
Theorem create_chunks_size_not_positive (df f : DataFrame) (M : str)
    (allowed : list str) (cs : Z) :
  cs <= 0 -> filter_rows df M allowed = Ok f -> rows f <> [] ->
  create_chunks df M allowed cs =
  if cs =? 0 then Raise ZeroDivisionError
  else if (length (rows f) =? 1)%nat then Ok [mkDF (columns f) []]
       else Ok [].
Proof.
  intros Hcs Hf Hne.
  destruct (filter_rows_spec _ _ _ _ Hf) as (_ & Hcols & Hnc).
  unfold create_chunks; rewrite Hf; cbn [bind].
  rewrite empty_false by congruence.
  unfold floordiv.
  destruct (Z.eqb_spec cs 0) as [E0|N0]; [reflexivity|]; cbn [bind].
  assert (Hneg : cs < 0) by lia.
  unfold len.
  destruct (Nat.eqb_spec (length (rows f)) 1) as [E1|N1].
  - rewrite E1.
    replace (Z.of_nat 1 + cs - 1) with cs by lia.
    rewrite Z.div_same by lia.
    change (range 1) with [0]; cbn [map]; f_equal; f_equal.
    unfold iloc; f_equal.
    unfold py_slice, slice_bound; rewrite E1.
    replace (Z.min ((0 + 1) * cs) (Z.of_nat 1)) with cs by lia.
    destruct (Z.ltb_spec cs 0); [|lia].
    destruct (Z.ltb_spec (0 * cs) 0); [lia|].
    replace (Z.max 0 (cs + Z.of_nat 1) - Z.min (0 * cs) (Z.of_nat 1)) with 0
      by lia.
    reflexivity.
  - rewrite range_not_positive; [reflexivity|].
    assert (Hn : 2 <= Z.of_nat (length (rows f))).
    { destruct (rows f) as [|? [|? ?]]; simpl in *; try congruence; lia. }
    set (a := Z.of_nat (length (rows f)) + cs - 1) in *.
    pose proof (Z.div_mod a cs N0) as E.
    pose proof (Z.mod_neg_bound a cs Hneg) as B.
    nia.
Qed.

Lemma create_chunks_size_not_positive_witness :
  -2 <= 0 /\
  filter_rows table_three "JIDU6601" ALLOWED_VERSIONS = Ok table_three /\
  rows table_three <> [] /\
  create_chunks table_three "JIDU6601" ALLOWED_VERSIONS (-2) = Ok [] /\
  create_chunks table_three "JIDU6601" ALLOWED_VERSIONS 0
  = Raise ZeroDivisionError.
Proof.
  split; [lia|]; split; [reflexivity|]; split; [discriminate|].
  split.
  - apply (create_chunks_size_not_positive table_three table_three "JIDU6601"
             ALLOWED_VERSIONS (-2)); [lia | reflexivity | discriminate].
  - apply (create_chunks_size_not_positive table_three table_three "JIDU6601"
             ALLOWED_VERSIONS 0); [lia | reflexivity | discriminate].
Defined.

(** ** What every chunk keeps *)

(** Every chunk is a window of the filtered rows that starts inside
    them. *)
Lemma chunk_is_window (df : DataFrame) (M : str) (allowed : list str)
    (cs : Z) (chunks : list DataFrame) (c : DataFrame) :
  0 < cs -> create_chunks df M allowed cs = Ok chunks -> In c chunks ->
  exists f i,
    filter_rows df M allowed = Ok f /\
    c = mkDF (columns f)
             (firstn (Z.to_nat cs) (skipn (i * Z.to_nat cs) (rows f))) /\
    (i * Z.to_nat cs < length (rows f))%nat.
Proof.
  intros Hcs Hc Hin.
  destruct (create_chunks_filtered _ _ _ _ _ Hc) as [f Hf].
  rewrite (create_chunks_windows _ _ _ _ _ Hcs Hf) in Hc.
  injection Hc as <-.
  apply in_map_iff in Hin; destruct Hin as (i & <- & Hi).
  apply in_seq in Hi.
  exists f, i; split; [exact Hf|]; split; [reflexivity|].
  set (n := length (rows f)) in *; set (s := Z.to_nat cs) in *.
  assert (Hs : (0 < s)%nat) by (subst s; lia).
  destruct (ceil_div_bounds n s Hs) as [_ Hb].
  destruct n as [|n']; [rewrite ceil_div_zero in Hi by assumption; lia|].
  specialize (Hb ltac:(lia)); nia.
Qed.

(** X4.  For a positive chunk size every chunk [create_chunks] returns has
    all the columns of the table, in their order, the ones the filter does
    not read included; it has at least one row and at most [chunk_size]
    rows; and each of its rows is a row of the table. *)
Theorem chunks_keep_columns (df : DataFrame) (M : str) (allowed : list str)
    (cs : Z) (chunks : list DataFrame) :
  0 < cs -> create_chunks df M allowed cs = Ok chunks ->
  forall c, In c chunks ->
    columns c = columns df /\
    rows c <> [] /\
    Z.of_nat (length (rows c)) <= cs /\
    forall r, In r (rows c) -> In r (rows df).
Proof.
  intros Hcs Hc c Hin.
  destruct (create_chunks_rows _ _ _ _ _ Hc c Hin) as [Hcols Hrows].
  split; [exact Hcols|].
  destruct (chunk_is_window _ _ _ _ _ _ Hcs Hc Hin) as (f & i & _ & -> & Hlt).
  cbn [rows] in *.
  assert (Hlen : length (firstn (Z.to_nat cs)
                           (skipn (i * Z.to_nat cs) (rows f)))
                 = Nat.min (Z.to_nat cs) (length (rows f) - i * Z.to_nat cs)).
  { rewrite length_firstn, length_skipn; reflexivity. }
  split; [|split].
  - intros E; rewrite E in Hlen; simpl in Hlen; lia.
  - rewrite Hlen; lia.
  - intros r Hr; apply (Hrows r Hr).
Qed.

Lemma chunks_keep_columns_witness :
  0 < 2 /\
  exists chunks,
    create_chunks table_three "JIDU6601" ALLOWED_VERSIONS 2 = Ok chunks /\
    forall c, In c chunks ->
      columns c = columns table_three /\ rows c <> [] /\
      Z.of_nat (length (rows c)) <= 2.
Proof.
  split; [reflexivity|].
  eexists; split; [vm_compute; reflexivity|].
  intros c Hc.
  destruct (chunks_keep_columns table_three "JIDU6601" ALLOWED_VERSIONS 2 _
              eq_refl eq_refl c Hc) as (H1 & H2 & H3 & _).
  auto.
Defined.

(** ** One row, one model *)

(** X5.  No row is in the chunks of two different models: whatever the
    lists of versions and the chunk sizes of the two calls, a row of a
    chunk made for one model is in no chunk made for another. *)
Theorem chunks_of_models_disjoint (df : DataFrame) (M M' : str)
    (allowed allowed' : list str) (cs cs' : Z)
    (chunks chunks' : list DataFrame) :
  M <> M' ->
  create_chunks df M allowed cs = Ok chunks ->
  create_chunks df M' allowed' cs' = Ok chunks' ->
  forall c c' r, In c chunks -> In c' chunks' ->
                 In r (rows c) -> ~ In r (rows c').
Proof.
  intros Hne Hc Hc' c c' r Hin Hin' Hr Hr'.
  destruct (create_chunks_rows _ _ _ _ _ Hc c Hin) as [_ H].
  destruct (create_chunks_rows _ _ _ _ _ Hc' c' Hin') as [_ H'].
  destruct (H r Hr) as [_ Hp]; destruct (H' r Hr') as [_ Hp'].
  apply row_passes_cells in Hp, Hp'.
  destruct Hp as ((x & Hx & E) & _); destruct Hp' as ((x' & Hx' & E') & _).
  apply Hne; congruence.
Qed.

Lemma chunks_of_models_disjoint_witness :
  ("JIDU6601" : str) <> "JIDU6101" /\
  create_chunks table_two_models "JIDU6601" ALLOWED_VERSIONS CHUNK_SIZE
  = Ok [mkDF required_columns [example_row "SN1"]] /\
  create_chunks table_two_models "JIDU6101" ALLOWED_VERSIONS CHUNK_SIZE
  = Ok [mkDF required_columns [[VStr "JIDU6101"; VStr "SN7"; VStr "R2.0.16"]]] /\
  ~ In (example_row "SN1")
       (rows (mkDF required_columns
                [[VStr "JIDU6101"; VStr "SN7"; VStr "R2.0.16"]])).
Proof.
  assert (Hne : ("JIDU6601" : str) <> "JIDU6101") by discriminate.
  split; [exact Hne|]; split; [reflexivity|]; split; [reflexivity|].
  apply (chunks_of_models_disjoint table_two_models "JIDU6601" "JIDU6101"
           ALLOWED_VERSIONS ALLOWED_VERSIONS CHUNK_SIZE CHUNK_SIZE _ _
           Hne eq_refl eq_refl
           (mkDF required_columns [example_row "SN1"]) _ (example_row "SN1"));
    simpl; auto.
Defined.

(** ** Errors of generate_xml_from_chunk *)

Lemma has_column_index (df : DataFrame) (col : str) :
  has_column df col = true -> exists i, index_of col (columns df) = Some i.
Proof.
  unfold has_column; destruct (index_of col (columns df)); [eauto|discriminate].
Qed.

Lemma add_serials_no_column (chunk : DataFrame) (m man : str)
    (todo : list Row) (root : Element) :
  has_column chunk "Serial Number" = false ->
  add_serials chunk m man todo root
  = match todo with
    | [] => Ok root
    | _ :: _ => Raise (KeyError "Serial Number")
    end.
Proof.
  unfold has_column; intros H.
  destruct todo as [|r todo]; [reflexivity|].
  cbn [add_serials]; unfold row_getitem.
  destruct (index_of "Serial Number" (columns chunk)); [discriminate|].
  reflexivity.
Qed.

(** The document of a tree without [serial] elements. *)
Lemma generate_xml_empty_tree (chunk : DataFrame) (m : str) (n : Z) :
  add_serials chunk m (dict_get MANUFACTURER_MAP m "Unknown") (rows chunk)
    (mkElement "serials" []) = Ok (mkElement "serials" []) ->
  generate_xml_from_chunk chunk m n
  = Ok (xml_declaration ++ [LF] ++ "<serials/>").
Proof.
  intros H; unfold generate_xml_from_chunk; rewrite H; cbn [bind].
  vm_compute; reflexivity.
Qed.

Lemma generate_xml_no_rows (chunk : DataFrame) (m : str) (n : Z) :
  rows chunk = [] ->
  generate_xml_from_chunk chunk m n
  = Ok (xml_declaration ++ [LF] ++ "<serials/>").
Proof.
  intros H; apply generate_xml_empty_tree; rewrite H; reflexivity.
Qed.

Lemma generate_xml_blank (chunk : DataFrame) (m : str) (n : Z) :
  has_column chunk "Serial Number" = true -> serial_numbers chunk = [] ->
  generate_xml_from_chunk chunk m n
  = Ok (xml_declaration ++ [LF] ++ "<serials/>").
Proof.
  intros Hcol HT; apply generate_xml_empty_tree.
  destruct (has_column_index _ _ Hcol) as [i Hi].
  rewrite (add_serials_tree chunk m i _ _ Hi).
  fold (serial_numbers chunk); rewrite HT; reflexivity.
Qed.

Lemma generate_xml_error (chunk : DataFrame) (m : str) (n : Z) (e : exn) :
  has_column chunk "Serial Number" = true ->
  generate_xml_from_chunk chunk m n = Raise e -> e = ExpatError.
Proof.
  intros Hcol; destruct (has_column_index _ _ Hcol) as [i Hi].
  unfold generate_xml_from_chunk.
  rewrite (add_serials_tree chunk m i _ _ Hi); cbn [bind].
  unfold minidom_parseString.
  destruct (parse_document _); cbn [bind]; [discriminate|].
  intros [= <-]; reflexivity.
Qed.

(** X6.  [generate_xml_from_chunk] raises [KeyError] exactly when the chunk
    has a row and no [Serial Number] column, and the key of the error is
    then that column name. *)
Theorem generate_xml_key_error (chunk : DataFrame) (m : str) (n : Z)
    (col : str) :
  generate_xml_from_chunk chunk m n = Raise (KeyError col) <->
  col = "Serial Number" /\
  has_column chunk "Serial Number" = false /\ rows chunk <> [].
Proof.
  split.
  - intros H.
    destruct (has_column chunk "Serial Number") eqn:Hcol.
    + apply generate_xml_error in H; [discriminate | exact Hcol].
    + destruct (rows chunk) as [|r l] eqn:Hr.
      * rewrite generate_xml_no_rows in H by exact Hr; discriminate.
      * unfold generate_xml_from_chunk in H.
        rewrite add_serials_no_column, Hr in H by exact Hcol.
        cbn [bind] in H; injection H as <-.
        split; [reflexivity|]; split; [reflexivity | discriminate].
  - intros (-> & Hcol & Hr).
    unfold generate_xml_from_chunk.
    rewrite add_serials_no_column by exact Hcol.
    destruct (rows chunk); [congruence | reflexivity].
Qed.

(** X7.  A chunk without rows, and a chunk whose serial numbers all trim to
    the empty string, is rendered as the declaration line followed by the
    one line [<serials/>], whatever the device model is. *)
Theorem generate_xml_no_serial_numbers (chunk : DataFrame) (m : str) (n : Z) :
  rows chunk = [] \/
  (has_column chunk "Serial Number" = true /\ serial_numbers chunk = []) ->
  generate_xml_from_chunk chunk m n
  = Ok (xml_declaration ++ [LF] ++ "<serials/>").
Proof.
  intros [H | [Hcol HT]];
    [apply generate_xml_no_rows | apply generate_xml_blank]; assumption.
Qed.

Lemma generate_xml_no_serial_numbers_witness :
  (rows (example_table [" " : str; [] : str]) = [] \/
   (has_column (example_table [" " : str; [] : str]) "Serial Number" = true /\
    serial_numbers (example_table [" " : str; [] : str]) = [])) /\
  generate_xml_from_chunk (example_table [" " : str; [] : str]) [LF] 1
  = Ok (xml_declaration ++ [LF] ++ "<serials/>").
Proof.
  assert (H : rows (example_table [" " : str; [] : str]) = [] \/
              (has_column (example_table [" " : str; [] : str]) "Serial Number"
               = true /\
               serial_numbers (example_table [" " : str; [] : str]) = []))
    by (right; split; reflexivity).
  split; [exact H|].
  apply (generate_xml_no_serial_numbers _ [LF] 1 H).
Defined.

(** ** Characters XML does not admit *)












(** ** What the document depends on *)



(** ** Counting [<serial] in a document *)

Lemma count_from_other (c : ascii) (r : str) :
  c <> "<"%char ->
  count_from "<serial" 0 (c :: r) = count_from "<serial" 0 r.
Proof.
  intros Hc; cbn [count_from].
  replace (startswith "<serial" (c :: r)) with false; [reflexivity|].
  change (startswith "<serial" (c :: r))
    with (Ascii.eqb "<" c && startswith "serial" r).
  destruct (Ascii.eqb_spec "<"%char c); [congruence | reflexivity].
Qed.

Lemma count_from_no_lt (a r : str) :
  ~ In "<"%char a ->
  count_from "<serial" 0 (a ++ r) = count_from "<serial" 0 r.
Proof.
  induction a as [|c a IH]; intros H; [reflexivity|].
  rewrite <- app_comm_cons, count_from_other.
  - apply IH; intros Hin; apply H; right; exact Hin.
  - intros ->; apply H; left; reflexivity.
Qed.

Ltac no_lt :=
  first [ apply write_data_no_lt
        | let H := fresh in
          vm_compute; intros H;
          repeat (destruct H as [H|H]; [discriminate H|]); exact H ].

Lemma count_from_serial_line (m man s r : str) :
  count_from "<serial" 0 (serial_line m man s ++ r)
  = S (count_from "<serial" 0 r).
Proof.
  unfold serial_line; rewrite <- !app_assoc.
  change (count_from "<serial" 0 ("  <serial Model=" ++ ?x))
    with (S (count_from "<serial" 0 x)).
  rewrite (count_from_no_lt [QUOTE]) by no_lt.
  rewrite (count_from_no_lt (write_data m)) by no_lt.
  rewrite (count_from_no_lt [QUOTE]) by no_lt.
  rewrite (count_from_no_lt " Manufacturer=") by no_lt.
  rewrite (count_from_no_lt [QUOTE]) by no_lt.
  rewrite (count_from_no_lt (write_data man)) by no_lt.
  rewrite (count_from_no_lt [QUOTE]) by no_lt.
  rewrite (count_from_no_lt ">") by no_lt.
  rewrite (count_from_no_lt (write_data s)) by no_lt.
  reflexivity.
Qed.

Lemma count_from_serial_lines (m man : str) (T : list str) (z : str) :
  count_from "<serial" 0 (join [LF] (map (serial_line m man) T ++ [z]))
  = (length T + count_from "<serial" 0 z)%nat.
Proof.
  induction T as [|s T IH]; [reflexivity|].
  cbn [map app length].
  rewrite join_cons by (destruct (map (serial_line m man) T); discriminate).
  rewrite count_from_serial_line.
  rewrite (count_from_no_lt [LF]) by no_lt.
  rewrite IH; reflexivity.
Qed.

(** The page's count on the document of a list of serial numbers: the
    [serial] elements and the start tag of [serials]. *)
Lemma serial_count_layout (m : str) (T : list str) :
  serial_count (xml_declaration ++ [LF] ++ join [LF] (layout m T))
  = Z.of_nat (length T) + 1.
Proof.
  unfold serial_count, count.
  change (Z.of_nat (count_from "<serial" 0
                      (xml_declaration ++ [LF] ++ join [LF] (layout m T)))
          = Z.of_nat (length T) + 1).
  change (count_from "<serial" 0 (xml_declaration ++ ?x))
    with (count_from "<serial" 0 x).
  rewrite (count_from_no_lt [LF]) by no_lt.
  unfold layout; destruct T as [|s T]; [reflexivity|].
  rewrite join_cons by discriminate.
  change (count_from "<serial" 0 ("<serials>" ++ ?x))
    with (S (count_from "<serial" 0 x)).
  rewrite (count_from_no_lt [LF]) by no_lt.
  rewrite count_from_serial_lines.
  change (count_from "<serial" 0 "</serials>") with 0%nat.
  lia.
Qed.

(** X10.  The number the page shows as the serial numbers of a file,
    [xml_content.count('<serial')], is one more than the number of
    [serial] elements of the file, since the start tag of the [serials]
    element is counted too: for a chunk with the [Serial Number] column
    and no control character in the device model and the serial numbers,
    the count on the document is the number of rendered serial numbers
    plus 1. *)
Theorem serial_count_of_document (chunk : DataFrame) (m : str) (n : Z) :
  has_column chunk "Serial Number" = true -> plain m = true ->
  Forall (fun s => plain s = true) (serial_numbers chunk) ->
  exists doc,
    generate_xml_from_chunk chunk m n = Ok doc /\
    serial_count doc = Z.of_nat (length (serial_numbers chunk)) + 1.
Proof.
  intros Hcol Hm HT; eexists; split.
  - apply generate_xml_plain; assumption.
  - apply serial_count_layout.
Qed.

Lemma serial_count_of_document_witness :
  has_column table_three "Serial Number" = true /\
  plain "JIDU6601" = true /\
  Forall (fun s => plain s = true) (serial_numbers table_three) /\
  exists doc,
    generate_xml_from_chunk table_three "JIDU6601" 1 = Ok doc /\
    serial_count doc = 4.
Proof.
  assert (HT : Forall (fun s => plain s = true) (serial_numbers table_three))
    by (repeat constructor).
  split; [reflexivity|]; split; [reflexivity|]; split; [exact HT|].
  apply (serial_count_of_document table_three "JIDU6601" 1 eq_refl eq_refl HT).
Defined.

(** ** Errors of process_data_to_xml *)



Lemma has_column_columns (c df : DataFrame) (col : str) :
  columns c = columns df -> has_column c col = has_column df col.
Proof. unfold has_column; intros ->; reflexivity. Qed.





(** ** A table without rows *)

Lemma filter_rows_no_rows (df : DataFrame) (M : str) (allowed : list str) :
  (forall col, In col required_columns -> has_column df col = true) ->
  rows df = [] ->
  filter_rows df M allowed = Ok (mkDF (columns df) []).
Proof.
  intros Hall Hr.
  destruct (has_column_index df "Device Model") as [i1 H1];
    [apply Hall; simpl; auto|].
  destruct (has_column_index df "Serial Number") as [i2 H2];
    [apply Hall; simpl; auto|].
  destruct (has_column_index df "Version") as [i3 H3];
    [apply Hall; simpl; auto|].
  unfold filter_rows, filter_mask, getitem, boolean_index.
  rewrite H1, H2, H3, Hr; reflexivity.
Qed.

Lemma process_models_no_chunks (df : DataFrame) (models : list str)
    (acc : list (str * list (str * str))) :
  (forall m, In m models ->
             create_chunks df m ALLOWED_VERSIONS CHUNK_SIZE = Ok []) ->
  process_models df models acc = Ok acc.
Proof.
  induction models as [|m models IH]; intros H; [reflexivity|].
  cbn [process_models]; rewrite (H m (in_eq _ _)); cbn [bind].
  apply IH; intros m' Hm'; apply H; right; exact Hm'.
Qed.

(** X12.  A table that has the three required columns and no row is
    processed without error: [create_chunks] returns no chunk for every
    model, list of versions and chunk size, chunk size 0 included, and
    [process_data_to_xml] returns the empty mapping. *)
Theorem table_without_rows (df : DataFrame) :
  fst (validate_data df) = true -> rows df = [] ->
  (forall M allowed cs, create_chunks df M allowed cs = Ok []) /\
  process_data_to_xml df = Ok [].
Proof.
  intros Hv Hr; rewrite validate_data_true in Hv.
  assert (Hc : forall M allowed cs, create_chunks df M allowed cs = Ok []).
  { intros M allowed cs.
    apply (create_chunks_no_rows df (mkDF (columns df) []));
      [apply filter_rows_no_rows; assumption | reflexivity]. }
  split; [exact Hc|].
  apply process_models_no_chunks; intros m _; apply Hc.
Qed.

Lemma table_without_rows_witness :
  fst (validate_data (example_table [])) = true /\
  rows (example_table []) = [] /\
  create_chunks (example_table []) "JIDU6601" ALLOWED_VERSIONS 0 = Ok [] /\
  process_data_to_xml (example_table []) = Ok [].
Proof.
  split; [reflexivity|]; split; [reflexivity|].
  destruct (table_without_rows (example_table []) eq_refl eq_refl) as [H1 H2].
  split; [apply H1 | exact H2].
Defined.

(** ** Files and chunks *)

Lemma fold_left_add (l : list Z) (a : Z) :
  fold_left Z.add l a = a + fold_left Z.add l 0.
Proof.
  revert a; induction l as [|x l IH]; intros a; cbn [fold_left]; [lia|].
  rewrite (IH (a + x)), (IH (0 + x)); lia.
Qed.

Lemma py_sum_cons (x : Z) (l : list Z) : py_sum (x :: l) = x + py_sum l.
Proof. unfold py_sum; simpl; rewrite fold_left_add; reflexivity. Qed.

Lemma py_sum_app (a b : list Z) : py_sum (a ++ b) = py_sum a + py_sum b.
Proof.
  induction a as [|x a IH]; [reflexivity|].
  rewrite <- app_comm_cons, !py_sum_cons, IH; lia.
Qed.

Lemma total_files_snoc (d : list (str * list (str * str))) (m : str)
    (fs : list (str * str)) :
  total_files (d ++ [(m, fs)]) = total_files d + Z.of_nat (length fs).
Proof.
  unfold total_files; rewrite map_app, py_sum_app; cbn [map snd].
  rewrite py_sum_cons; unfold py_sum at 2; simpl; lia.
Qed.

Lemma numbered_files_length (m : str) (k : Z) (docs : list str) :
  length (numbered_files m k docs) = length docs.
Proof. unfold numbered_files; rewrite length_map; apply enumerate_length. Qed.

Lemma process_models_total_chunks (df : DataFrame) (models : list str)
    (acc d : list (str * list (str * str))) :
  NoDup models -> (forall m, In m models -> ~ In m (map fst acc)) ->
  process_models df models acc = Ok d ->
  exists all,
    comprehension
      (fun model => create_chunks df model ALLOWED_VERSIONS CHUNK_SIZE) models
    = Ok all /\
    total_files d
    = total_files acc +
      py_sum (map (fun chunks : list DataFrame => Z.of_nat (length chunks)) all).
Proof.
  revert acc; induction models as [|m models IH]; intros acc Hnd Hfresh H.
  - simpl in H; injection H as <-; exists []; split; [reflexivity|].
    unfold py_sum; simpl; lia.
  - inversion Hnd as [|? ? Hm Hnd']; subst.
    cbn [process_models] in H.
    bind_ok H chunks Hc.
    cbn [comprehension]; rewrite Hc; cbn [bind].
    destruct chunks as [|c cs].
    + apply IH in H; [|assumption|intros m' Hm'; apply Hfresh; right; assumption].
      destruct H as (all & -> & Ht); cbn [bind].
      exists ([] :: all); split; [reflexivity|].
      cbn [map]; rewrite py_sum_cons, Ht; simpl; lia.
    + bind_ok H fs Hf.
      rewrite dict_set_fresh in H by (apply Hfresh; left; reflexivity).
      apply IH in H; [|assumption|].
      * destruct H as (all & -> & Ht); cbn [bind].
        exists ((c :: cs) :: all); split; [reflexivity|].
        cbn [map]; rewrite py_sum_cons, Ht, total_files_snoc.
        apply render_chunks_spec in Hf; destruct Hf as (docs & Hr & ->).
        cbn [app]; rewrite numbered_files_length, (rendered_length _ _ _ _ Hr).
        lia.
      * intros m' Hm'; rewrite map_app, in_app_iff; simpl.
        intros [Hin|[E|[]]]; [eapply Hfresh; [right; exact Hm' | exact Hin]|].
        subst; tauto.
Qed.

(** X13.  The two numbers of the page's success message agree: whenever
    [process_data_to_xml] returns a mapping, computing the chunk lists of
    all the models once more succeeds, and the number of chunks it counts
    is the number of files of the mapping. *)
Theorem total_files_is_total_chunks (df : DataFrame)
    (d : list (str * list (str * str))) :
  process_data_to_xml df = Ok d -> total_chunks df = Ok (total_files d).
Proof.
  intros H; apply process_models_total_chunks in H;
    [|apply DEVICE_MODELS_NoDup | intros ? _ []].
  destruct H as (all & Hall & Ht).
  unfold total_chunks; rewrite Hall; cbn [bind]; rewrite Ht.
  unfold total_files at 1, py_sum at 1; simpl; reflexivity.
Qed.

Lemma total_files_is_total_chunks_witness :
  exists d,
    process_data_to_xml table_two_models = Ok d /\
    total_chunks table_two_models = Ok (total_files d) /\
    total_files d = 2.
Proof.
  eexists; split; [vm_compute; reflexivity|].
  split; [|vm_compute; reflexivity].
  apply (total_files_is_total_chunks table_two_models); vm_compute; reflexivity.
Defined.

(** ** All or nothing *)

Lemma rendered_each (m : str) (k : Z) (chunks : list DataFrame)
    (docs : list str) :
  rendered m k chunks docs ->
  forall c, In c chunks ->
            exists j doc, generate_xml_from_chunk c m j = Ok doc /\ In doc docs.
Proof.
  revert k docs; induction chunks as [|c0 chunks IH]; intros k docs Hr c Hc;
    [destruct Hc|].
  inversion Hr as [|? doc ? docs' Hd Hr']; subst.
  destruct Hc as [<-|Hc].
  - exists k, doc; split; [exact Hd | left; reflexivity].
  - destruct (IH _ _ Hr' c Hc) as (j & doc' & Hg & Hin).
    exists j, doc'; split; [exact Hg | right; exact Hin].
Qed.

(** When the loop over the models returns, every model had its chunks
    computed and every chunk rendered. *)
Lemma process_models_each (df : DataFrame) (models : list str)
    (acc d : list (str * list (str * str))) :
  process_models df models acc = Ok d ->
  forall m, In m models ->
    exists chunks,
      create_chunks df m ALLOWED_VERSIONS CHUNK_SIZE = Ok chunks /\
      forall c, In c chunks ->
                exists j doc, generate_xml_from_chunk c m j = Ok doc.
Proof.
  revert acc; induction models as [|m0 models IH]; intros acc H m Hm;
    [destruct Hm|].
  cbn [process_models] in H.
  bind_ok H chunks Hc.
  destruct Hm as [<-|Hm].
  - exists chunks; split; [exact Hc|].
    destruct chunks as [|c cs]; [intros ? []|].
    bind_ok H fs Hf.
    apply render_chunks_spec in Hf; destruct Hf as (docs & Hr & _).
    intros c' Hc'.
    destruct (rendered_each _ _ _ _ Hr c' Hc') as (j & doc & Hg & _); eauto.
  - destruct chunks as [|c cs]; [eapply IH; eassumption|].
    bind_ok H fs Hf; eapply IH; eassumption.
Qed.

(** X14.  [process_data_to_xml] gives all the files or none: when for one
    of the device models [create_chunks] raises, or one chunk of one model
    does not render, the call raises, and the files of the other models
    are not returned. *)
Theorem one_failure_fails_all (df : DataFrame) (m : str) :
  In m DEVICE_MODELS ->
  (forall e, create_chunks df m ALLOWED_VERSIONS CHUNK_SIZE = Raise e ->
             exists e', process_data_to_xml df = Raise e') /\
  (forall chunks c k e,
     create_chunks df m ALLOWED_VERSIONS CHUNK_SIZE = Ok chunks ->
     In c chunks -> generate_xml_from_chunk c m k = Raise e ->
     exists e', process_data_to_xml df = Raise e').
Proof.
  intros Hm.
  destruct (process_data_to_xml df) as [d|e'] eqn:Hp;
    [|split; intros; eauto].
  destruct (process_models_each _ _ _ _ Hp m Hm) as (chunks & Hc & Hg).
  split.
  - intros e He; rewrite He in Hc; discriminate.
  - intros chunks' c k e Hc' Hin He.
    rewrite Hc' in Hc; injection Hc as ->.
    destruct (Hg c Hin) as (j & doc & Hd).
    change (generate_xml_from_chunk c m j)
      with (generate_xml_from_chunk c m k) in Hd.
    rewrite Hd in He; discriminate.
Qed.

Lemma one_failure_fails_all_witness :
  In ("JIDU6911" : str) DEVICE_MODELS /\
  create_chunks table_one_bad "JIDU6601" ALLOWED_VERSIONS CHUNK_SIZE
  = Ok [example_table ["SN1" : str]] /\
  generate_xml_from_chunk (example_table ["SN1" : str]) "JIDU6601" 1
  = Ok (xml_declaration ++ [LF] ++
        join [LF] (layout "JIDU6601" ["SN1" : str])) /\
  exists e', process_data_to_xml table_one_bad = Raise e'.
Proof.
  assert (Hm : In ("JIDU6911" : str) DEVICE_MODELS)
    by (vm_compute; repeat ((left; reflexivity) || right)).
  split; [exact Hm|].
  split; [reflexivity|]; split; [vm_compute; reflexivity|].
  destruct (one_failure_fails_all table_one_bad "JIDU6911" Hm) as [_ H].
  apply (H [mkDF required_columns
              [[VStr "JIDU6911"; VStr ("A" ++ ["001"%char] ++ "B");
                VStr "R2.0.19"]]]
           (mkDF required_columns
              [[VStr "JIDU6911"; VStr ("A" ++ ["001"%char] ++ "B");
                VStr "R2.0.19"]]) 1 ExpatError);
    [reflexivity | left; reflexivity | reflexivity].
Defined.

(** ** From the table to the files and back *)










(** ** create_zip_file and the other files *)



Lemma writestr_made (path name data : str) (os : OS) :
  made (writestr path name data os) = made os.
Proof. reflexivity. Qed.






(** ** The keys of the download buttons *)

Lemma str_eq_dec (a b : str) : {a = b} + {a <> b}.
Proof. apply list_eq_dec, Ascii.ascii_dec. Defined.

Lemma count_occ_flat_map_insert {V} (F : str * V -> list str)
    (y : str * V) (l : list (str * V)) (x : str) :
  count_occ str_eq_dec (flat_map F (insert_item y l)) x
  = (count_occ str_eq_dec (F y) x + count_occ str_eq_dec (flat_map F l) x)%nat.
Proof.
  induction l as [|z l IH]; cbn [insert_item].
  - cbn [flat_map]; rewrite count_occ_app; reflexivity.
  - destruct (str_ltb (fst z) (fst y)); cbn [flat_map];
      rewrite !count_occ_app; [rewrite IH|]; lia.
Qed.

Lemma count_occ_flat_map_sorted {V} (F : str * V -> list str)
    (d : list (str * V)) (x : str) :
  count_occ str_eq_dec (flat_map F (sorted_items d)) x
  = count_occ str_eq_dec (flat_map F d) x.
Proof.
  induction d as [|y d IH]; [reflexivity|].
  cbn [sorted_items fold_right]; fold (sorted_items d).
  rewrite count_occ_flat_map_insert, IH; cbn [flat_map].
  rewrite count_occ_app; reflexivity.
Qed.

Lemma NoDup_flat_map_sorted {V} (F : str * V -> list str)
    (d : list (str * V)) :
  NoDup (flat_map F d) -> NoDup (flat_map F (sorted_items d)).
Proof.
  rewrite !(NoDup_count_occ str_eq_dec); intros H x.
  rewrite count_occ_flat_map_sorted; apply H.
Qed.

Lemma download_key_inj (m m' f f' : str) :
  length m = length m' -> download_key m f = download_key m' f' ->
  m = m' /\ f = f'.
Proof.
  unfold download_key; intros Hl E.
  apply app_inv_head in E.
  apply app_inj_length in E; [|exact Hl]; destruct E as [-> E].
  apply app_inv_head in E; auto.
Qed.

(** The keys in the order of the mapping are pairwise distinct when the
    file names are and the models are of one length. *)
Lemma download_keys_unsorted_NoDup (L : nat)
    (d : list (str * list (str * str))) :
  (forall m, In m (map fst d) -> length m = L) ->
  NoDup (map fst (all_files d)) ->
  NoDup (flat_map (fun item => map (fun file => download_key (fst item) (fst file))
                                   (snd item)) d).
Proof.
  intros Hlen Hnd.
  set (pairs := flat_map (fun item : str * list (str * str) =>
                            map (fun file => (fst item, fst file)) (snd item)) d).
  assert (E1 : flat_map (fun item : str * list (str * str) =>
                           map (fun file => download_key (fst item) (fst file))
                               (snd item)) d
               = map (fun p => download_key (fst p) (snd p)) pairs).
  { subst pairs; induction d as [|item d IH]; [reflexivity|].
    cbn [flat_map]; rewrite map_app, map_map, IH; [reflexivity| |].
    - intros m Hm; apply Hlen; right; exact Hm.
    - unfold all_files in Hnd; cbn [flat_map] in Hnd.
      rewrite map_app in Hnd; apply NoDup_app_remove_l in Hnd; exact Hnd. }
  assert (E2 : map snd pairs = map fst (all_files d)).
  { subst pairs; unfold all_files; clear.
    induction d as [|item d IH]; [reflexivity|].
    cbn [flat_map]; rewrite !map_app, map_map, IH; reflexivity. }
  assert (Hp : forall p, In p pairs -> length (fst p) = L).
  { intros p Hp; subst pairs; apply in_flat_map in Hp.
    destruct Hp as (item & Hitem & Hp); apply in_map_iff in Hp.
    destruct Hp as (file & <- & _); cbn [fst].
    apply Hlen, in_map, Hitem. }
  rewrite E1; apply NoDup_map_NoDup_ForallPairs.
  - intros p q Hpi Hqi E.
    apply download_key_inj in E; [|rewrite (Hp p Hpi), (Hp q Hqi); reflexivity].
    destruct p, q; cbn [fst snd] in E; destruct E; congruence.
  - apply (NoDup_map_inv snd); rewrite E2; exact Hnd.
Qed.

(** X17.  The keys the page gives its download buttons,
    [download_{model}_{filename}] for the items of the mapping sorted by
    model, are pairwise distinct for every mapping [process_data_to_xml]
    returns. *)
Theorem download_keys_distinct (df : DataFrame)
    (d : list (str * list (str * str))) :
  process_data_to_xml df = Ok d -> NoDup (download_keys d).
Proof.
  intros Hd; unfold download_keys.
  apply NoDup_flat_map_sorted, (download_keys_unsorted_NoDup 8).
  - intros m Hm; apply DEVICE_MODELS_length.
    destruct (process_data_to_xml_spec df d Hd) as [Hk _].
    rewrite Hk in Hm; apply filter_In in Hm; tauto.
  - apply (process_data_to_xml_names df d Hd).
Qed.

Lemma download_keys_distinct_witness :
  exists d,
    process_data_to_xml table_two_models = Ok d /\
    download_keys d
    = strs ["download_JIDU6101_JIDU6101_Chunk1.xml";
            "download_JIDU6601_JIDU6601_Chunk1.xml"] /\
    NoDup (download_keys d).
Proof.
  eexists; split; [vm_compute; reflexivity|].
  split; [vm_compute; reflexivity|].
  apply (download_keys_distinct table_two_models); vm_compute; reflexivity.
Defined.

(** ** Chunking a chunk *)

Lemma row_passes_columns (c df : DataFrame) (M : str) (allowed : list str)
    (r : Row) :
  columns c = columns df ->
  row_passes c M allowed r = row_passes df M allowed r.
Proof. intros E; unfold row_passes, cell; rewrite E; reflexivity. Qed.

Lemma ceil_div_one (n s : nat) :
  (0 < n <= s)%nat -> ceil_div n s = 1%nat.
Proof.
  intros [Hn Hs]; unfold ceil_div.
  destruct (Nat.eq_dec n s) as [->|Hne].
  - rewrite Nat.Div0.mod_same, Nat.div_same by lia; reflexivity.
  - rewrite Nat.mod_small, Nat.div_small by lia.
    destruct (Nat.eqb_spec n 0); [lia | reflexivity].
Qed.

(** X18.  Chunking is idempotent on tables of records: for a positive
    chunk size, a chunk that [create_chunks] returns for a model, given
    again to [create_chunks] with the same model, versions and chunk size,
    comes back as the one chunk of the result. *)
Theorem create_chunks_idempotent (df : DataFrame) (M : str)
    (allowed : list str) (cs : Z) (chunks : list DataFrame) :
  0 < cs -> string_table df = true ->
  create_chunks df M allowed cs = Ok chunks ->
  forall c, In c chunks -> create_chunks c M allowed cs = Ok [c].
Proof.
  intros Hcs Ht Hc c Hin.
  destruct (create_chunks_rows _ _ _ _ _ Hc c Hin) as [Hcols Hrows].
  destruct (chunk_is_window _ _ _ _ _ _ Hcs Hc Hin) as (f & i & _ & Ec & Hlt).
  assert (Hlen : (0 < length (rows c) <= Z.to_nat cs)%nat).
  { rewrite Ec; cbn [rows]; rewrite length_firstn, length_skipn; lia. }
  assert (Htc : string_table c = true).
  { unfold string_table in *; apply andb_true_iff in Ht; destruct Ht as [H1 H2].
    apply andb_true_iff; split.
    - rewrite forallb_forall in *; intros col Hcol.
      rewrite (has_column_columns c df col Hcols); auto.
    - rewrite forallb_forall in *; intros r Hr.
      destruct (Hrows r Hr) as [Hdf _]; specialize (H2 r Hdf).
      rewrite forallb_forall in *; intros col Hcol.
      unfold cell in *; rewrite Hcols; auto. }
  destruct (string_table_filter_rows c M allowed Htc) as [f' Hf'].
  destruct (filter_rows_spec _ _ _ _ Hf') as (Hr' & Hc' & _).
  assert (Eall : rows f' = rows c).
  { rewrite Hr'; apply filter_all; intros r Hr.
    rewrite (row_passes_columns c df) by exact Hcols.
    apply (Hrows r Hr). }
  rewrite (create_chunks_windows _ _ _ _ _ Hcs Hf'), Eall, Hc'.
  rewrite ceil_div_one by exact Hlen.
  cbn [seq map Nat.mul skipn].
  rewrite firstn_all2 by lia.
  destruct c; reflexivity.
Qed.

Lemma create_chunks_idempotent_witness :
  0 < 2 /\ string_table table_three = true /\
  exists chunks,
    create_chunks table_three "JIDU6601" ALLOWED_VERSIONS 2 = Ok chunks /\
    forall c, In c chunks ->
              create_chunks c "JIDU6601" ALLOWED_VERSIONS 2 = Ok [c].
Proof.
  split; [reflexivity|]; split; [reflexivity|].
  eexists; split; [vm_compute; reflexivity|].
  apply (create_chunks_idempotent table_three "JIDU6601" ALLOWED_VERSIONS 2 _
           eq_refl eq_refl eq_refl).
Defined.

(** ** The tree of a chunk *)

Lemma lstrip_idempotent (s : str) : lstrip (lstrip s) = lstrip s.
Proof.
  induction s as [|c s IH]; [reflexivity|]; simpl.
  destruct (isspace c) eqn:E; [exact IH | simpl; rewrite E; reflexivity].
Qed.

Lemma lstrip_head (s : str) :
  lstrip s = [] \/ exists c r, lstrip s = c :: r /\ isspace c = false.
Proof.
  induction s as [|c s IH]; [left; reflexivity|]; simpl.
  destruct (isspace c) eqn:E; [exact IH | right; eauto].
Qed.

Lemma strip_idempotent (s : str) : strip (strip s) = strip s.
Proof.
  unfold strip.
  assert (E : lstrip (rstrip (lstrip s)) = rstrip (lstrip s)).
  { destruct (lstrip_head s) as [->|(c & r & -> & Hc)]; [reflexivity|].
    rewrite rstrip_cons by exact Hc; simpl; rewrite Hc; reflexivity. }
  rewrite E; unfold rstrip; rewrite rev_involutive, lstrip_idempotent.
  reflexivity.
Qed.

Lemma add_serials_children (chunk : DataFrame) (m man : str)
    (todo : list Row) (root root' : Element) :
  add_serials chunk m man todo root = Ok root' ->
  tag root' = tag root /\
  exists added,
    children root' = children root ++ added /\
    (length added <= length todo)%nat /\
    Forall (fun e => se_tag e = "serial" /\
                     se_attrib e = [("Model" : str, m);
                                    ("Manufacturer" : str, man)] /\
                     se_text e <> [] /\ strip (se_text e) = se_text e) added.
Proof.
  revert root; induction todo as [|r todo IH]; intros root H.
  - simpl in H; injection H as <-; split; [reflexivity|].
    exists []; rewrite app_nil_r; repeat split; [simpl; lia | constructor].
  - cbn [add_serials] in H.
    bind_ok H v Hv.
    destruct (strip (py_str v)) as [|x t] eqn:Es.
    + destruct (IH _ H) as (Htag & added & Hch & Hlen & Hall).
      split; [exact Htag|]; exists added; repeat split; auto.
      simpl; lia.
    + destruct (IH _ H) as (Htag & added & Hch & Hlen & Hall).
      cbn [tag children] in *; split; [exact Htag|].
      exists (mkSubElement "serial"
                (dict_set (dict_set [] "Model" m) "Manufacturer" man) (x :: t)
              :: added).
      split; [rewrite Hch, <- app_assoc; reflexivity|].
      split; [simpl; lia|].
      constructor; [|exact Hall].
      cbn [se_tag se_attrib se_text]; repeat split; [discriminate|].
      rewrite <- Es; apply strip_idempotent.
Qed.

(** X19.  The loop of [generate_xml_from_chunk] builds a root [serials]
    with at most one child per row of the chunk; every child is a [serial]
    element with exactly the two attributes [Model] and [Manufacturer], in
    that order, whose text is not empty and is trimmed: stripping it again
    changes nothing. *)
Theorem serial_elements_trimmed (chunk : DataFrame) (m man : str)
    (root : Element) :
  add_serials chunk m man (rows chunk) (mkElement "serials" []) = Ok root ->
  tag root = "serials" /\
  (length (children root) <= length (rows chunk))%nat /\
  Forall (fun e => se_tag e = "serial" /\
                   se_attrib e = [("Model" : str, m);
                                  ("Manufacturer" : str, man)] /\
                   se_text e <> [] /\ strip (se_text e) = se_text e)
         (children root).
Proof.
  intros H; apply add_serials_children in H.
  destruct H as (Htag & added & Hch & Hlen & Hall).
  cbn [tag children app] in *; rewrite Hch; auto.
Qed.

Lemma serial_elements_trimmed_witness :
  exists root,
    add_serials table_scenario "JIDU6601" "Speedtech" (rows table_scenario)
      (mkElement "serials" []) = Ok root /\
    length (children root) = 2%nat /\
    Forall (fun e => se_text e <> [] /\ strip (se_text e) = se_text e)
           (children root).
Proof.
  eexists; split; [vm_compute; reflexivity|].
  split; [reflexivity|].
  match goal with
  | |- Forall _ (children ?r) =>
      destruct (serial_elements_trimmed table_scenario "JIDU6601" "Speedtech" r
                  eq_refl) as (_ & _ & H)
  end.
  eapply Forall_impl; [|exact H]; cbv beta; tauto.
Defined.
